(** * RADNAD: a shallow embedding of [radnad.py]

    The development follows the layout of the Python module:

    - Python strings and the handful of [str] methods the parser relies on;
    - the values carried by attribute dictionaries and the exceptions raised;
    - [multidict.MultiDict], the ordered key/value container of the module;
    - [RADIUSResponse], the parser of one [radclient -x] transcript;
    - the session table (a pandas [DataFrame] indexed by start timestamp);
    - the [RADNAD] engine: [auth], [acct], [session], [create_session],
      [acct_stop_by_attrs], [stop_expired_sessions], [generate_port] and the
      constructor's validation.

    Conventions.  A Python [str] is a [string]; one [ascii] stands for one
    code point below 256.  Time is counted in integer microseconds (the
    resolution of [datetime]).  Console printing and logging are not state
    of the program and are left out; every raised exception is kept. *)

From Stdlib Require Import String Ascii List ZArith Lia Bool DecimalString.
Import ListNotations.
Local Open Scope string_scope.
Local Open Scope list_scope.

(* ===================================================================== *)
(** * Part I.  Definitions                                                *)
(* ===================================================================== *)

(** ** Exceptions and fallible computations *)

Inductive exn : Type :=
| ValueError (msg : string)
| TimeoutError (payload : string)
| IndexError (msg : string)
| KeyError (key : string)
| TypeError (msg : string).

(** [inl e]: the call raised [e]; [inr a]: it returned [a]. *)
Definition result (A : Type) : Type := (exn + A)%type.

Definition raise {A : Type} (e : exn) : result A := inl e.
Definition ret {A : Type} (a : A) : result A := inr a.
Definition bind {A B : Type} (c : result A) (k : A -> result B) : result B :=
  match c with
  | inl e => inl e
  | inr a => k a
  end.

Declare Scope result_scope.
Delimit Scope result_scope with result.
Notation "x <- c ;; k" := (bind c (fun x => k))
  (at level 61, c at next level, right associativity) : result_scope.
Notation "' p <- c ;; k" := (bind c (fun x => let p := x in k))
  (at level 61, p pattern, c at next level, right associativity) : result_scope.

(** ** Python strings *)

Module PyStr.

Definition chr (n : nat) : ascii := ascii_of_nat n.
Definition LF : ascii := chr 10.
Definition CR : ascii := chr 13.
Definition TAB : ascii := chr 9.
Definition DQUOTE : ascii := chr 34.
Definition SQUOTE : ascii := chr 39.
Definition SPACE : ascii := chr 32.

Definition one (c : ascii) : string := String c EmptyString.
Definition nl : string := one LF.
Definition tab : string := one TAB.
Definition dq : string := one DQUOTE.

Definition code_in (codes : list nat) (c : ascii) : bool :=
  existsb (Nat.eqb (nat_of_ascii c)) codes.

(** Line boundaries of [str.splitlines]. *)
Definition is_linebreak : ascii -> bool :=
  code_in [10; 11; 12; 13; 28; 29; 30; 133].

(** White space removed by [str.strip()]. *)
Definition is_space : ascii -> bool :=
  code_in [9; 10; 11; 12; 13; 28; 29; 30; 31; 32; 133; 160].

(** The characters removed around keys and values: double quote,
    single quote and space. *)
Definition is_quote_or_space : ascii -> bool :=
  code_in [34; 39; 32].

(** [s.find(sub)]: the lowest index of [sub] in [s], or -1. *)
Definition find (sub s : string) : Z :=
  match index 0 sub s with
  | Some i => Z.of_nat i
  | None => (-1)%Z
  end.

(** [s.splitlines()]: the head of the result for a non-empty [rest] is
    what is left of the current line. *)
Fixpoint splitlines (s : string) : list string :=
  match s with
  | EmptyString => []
  | String c rest =>
      if is_linebreak c then
        EmptyString ::
          match rest with
          | String c2 rest2 =>
              if (c =? CR)%char && (c2 =? LF)%char
              then splitlines rest2
              else splitlines rest
          | EmptyString => []
          end
      else
        match splitlines rest with
        | [] => [one c]
        | l :: ls => String c l :: ls
        end
  end.

(** [s.split(sep)] for a one-character separator. *)
Fixpoint split (sep : ascii) (s : string) : list string :=
  match s with
  | EmptyString => [EmptyString]
  | String c rest =>
      if (c =? sep)%char then EmptyString :: split sep rest
      else
        match split sep rest with
        | [] => [one c]
        | h :: t => String c h :: t
        end
  end.

(** [s.split(sep, maxsplit=1)]. *)
Fixpoint split1 (sep : ascii) (s : string) : list string :=
  match s with
  | EmptyString => [EmptyString]
  | String c rest =>
      if (c =? sep)%char then [EmptyString; rest]
      else
        match split1 sep rest with
        | [] => [one c]
        | h :: t => String c h :: t
        end
  end.

Fixpoint lstrip (p : ascii -> bool) (s : string) : string :=
  match s with
  | EmptyString => EmptyString
  | String c rest => if p c then lstrip p rest else s
  end.

Fixpoint rstrip (p : ascii -> bool) (s : string) : string :=
  match s with
  | EmptyString => EmptyString
  | String c rest =>
      match rstrip p rest with
      | EmptyString => if p c then EmptyString else one c
      | r => String c r
      end
  end.

Definition strip (p : ascii -> bool) (s : string) : string :=
  rstrip p (lstrip p s).

(** [n * c] for a one-character string [c]. *)
Fixpoint repeat (c : ascii) (n : nat) : string :=
  match n with
  | O => EmptyString
  | S n' => String c (repeat c n')
  end.

(** [sep.join(parts)]. *)
Definition join (sep : string) (parts : list string) : string :=
  String.concat sep parts.

(** [str(z)] for an [int]. *)
Definition of_Z (z : Z) : string := NilZero.string_of_int (Z.to_int z).

Definition is_empty (s : string) : bool :=
  match s with
  | EmptyString => true
  | String _ _ => false
  end.

End PyStr.

(** ** Values stored in attribute dictionaries and table cells

    The module stores strings (everything read from a transcript) and
    integers (the session counter, generated ports, the default
    [SESSION_TIMEOUT]). *)

Inductive pyval : Type :=
| PStr (s : string)
| PInt (z : Z).

Definition pyval_eqb (a b : pyval) : bool :=
  match a, b with
  | PStr s, PStr t => String.eqb s t
  | PInt x, PInt y => Z.eqb x y
  | _, _ => false
  end.

(** The rendering of a value inside an f-string. *)
Definition pyval_str (v : pyval) : string :=
  match v with
  | PStr s => s
  | PInt z => PyStr.of_Z z
  end.

(** ** [multidict.MultiDict]

    The container comes from the [multidict] package; its operations are
    written after the package's reference implementation: an ordered list
    of pairs in which [d[k] = v] replaces the entries of [k], [add]
    appends, [get]/[d[k]] read the first entry and [pop] removes the first
    entry. *)

Module MultiDict.

Definition t : Type := list (string * pyval).

Definition empty : t := [].

Definition len (d : t) : Z := Z.of_nat (List.length d).

Definition items (d : t) : list (string * pyval) := d.

Definition keys (d : t) : list string := map fst d.

(** [d.get(k, None)] *)
Fixpoint get (k : string) (d : t) : option pyval :=
  match d with
  | [] => None
  | (k', v) :: rest => if String.eqb k' k then Some v else get k rest
  end.

(** [k in d] *)
Definition contains (k : string) (d : t) : bool :=
  match get k d with
  | Some _ => true
  | None => false
  end.

(** [d[k]] *)
Definition getitem (k : string) (d : t) : result pyval :=
  match get k d with
  | Some v => ret v
  | None => raise (KeyError k)
  end.

(** [d.getall(k, default)] with an empty default. *)
Definition getall (k : string) (d : t) : list pyval :=
  map snd (filter (fun kv => String.eqb (fst kv) k) d).

Definition remove_all (k : string) (d : t) : t :=
  filter (fun kv => negb (String.eqb (fst kv) k)) d.

(** [d.add(k, v)] *)
Definition add (k : string) (v : pyval) (d : t) : t := d ++ [(k, v)].

(** [d[k] = v]: the first entry of [k] takes the value, the later
    entries of [k] are deleted; a new key is appended. *)
Fixpoint setitem (k : string) (v : pyval) (d : t) : t :=
  match d with
  | [] => [(k, v)]
  | (k', v') :: rest =>
      if String.eqb k' k then (k, v) :: remove_all k rest
      else (k', v') :: setitem k v rest
  end.

(** [d.pop(k, default)]: the value of the first entry of [k], which is
    removed; [None] stands for the default being returned. *)
Fixpoint pop (k : string) (d : t) : option pyval * t :=
  match d with
  | [] => (None, [])
  | (k', v) :: rest =>
      if String.eqb k' k then (Some v, rest)
      else let '(r, rest') := pop k rest in (r, (k', v) :: rest')
  end.

Definition pop_default (k : string) (default : pyval) (d : t) : pyval * t :=
  match pop k d with
  | (Some v, d') => (v, d')
  | (None, d') => (default, d')
  end.

(** *** [d.update(other)]

    For each incoming pair the next not yet used entry of its key is
    overwritten (or the pair is appended); afterwards the entries of the
    touched keys that lie beyond the last used position are dropped. *)

Definition used_keys : Type := list (string * nat).

Fixpoint used_get (k : string) (u : used_keys) : option nat :=
  match u with
  | [] => None
  | (k', n) :: rest => if String.eqb k' k then Some n else used_get k rest
  end.

Fixpoint used_set (k : string) (n : nat) (u : used_keys) : used_keys :=
  match u with
  | [] => [(k, n)]
  | (k', m) :: rest =>
      if String.eqb k' k then (k, n) :: rest else (k', m) :: used_set k n rest
  end.

(** Overwrite the first entry of [k] at a position [>= start]; [i] is
    the position of the head of [d]. *)
Fixpoint replace_from (k : string) (v : pyval) (start i : nat) (d : t)
  : option (t * nat) :=
  match d with
  | [] => None
  | (k', v') :: rest =>
      if (start <=? i)%nat && String.eqb k' k
      then Some ((k, v) :: rest, i)
      else match replace_from k v start (S i) rest with
           | Some (rest', j) => Some ((k', v') :: rest', j)
           | None => None
           end
  end.

Definition update_one (st : t * used_keys) (kv : string * pyval)
  : t * used_keys :=
  let '(d, u) := st in
  let '(k, v) := kv in
  let start := match used_get k u with Some n => n | None => O end in
  match replace_from k v start O d with
  | Some (d', i) => (d', used_set k (S i) u)
  | None => (d ++ [(k, v)], used_set k (S (List.length d)) u)
  end.

(** The tail sweep: [i] counts the entries kept so far. *)
Fixpoint drop_tails (u : used_keys) (i : nat) (d : t) : t :=
  match d with
  | [] => []
  | (k, v) :: rest =>
      match used_get k u with
      | None => (k, v) :: drop_tails u (S i) rest
      | Some pos =>
          if (pos <=? i)%nat then drop_tails u i rest
          else (k, v) :: drop_tails u (S i) rest
      end
  end.

Definition update (d other : t) : t :=
  match other with
  | [] => d
  | _ =>
      let '(d', u) := fold_left update_one other (d, []) in
      drop_tails u O d'
  end.

(** Entries of pairwise different keys, the shape of a plain [dict]. *)
Definition unique_keys (d : t) : Prop := NoDup (keys d).

End MultiDict.

(** ** [class RADIUSResponse] *)

Local Open Scope result_scope.

(** RADIUS request/response packet types. *)
Definition ACCESS_REQUEST : string := "Access-Request".
Definition ACCESS_ACCEPT : string := "Access-Accept".
Definition ACCESS_REJECT : string := "Access-Reject".
Definition ACCOUNTING_REQUEST : string := "Accounting-Request".
Definition ACCOUNTING_RESPONSE : string := "Accounting-Response".
Definition ACCESS_CHALLENGE : string := "Access-Challenge".

(** Types list for testing membership. *)
Definition RSP_TYPES : list string :=
  [ ACCESS_ACCEPT;
    ACCESS_REJECT;
    ACCOUNTING_REQUEST;
    ACCOUNTING_RESPONSE;
    ACCESS_CHALLENGE ].

Definition str_in (s : string) (l : list string) : bool :=
  existsb (String.eqb s) l.

Record RADIUSResponse : Type := mkRADIUSResponse {
  content : string;            (* original radclient output *)
  timestamp : Z;               (* time of response creation *)
  id_ : string;                (* the request ID, as read *)
  req_type : string;
  req_length : string;
  req_attrs : MultiDict.t;
  rsp_type : string;           (* one of RSP_TYPES *)
  rsp_length : string;
  rsp_attrs : MultiDict.t;
  nas_ip : string;
  nas_port : string;
  srv_ip : string;
  srv_port : string
}.

Definition set_req_attrs (r : RADIUSResponse) (d : MultiDict.t) : RADIUSResponse :=
  mkRADIUSResponse (content r) (timestamp r) (id_ r) (req_type r) (req_length r)
    d (rsp_type r) (rsp_length r) (rsp_attrs r)
    (nas_ip r) (nas_port r) (srv_ip r) (srv_port r).

(** The ten blank-separated fields of a [Sent]/[Received] header line. *)
Record header : Type := mkHeader {
  h_word : string;
  h_type : string;
  h_id : string;
  h_from : string;
  h_to : string;
  h_length : string
}.

(** [[_w, type, _id, id, _from, a, _to, b, _length, length] = line.split(' ')] *)
Definition unpack_header (line : string) : result header :=
  match PyStr.split PyStr.SPACE line with
  | [w; ty; _; i; _; a; _; b; _; len] => ret (mkHeader w ty i a b len)
  | _ => raise (ValueError "unpack: expected 10 values")
  end.

(** [ip, port = endpoint.split(':')] *)
Definition unpack_endpoint (endpoint : string) : result (string * string) :=
  match PyStr.split ":" endpoint with
  | [ip; port] => ret (ip, port)
  | _ => raise (ValueError "unpack: expected 2 values")
  end.

(** [key,val = line.strip().split('=', maxsplit=1)] followed by the
    stripping of quotes and blanks on both sides. *)
Definition parse_avp (line : string) : result (string * string) :=
  match PyStr.split1 "=" (PyStr.strip PyStr.is_space line) with
  | [key; val] =>
      ret (PyStr.strip PyStr.is_quote_or_space key,
           PyStr.strip PyStr.is_quote_or_space val)
  | _ => raise (ValueError "unpack: expected 2 values")
  end.

(** The loop [while line:= lines.pop(0)] of the Sent section.  It returns
    the line that ended the loop, the lines not yet consumed and the
    request attributes. *)
Fixpoint sent_loop (lines : list string) (req : MultiDict.t)
  : result (string * list string * MultiDict.t) :=
  match lines with
  | [] => raise (IndexError "pop from empty list")
  | line :: rest =>
      if PyStr.is_empty line then ret (line, rest, req)
      else if (PyStr.find "=" line <=? 0)%Z then ret (line, rest, req)
      else
        '(key, val) <- parse_avp line ;;
        sent_loop rest (MultiDict.setitem key (PStr val) req)
  end.

(** The loop [while len(lines) > 0] of the Received section. *)
Fixpoint received_loop (lines : list string) (rsp : MultiDict.t)
  : result MultiDict.t :=
  match lines with
  | [] => ret rsp
  | line :: rest =>
      '(key, val) <- parse_avp line ;;
      received_loop rest (MultiDict.setitem key (PStr val) rsp)
  end.

(** [if k in d: d[k] = len(d[k]) * '*'] *)
Definition redact_key (k : string) (d : MultiDict.t) : result MultiDict.t :=
  match MultiDict.get k d with
  | Some (PStr s) =>
      ret (MultiDict.setitem k (PStr (PyStr.repeat "*" (String.length s))) d)
  | Some (PInt _) => raise (TypeError "object of type 'int' has no len()")
  | None => ret d
  end.

Definition redact_passwords (d : MultiDict.t) : result MultiDict.t :=
  d <- redact_key "User-Password" d ;;
  redact_key "Cleartext-Password" d.

(** [RADIUSResponse.__init__] up to and including the two attribute
    loops; [now] is the reading of [time.time()]. *)
Definition parse_sections (content : option string) (now : Z)
  : result RADIUSResponse :=
  match content with
  | None => raise (ValueError "content is None")
  | Some content =>
      if (PyStr.find "Received" content <=? 0)%Z
      then raise (TimeoutError content)
      else
        match PyStr.splitlines content with
        | [] => raise (IndexError "pop from empty list")
        | line :: lines =>
            sent <- unpack_header line ;;
            '(_, _) <- unpack_endpoint (h_from sent) ;;
            '(_, _) <- unpack_endpoint (h_to sent) ;;
            '(line, lines, req) <- sent_loop lines MultiDict.empty ;;
            rcvd <- unpack_header line ;;
            '(nas_ip, nas_port) <- unpack_endpoint (h_to rcvd) ;;
            '(srv_ip, srv_port) <- unpack_endpoint (h_from rcvd) ;;
            if negb (str_in (h_type rcvd) RSP_TYPES)
            then raise (ValueError "No such RSP_TYPES")
            else
              rsp <- received_loop lines MultiDict.empty ;;
              ret (mkRADIUSResponse content now (h_id rcvd)
                     (h_type sent) (h_length sent) req
                     (h_type rcvd) (h_length rcvd) rsp
                     nas_ip nas_port srv_ip srv_port)
        end
  end.

(** [RADIUSResponse(content)]: the parse followed by the redaction of the
    passwords of the request. *)
Definition RADIUSResponse_init (content : option string) (now : Z)
  : result RADIUSResponse :=
  r <- parse_sections content now ;;
  req <- redact_passwords (req_attrs r) ;;
  ret (set_req_attrs r req).

Definition is_auth (r : RADIUSResponse) : bool :=
  String.eqb (req_type r) ACCESS_REQUEST.

Definition is_passed (r : RADIUSResponse) : bool :=
  String.eqb (req_type r) ACCESS_REQUEST && String.eqb (rsp_type r) ACCESS_ACCEPT.

Definition is_failed (r : RADIUSResponse) : bool :=
  String.eqb (req_type r) ACCESS_REQUEST && String.eqb (rsp_type r) ACCESS_REJECT.

Definition is_acct (r : RADIUSResponse) : bool :=
  String.eqb (req_type r) ACCOUNTING_REQUEST.

Definition is_accepted (r : RADIUSResponse) : bool :=
  String.eqb (req_type r) ACCOUNTING_REQUEST
  && String.eqb (rsp_type r) ACCOUNTING_RESPONSE.

Definition attr_is (k : string) (v : string) (d : MultiDict.t) : bool :=
  match MultiDict.get k d with
  | Some x => pyval_eqb x (PStr v)
  | None => false
  end.

Definition guess_access_method (r : RADIUSResponse) : string :=
  if attr_is "Service-Type" "Call-Check" (req_attrs r) then "MAB"
  else if attr_is "Service-Type" "Framed-User" (req_attrs r) then "802.1X"
  else if attr_is "NAS-Port-Type" "Virtual" (req_attrs r) then "VPN"
  else "Unknown".

(** ** The session table

    [RADNAD.sessions] is a pandas [DataFrame] whose index is the column
    [Timestamp] and whose other columns are [SESSION_COLUMNS].  A table is
    the list of its rows in table order; the index label of a row is its
    [Timestamp], and several rows may carry the same label. *)

Record Session : Type := mkSession {
  Timestamp : Z;               (* index label: start time, microseconds *)
  Method : string;
  Status : pyval;
  User_Name : pyval;
  Calling_Station_Id : pyval;
  Framed_IP_Address : pyval;
  Session_Timeout : pyval;
  Acct_Session_Id : pyval;
  Called_Station_Id : pyval;
  NAS_Port_Type : pyval;
  NAS_Port_Id : pyval;
  NAS_Port : pyval;
  NAS_Identifier : pyval;
  Class_ : pyval;
  Other : string
}.

Module DataFrame.

Definition t : Type := list Session.

Definition empty : t := [].

(** [len(df)] *)
Definition len (df : t) : Z := Z.of_nat (List.length df).

(** [df.loc[mask]] for a row predicate. *)
Definition loc (p : Session -> bool) (df : t) : t := filter p df.

(** [df.index] *)
Definition index (df : t) : list Z := map Timestamp df.

(** [df.drop(labels)]: every row whose index label occurs in [labels]
    goes, whichever row the label was taken from. *)
Definition drop (labels : list Z) (df : t) : t :=
  filter (fun s => negb (existsb (Z.eqb (Timestamp s)) labels)) df.

(** [pd.concat([df, new], axis='index')] for a one-row [new]. *)
Definition concat (df : t) (row : Session) : t := df ++ [row].

(** [df['Acct-Session-Id'].isin(values)] on one row. *)
Definition id_isin (values : list pyval) (s : Session) : bool :=
  existsb (pyval_eqb (Acct_Session_Id s)) values.

(** [df['Acct-Session-Id'] == v] on one row. *)
Definition id_is (v : option pyval) (s : Session) : bool :=
  match v with
  | Some v => pyval_eqb (Acct_Session_Id s) v
  | None => false
  end.

End DataFrame.

(** ** Dates and durations *)

Definition MICROSECONDS : Z := 1000000.
Definition DAY_SECONDS : Z := 86400.
Definition DAY : Z := DAY_SECONDS * MICROSECONDS.

(** [datetime.timedelta(days=4)] *)
Definition FOUR_DAYS : Z := 4 * DAY.

(** [timedelta.seconds]: the seconds field of the normalised duration
    (days, seconds, microseconds), always in [0, 86400). *)
Definition td_seconds (delta : Z) : Z := (delta mod DAY) / MICROSECONDS.

(** [timedelta.total_seconds()], rounded down to whole seconds. *)
Definition td_total_seconds (delta : Z) : Z := delta / MICROSECONDS.

(** [isoformat(timespec='milliseconds')] cuts the microseconds to
    milliseconds; the result is what [pd.to_datetime] reads back as the
    index label. *)
Definition isoformat_milliseconds (t : Z) : Z := (t / 1000) * 1000.

(** ** Random numbers

    [draw] is the raw number delivered by the generator for one call. *)

(** [range(start, stop)] *)
Definition py_range (start stop : Z) : list Z :=
  map (fun i => start + Z.of_nat i)%Z (seq 0 (Z.to_nat (stop - start))).

(** [random.randrange(start, stop)]: an element of [range(start, stop)]. *)
Definition randrange (start stop draw : Z) : result Z :=
  if (stop <=? start)%Z then raise (ValueError "empty range for randrange()")
  else ret (start + draw mod (stop - start))%Z.

(** [random.randint(a, b)] is [randrange(a, b+1)]. *)
Definition randint (a b draw : Z) : result Z := randrange a (b + 1) draw.

(** ** [class RADNAD]: constants *)

Definition AUTH_PORT_DEFAULT : Z := 1812.
Definition ACCT_PORT_DEFAULT : Z := 1813.
Definition COA_PORT_DEFAULT : Z := 1700.

Definition ACCT_START : string := "Start".
Definition ACCT_STOP : string := "Stop".

Definition RETRIES_DEFAULT : Z := 3.
Definition RETRIES_MIN : Z := 0.
Definition RETRIES_MAX : Z := 10.

Definition SESSION_TIMEOUT : Z := 3600.
Definition TIMEOUT_DEFAULT : Z := 5.
Definition TIMEOUT_MIN : Z := 1.
Definition TIMEOUT_MAX : Z := 60.
Definition LOG_MIN : Z := 0.
Definition LOG_MAX : Z := 5.

Definition OPTIONS_DEFAULT : string := "-x".
Definition NAS_IDENTIFIER_DEFAULT : string := "RADNAD".

Definition NAS_PORT_TYPES : list string :=
  [ "Async"; "Sync"; "ISDN-Sync"; "ISDN-Async-V.120"; "ISDN-Async-V.110";
    "Virtual"; "PIAFS"; "HDLC-Clear-Channel"; "X.25"; "X.75"; "G.3-Fax";
    "SDSL"; "ADSL-CAP"; "ADSL-DMT"; "IDSL"; "Ethernet"; "xDSL"; "Cable";
    "Wireless-Other"; "Wireless-802.11" ].

(** The keys of [RESPONSE_ICONS]. *)
Definition RESPONSE_ICONS : list string :=
  [ ACCESS_ACCEPT; ACCESS_REJECT; ACCOUNTING_RESPONSE; ACCESS_CHALLENGE ].

(** ** [RADNAD.generate_port] *)

Definition port_max (type : string) : Z :=
  let max := 24%Z in
  let max := if String.eqb type "Ethernet" then 48%Z else max in
  let max := if String.eqb type "Wireless-802.11" then 1000%Z else max in
  let max := if String.eqb type "Virtual" then 10000%Z else max in
  max.

Definition generate_port (type : string) (draw : Z) : result Z :=
  if negb (str_in type NAS_PORT_TYPES)
  then raise (ValueError "Invalid NAS_PORT_TYPE")
  else randrange 1 (port_max type) draw.

(** ** The session counter

    A new object counts with a Python [int], which has no bound.  An
    object restored from the sessions file holds what [Series.max()]
    returned: the greatest text for a column of text, and for a column
    of integers a [numpy.int64], whose [+= 1] wraps from 2^63-1 to
    -2^63.  A [numpy.int64] taken out of the counter is only formatted
    and compared afterwards, so outside the counter it is the integer it
    denotes. *)

Definition INT64_MIN : Z := - 2 ^ 63.
Definition INT64_MAX : Z := 2 ^ 63 - 1.

(** The sum of two [numpy.int64] scalars, given their exact sum. *)
Definition wrap64 (z : Z) : Z := (z + 2 ^ 63) mod 2 ^ 64 - 2 ^ 63.

Inductive pycounter : Type :=
| PyObj (v : pyval)            (* an [int] or a [str] *)
| NpInt64 (n : Z).             (* a [numpy.int64] *)

Coercion PyObj : pyval >-> pycounter.

(** ** [RADNAD.__init__] *)

Record RADNAD : Type := mkRADNAD {
  name : string;               (* NAS-Identifier *)
  server : string;
  secret : string;
  auth_port : Z;
  acct_port : Z;
  coa_port : Z;
  options : string;
  timeout : Z;
  retries : Z;
  sessions : DataFrame.t;
  counter : pycounter;
  level : Z
}.

(** The arguments of the constructor.  [None] is Python's [None]. *)
Record RADNAD_args : Type := mkArgs {
  a_name : string;
  a_server : option pyval;
  a_secret : option string;
  a_auth_port : Z;
  a_acct_port : Z;
  a_coa_port : Z;
  a_options : option string;
  a_retries : Z;
  a_timeout : Z;
  a_level : Z
}.

(** The defaults of the signature, for a given server and secret. *)
Definition default_args (server : option pyval) (secret : option string)
  : RADNAD_args :=
  mkArgs NAS_IDENTIFIER_DEFAULT server secret
    AUTH_PORT_DEFAULT ACCT_PORT_DEFAULT COA_PORT_DEFAULT
    (Some OPTIONS_DEFAULT) RETRIES_DEFAULT TIMEOUT_DEFAULT 0.

(** [Series.max()] over the cells of a column: integers compare with
    integers and strings with strings; a mixed column cannot be ordered. *)
Definition pyval_max (a b : pyval) : result pyval :=
  match a, b with
  | PInt x, PInt y => ret (PInt (Z.max x y))
  | PStr s, PStr u => ret (PStr (if String.leb s u then u else s))
  | _, _ => raise (TypeError "'>=' not supported between 'str' and 'int'")
  end.

Fixpoint series_max (cells : list pyval) (acc : pyval) : result pyval :=
  match cells with
  | [] => ret acc
  | c :: rest => m <- pyval_max acc c ;; series_max rest m
  end.

(** The session counter restored from a table read from the sessions
    file: [0 if len(self.sessions) == 0 else
    self.sessions['Acct-Session-Id'].max()].  [read_csv] gives a column of
    integers the dtype int64 when each of them lies between [INT64_MIN]
    and [INT64_MAX], and the greatest of them is then a [numpy.int64].
    A file with a larger integer is read with another dtype (uint64, or
    text), which a table of [PInt] cells does not describe: the theorems
    on restored counters take the ids in the int64 range. *)
Definition restore_counter (df : DataFrame.t) : result pycounter :=
  match map Acct_Session_Id df with
  | [] => ret (PyObj (PInt 0))
  | c :: rest =>
      top <- series_max rest c ;;
      match top with
      | PInt n => ret (NpInt64 n)
      | PStr s => ret (PyObj (PStr s))
      end
  end.

(** [csv] is the table read from [SESSIONS_FILENAME], or [None] when the
    file does not exist. *)
Definition RADNAD_init (a : RADNAD_args) (csv : option DataFrame.t)
  : result RADNAD :=
  server <-
    match a_server a with
    | None => raise (ValueError "Must specify a RADIUS server name or address")
    | Some (PStr s) =>
        if PyStr.is_empty s
        then raise (ValueError "Must specify a RADIUS server name or address")
        else ret s
    | Some (PInt _) => raise (ValueError "server is not a string")
    end ;;
  if ((a_auth_port a <? 1024) || (a_auth_port a >? 65536))%Z
  then raise (ValueError "Invalid port number") else
  if ((a_acct_port a <? 1024) || (a_acct_port a >? 65536))%Z
  then raise (ValueError "Invalid port number") else
  secret <-
    match a_secret a with
    | None => raise (ValueError "Must specify a secret")
    | Some s =>
        if PyStr.is_empty s then raise (ValueError "Must specify a secret")
        else ret s
    end ;;
  let options :=
    match a_options a with
    | None => OPTIONS_DEFAULT
    | Some o => if PyStr.is_empty o then OPTIONS_DEFAULT else o
    end in
  if (PyStr.find "x" options <? 0)%Z
  then raise (ValueError "Option x required") else
  if ((a_retries a <? RETRIES_MIN) || (a_retries a >? RETRIES_MAX))%Z
  then raise (ValueError "Invalid retries") else
  if ((a_timeout a <? TIMEOUT_MIN) || (a_timeout a >? TIMEOUT_MAX))%Z
  then raise (ValueError "Invalid timeout") else
  if ((a_level a <? LOG_MIN) || (a_timeout a >? LOG_MAX))%Z
  then raise (ValueError "Invalid verbosity/log level") else
  '(sessions, counter) <-
    match csv with
    | Some df => c <- restore_counter df ;; ret (df, c)
    | None => ret (DataFrame.empty, PyObj (PInt 0))
    end ;;
  ret (mkRADNAD (a_name a) server secret (a_auth_port a) (a_acct_port a)
         (a_coa_port a) options (a_timeout a) (a_retries a)
         sessions counter (a_level a)).

(** ** The engine

    The coroutines of [RADNAD] run against three collaborators: the shell
    that executes [radclient], the clock and the random generator.  They
    are taken as the transitions of an outside [World].  A [machine] holds
    the [RADNAD] object, the world and the log of the command lines handed
    to the shell.  A raised exception keeps the machine as it was when the
    exception was raised: assignments made before it stay.  One coroutine
    runs from its call to its return; what other tasks do to the object
    while it awaits the shell is not part of the model. *)

Definition set_sessions (r : RADNAD) (df : DataFrame.t) : RADNAD :=
  mkRADNAD (name r) (server r) (secret r) (auth_port r) (acct_port r)
    (coa_port r) (options r) (timeout r) (retries r) df (counter r) (level r).

Definition set_counter (r : RADNAD) (c : pycounter) : RADNAD :=
  mkRADNAD (name r) (server r) (secret r) (auth_port r) (acct_port r)
    (coa_port r) (options r) (timeout r) (retries r) (sessions r) c (level r).

(** The pairs rendered as [key='val'] and joined by a comma and a blank. *)
Definition to_avp_string (attributes : MultiDict.t) : string :=
  PyStr.join ", "
    (map (fun kv => (fst kv ++ "='" ++ pyval_str (snd kv) ++ "'")%string)
       (MultiDict.items attributes)).

(** The row of [create_session]: the columns are popped from the request
    attributes in the order of the dictionary display; what is left is
    rendered into [Other].  The second component is the request
    dictionary after the pops. *)
Definition session_row (response : RADIUSResponse) : Session * MultiDict.t :=
  let ts := isoformat_milliseconds (timestamp response) in
  let method := guess_access_method response in
  let d := req_attrs response in
  let '(status, d) := MultiDict.pop_default "Acct-Status-Type" (PStr ACCT_START) d in
  let '(user, d) := MultiDict.pop_default "User-Name" (PStr EmptyString) d in
  let '(calling, d) := MultiDict.pop_default "Calling-Station-Id" (PStr EmptyString) d in
  let '(framed, d) := MultiDict.pop_default "Framed-IP-Address" (PStr EmptyString) d in
  let '(tmo, d) := MultiDict.pop_default "Session-Timeout" (PInt SESSION_TIMEOUT) d in
  let '(sid, d) := MultiDict.pop_default "Acct-Session-Id" (PStr EmptyString) d in
  let '(called, d) := MultiDict.pop_default "Called-Station-Id" (PStr EmptyString) d in
  let '(ptype, d) := MultiDict.pop_default "NAS-Port-Type" (PStr EmptyString) d in
  let '(pid, d) := MultiDict.pop_default "NAS-Port-Id" (PStr EmptyString) d in
  let '(port, d) := MultiDict.pop_default "NAS-Port" (PStr EmptyString) d in
  let '(nasid, d) := MultiDict.pop_default "NAS-Identifier" (PStr EmptyString) d in
  let '(cls, d) := MultiDict.pop_default "Class" (PStr EmptyString) d in
  (mkSession ts method status user calling framed tmo sid called ptype pid
     port nasid cls (to_avp_string d), d).

(** The dictionary built for a row by [stop_expired_sessions] (and by the
    [stop] command and [random_disconnect]). *)
Definition stop_attrs (s : Session) : MultiDict.t :=
  [ ("Acct-Status-Type", PStr "Stop");
    ("Acct-Session-Id", Acct_Session_Id s);
    ("User-Name", User_Name s);
    ("Calling-Station-Id", Calling_Station_Id s) ].

(** One cell of [(now - index).seconds > df['Session-Timeout']]. *)
Definition session_expired (now : Z) (s : Session) : result bool :=
  match Session_Timeout s with
  | PInt tmo => ret (td_seconds (now - Timestamp s) >? tmo)%Z
  | PStr _ => raise (TypeError "'<' not supported between 'str' and 'int'")
  end.

(** The whole comparison: the rows in table order, each with its flag. *)
Fixpoint session_expired_condition (now : Z) (df : DataFrame.t)
  : result (list (Session * bool)) :=
  match df with
  | [] => ret []
  | s :: rest =>
      b <- session_expired now s ;;
      bs <- session_expired_condition now rest ;;
      ret ((s, b) :: bs)
  end.

Definition flagged (rows : list (Session * bool)) : DataFrame.t :=
  map fst (filter snd rows).

Declare Scope engine_scope.
Delimit Scope engine_scope with engine.

Section Engine.

Variable World : Type.

(** [asyncio.create_subprocess_shell(cmd)] and [communicate()]: the
    command line gives the decoded standard output and standard error. *)
Variable shell : string -> World -> (string * string) * World.

(** [time.time()] and [datetime.datetime.now()], in microseconds. *)
Variable clock : World -> Z * World.

(** One raw number of the random generator. *)
Variable random : World -> Z * World.

Record machine : Type := mkMachine {
  self : RADNAD;
  world : World;
  calls : list string
}.

Definition M (A : Type) : Type := machine -> result A * machine.

Definition retM {A : Type} (a : A) : M A :=
  fun m => (inr a, m).

Definition raiseM {A : Type} (e : exn) : M A :=
  fun m => (inl e, m).

Definition bindM {A B : Type} (c : M A) (k : A -> M B) : M B :=
  fun m =>
    match c m with
    | (inl e, m') => (inl e, m')
    | (inr a, m') => k a m'
    end.

(** A pure fallible step inside a coroutine. *)
Definition liftM {A : Type} (r : result A) : M A :=
  fun m => (r, m).

Notation "x <- c ;; k" := (bindM c (fun x => k))
  (at level 61, c at next level, right associativity) : engine_scope.
Notation "' p <- c ;; k" := (bindM c (fun x => let p := x in k))
  (at level 61, p pattern, c at next level, right associativity) : engine_scope.
Notation "c ;;; k" := (bindM c (fun _ => k))
  (at level 61, right associativity) : engine_scope.
Local Open Scope engine_scope.

Definition get_self : M RADNAD := fun m => (inr (self m), m).

Definition put_self (r : RADNAD) : M unit :=
  fun m => (inr tt, mkMachine r (world m) (calls m)).

Definition run_shell (cmd : string) : M (string * string) :=
  fun m =>
    let '(out, w) := shell cmd (world m) in
    (inr out, mkMachine (self m) w (calls m ++ [cmd])).

Definition now : M Z :=
  fun m =>
    let '(t, w) := clock (world m) in
    (inr t, mkMachine (self m) w (calls m)).

Definition draw : M Z :=
  fun m =>
    let '(n, w) := random (world m) in
    (inr n, mkMachine (self m) w (calls m)).

(** [self.counter += 1; return self.counter] *)
Definition generate_session_id : M pyval :=
  r <- get_self ;;
  match counter r with
  | PyObj (PInt n) =>
      put_self (set_counter r (PInt (n + 1))) ;;;
      retM (PInt (n + 1))
  | PyObj (PStr _) => raiseM (TypeError "can only concatenate str to str")
  | NpInt64 n =>
      put_self (set_counter r (NpInt64 (wrap64 (n + 1)))) ;;;
      retM (PInt (wrap64 (n + 1)))
  end.

Definition generate_ip_address : M string :=
  a <- draw ;; a <- liftM (randint 1 254 a) ;;
  b <- draw ;; b <- liftM (randint 1 254 b) ;;
  c <- draw ;; c <- liftM (randint 1 254 c) ;;
  d <- draw ;; d <- liftM (randint 2 254 d) ;;
  retM (PyStr.of_Z a ++ "." ++ PyStr.of_Z b ++ "." ++ PyStr.of_Z c ++ "."
          ++ PyStr.of_Z d)%string.

(** The command line built around the rendered attributes. *)
Definition radclient_cmd (attrs_string server : string) (port : Z)
  (command secret : string) : string :=
  ("echo " ++ PyStr.dq ++ attrs_string ++ PyStr.dq ++ " | radclient -x "
     ++ server ++ ":" ++ PyStr.of_Z port ++ " " ++ command ++ " " ++ secret)%string.

(** [RADIUSResponse(std_out)] at the current time. *)
Definition new_RADIUSResponse (std_out : string) : M RADIUSResponse :=
  t <- now ;;
  liftM (RADIUSResponse_init (Some std_out) t).

Definition _radclient_cli_cmd (attributes : MultiDict.t) : M RADIUSResponse :=
  r <- get_self ;;
  let cmd := radclient_cmd (to_avp_string attributes) (server r) (auth_port r)
               "auth" (secret r) in
  '(std_out, std_err) <- run_shell cmd ;;
  response <- new_RADIUSResponse std_out ;;
  if PyStr.is_empty std_err then retM response
  else
    (* the error report reads two request attributes by subscript *)
    _ <- liftM (MultiDict.getitem "Calling-Station-Id" (req_attrs response)) ;;
    _ <- liftM (MultiDict.getitem "User-Name" (req_attrs response)) ;;
    retM response.

Definition auth (attributes : option MultiDict.t) : M RADIUSResponse :=
  match attributes with
  | None => raiseM (ValueError "attributes is None")
  | Some attributes =>
      if (MultiDict.len attributes <=? 0)%Z
      then raiseM (ValueError "auth(attributes) is empty")
      else
        r <- get_self ;;
        let attributes :=
          match MultiDict.get "NAS-Identifier" attributes with
          | None => MultiDict.setitem "NAS-Identifier" (PStr (name r)) attributes
          | Some _ => attributes
          end in
        sid <- generate_session_id ;;
        let attributes := MultiDict.setitem "Acct-Session-Id" sid attributes in
        _radclient_cli_cmd attributes
  end.

Definition acct (auth : option RADIUSResponse) (state : string)
  : M RADIUSResponse :=
  match auth with
  | None => raiseM (ValueError "acct(auth) is None")
  | Some auth =>
      if (MultiDict.len (req_attrs auth) <=? 0)%Z
      then raiseM (ValueError "auth.req_attrs is empty")
      else if String.eqb (rsp_type auth) ACCESS_REJECT
      then retM auth
      else if negb (String.eqb state ACCT_START) && negb (String.eqb state ACCT_STOP)
      then raiseM (ValueError "acct(state) is invalid")
      else if (MultiDict.len (rsp_attrs auth) <=? 0)%Z
      then raiseM (ValueError "auth.rsp_attrs is empty")
      else
        (* merge all auth request and response attributes *)
        let attrs := MultiDict.update (req_attrs auth) (rsp_attrs auth) in
        let attrs := snd (MultiDict.pop "User-Password" attrs) in
        let attrs := snd (MultiDict.pop "CHAP-Password" attrs) in
        let attrs := snd (MultiDict.pop "Reply-Message" attrs) in
        let attrs := snd (MultiDict.pop "State" attrs) in
        let attrs := snd (MultiDict.pop "Cleartext-Password" attrs) in
        let attrs := MultiDict.setitem "Acct-Status-Type" (PStr state) attrs in
        attrs <-
          match MultiDict.get "Acct-Session-Id" attrs with
          | None =>
              sid <- generate_session_id ;;
              retM (MultiDict.setitem "Acct-Session-Id" sid attrs)
          | Some _ => retM attrs
          end ;;
        r <- get_self ;;
        let attrs := MultiDict.setitem "NAS-Identifier" (PStr (name r)) attrs in
        ip <- generate_ip_address ;;
        let attrs := MultiDict.setitem "Framed-IP-Address" (PStr ip) attrs in
        let cmd := radclient_cmd (to_avp_string attrs) (server r) (acct_port r)
                     "acct" (secret r) in
        '(std_out, _) <- run_shell cmd ;;
        new_RADIUSResponse std_out
  end.

Definition acct_stop_by_attrs (attrs : option MultiDict.t) : M RADIUSResponse :=
  match attrs with
  | None => raiseM (ValueError "attrs is None")
  | Some attrs =>
      match MultiDict.get "Acct-Session-Id" attrs with
      | None => raiseM (ValueError "Acct-Session-Id is None")
      | Some _ =>
      match MultiDict.get "User-Name" attrs with
      | None => raiseM (ValueError "User-Name is None")
      | Some _ =>
      match MultiDict.get "Calling-Station-Id" attrs with
      | None => raiseM (ValueError "Calling-Station-Id is None")
      | Some _ =>
          let attrs :=
            match MultiDict.get "Acct-Status-Type" attrs with
            | None => MultiDict.setitem "Acct-Status-Type" (PStr ACCT_STOP) attrs
            | Some _ => attrs
            end in
          attrs <-
            match MultiDict.get "Timestamp" attrs with
            | None => retM attrs
            | Some _ =>
                (* neither a string nor an integer can be subtracted from
                   a datetime *)
                _ <- now ;;
                raiseM (TypeError "unsupported operand type(s) for -")
            end ;;
          r <- get_self ;;
          let cmd := radclient_cmd (to_avp_string attrs) (server r) (acct_port r)
                       "acct" (secret r) in
          '(std_out, _) <- run_shell cmd ;;
          response <- new_RADIUSResponse std_out ;;
          if is_accepted response then
            r <- get_self ;;
            let labels :=
              DataFrame.index
                (DataFrame.loc
                   (DataFrame.id_is (MultiDict.get "Acct-Session-Id" attrs))
                   (sessions r)) in
            put_self (set_sessions r (DataFrame.drop labels (sessions r))) ;;;
            retM response
          else retM response
      end end end
  end.

Definition create_session (response : RADIUSResponse) : M RADIUSResponse :=
  if negb (String.eqb (rsp_type response) ACCOUNTING_RESPONSE)
  then raiseM (ValueError "RADIUS Response Type is not Accounting-Response")
  else
    let '(row, rest) := session_row response in
    r <- get_self ;;
    put_self (set_sessions r (DataFrame.concat (sessions r) row)) ;;;
    retM (set_req_attrs response rest).

Definition session (attrs : option MultiDict.t) : M RADIUSResponse :=
  response <- auth attrs ;;
  if String.eqb (rsp_type response) ACCESS_ACCEPT then
    response <- acct (Some response) ACCT_START ;;
    if String.eqb (rsp_type response) ACCOUNTING_RESPONSE
    then create_session response
    else retM response
  else if String.eqb (rsp_type response) ACCESS_REJECT then retM response
  else if String.eqb (rsp_type response) ACCESS_CHALLENGE then retM response
  else
    (* the report of an unknown type looks the type up in RESPONSE_ICONS *)
    if str_in (rsp_type response) RESPONSE_ICONS then retM response
    else raiseM (KeyError (rsp_type response)).

(** The loop [for idx,session in df_expired.iterrows()]. *)
Fixpoint stop_each (rows : list Session) (responses : list RADIUSResponse)
  : M (list RADIUSResponse) :=
  match rows with
  | [] => retM responses
  | s :: rest =>
      response <- acct_stop_by_attrs (Some (stop_attrs s)) ;;
      stop_each rest (responses ++ [response])
  end.

(** The first phase of [stop_expired_sessions]: drop any sessions with a
    duration of more than four days. *)
Definition drop_four_day_old : M unit :=
  t <- now ;;
  let four_day_expiration := (t - FOUR_DAYS)%Z in
  r <- get_self ;;
  let df_expired :=
    DataFrame.loc (fun s => (Timestamp s <? four_day_expiration)%Z) (sessions r) in
  if (DataFrame.len df_expired >? 0)%Z then
    let ids := map Acct_Session_Id df_expired in
    let labels := DataFrame.index (DataFrame.loc (DataFrame.id_isin ids) (sessions r)) in
    put_self (set_sessions r (DataFrame.drop labels (sessions r)))
  else retM tt.

(** The second phase: stop any session with a duration beyond the
    Session-Timeout. *)
Definition stop_timed_out : M (list RADIUSResponse) :=
  r <- get_self ;;
  if (DataFrame.len (sessions r) <=? 0)%Z then retM []
  else
    t <- now ;;
    cond <- liftM (session_expired_condition t (sessions r)) ;;
    let df_expired := flagged cond in
    if (DataFrame.len df_expired >? 0)%Z
    then stop_each df_expired []
    else retM [].

Definition stop_expired_sessions : M (list RADIUSResponse) :=
  drop_four_day_old ;;; stop_timed_out.

End Engine.

Arguments mkMachine {World} _ _ _.
Arguments self {World} _.
Arguments world {World} _.
Arguments calls {World} _.
Arguments retM {World A} _ _.
Arguments raiseM {World A} _ _.
Arguments bindM {World A B} _ _ _.
Arguments liftM {World A} _ _.
Arguments get_self {World} _.
Arguments put_self {World} _ _.
Arguments run_shell {World} shell cmd _.
Arguments now {World} clock _.
Arguments draw {World} random _.
Arguments generate_session_id {World} _.
Arguments generate_ip_address {World} random _.
Arguments new_RADIUSResponse {World} clock std_out _.
Arguments _radclient_cli_cmd {World} shell clock attributes _.
Arguments auth {World} shell clock attributes _.
Arguments acct {World} shell clock random auth state _.
Arguments acct_stop_by_attrs {World} shell clock attrs _.
Arguments create_session {World} response _.
Arguments session {World} shell clock random attrs _.
Arguments stop_each {World} shell clock rows responses _.
Arguments drop_four_day_old {World} clock _.
Arguments stop_timed_out {World} shell clock _.
Arguments stop_expired_sessions {World} shell clock _.

(** ** A scripted world

    For running the engine on concrete inputs: the shell answers with the
    next prepared pair of outputs whatever the command line, the clock
    gives the next prepared reading, the generator the next prepared
    number.  An exhausted script answers with empty output and zero. *)

Record Script : Type := mkScript {
  outputs : list (string * string);
  readings : list Z;
  numbers : list Z
}.

Definition script_shell (cmd : string) (w : Script) : (string * string) * Script :=
  match outputs w with
  | [] => ((EmptyString, EmptyString), w)
  | o :: rest => (o, mkScript rest (readings w) (numbers w))
  end.

Definition script_clock (w : Script) : Z * Script :=
  match readings w with
  | [] => (0%Z, w)
  | t :: rest => (t, mkScript (outputs w) rest (numbers w))
  end.

Definition script_random (w : Script) : Z * Script :=
  match numbers w with
  | [] => (0%Z, w)
  | n :: rest => (n, mkScript (outputs w) (readings w) rest)
  end.

Definition script_machine (r : RADNAD) (w : Script) : machine Script :=
  mkMachine r w [].

(** A transcript from its lines, each ended by a line feed. *)
Definition transcript (lines : list string) : string :=
  String.concat EmptyString (map (fun l => (l ++ PyStr.nl)%string) lines).

(** An indented [key = "value"] line and an indented [key = value] line. *)
Definition avp_quoted (key val : string) : string :=
  (PyStr.tab ++ key ++ " = " ++ PyStr.dq ++ val ++ PyStr.dq)%string.

Definition avp_plain (key val : string) : string :=
  (PyStr.tab ++ key ++ " = " ++ val)%string.

(** ** Predicates used to state properties of transcripts *)

(** A transcript has a Received line when one of its lines begins with
    the word, as the header of the Received section does. *)
Definition has_received_line (content : string) : bool :=
  existsb (prefix "Received") (PyStr.splitlines content).

(** The four kinds a server answers with. *)
Definition RESPONSE_KINDS : list string :=
  [ ACCESS_ACCEPT; ACCESS_REJECT; ACCESS_CHALLENGE; ACCOUNTING_RESPONSE ].

(** The command line of the Stop exchange issued for a row. *)
Definition stop_cmd (r : RADNAD) (s : Session) : string :=
  radclient_cmd (to_avp_string (stop_attrs s)) (server r) (acct_port r)
    "acct" (secret r).

(** ** Concrete transcripts and tables *)

Definition SENT_ACCESS : string :=
  "Sent Access-Request Id 192 from 0.0.0.0:fd98 to 1.2.3.4:1812 length 59".

Definition SENT_ACCOUNTING : string :=
  "Sent Accounting-Request Id 5 from 0.0.0.0:d618 to 1.2.3.4:1813 length 64".

Definition RECEIVED_ACCEPT : string :=
  "Received Access-Accept Id 192 from 1.2.3.4:714 to 10.16.51.114:64920 length 106".

Definition RECEIVED_REJECT : string :=
  "Received Access-Reject Id 107 from 1.2.3.4:714 to 10.16.92.65:54808 length 20".

Definition RECEIVED_ACCOUNTING : string :=
  "Received Accounting-Response Id 5 from 1.2.3.4:1813 to 10.16.51.114:64920 length 20".

Definition NO_REPLY : string :=
  "(0) No reply from server for ID 124 socket 4".

(** The Access-Accept example of the docstring of [RADIUSResponse]. *)
Definition accept_transcript : string :=
  transcript
    [ SENT_ACCESS;
      avp_quoted "User-Name" "ahoward";
      avp_quoted "User-Password" "C1sco12345";
      avp_plain "Service-Type" "Framed";
      avp_plain "NAS-Port-Type" "Ethernet";
      avp_quoted "Cleartext-Password" "C1sco12345";
      RECEIVED_ACCEPT;
      avp_quoted "User-Name" "ahoward";
      avp_plain "Class" "0x434143533a633631" ].

(** The timeout example of the docstring. *)
Definition timeout_transcript : string := transcript [ NO_REPLY ].

(** An exchange that got no reply, sent for a user whose name begins
    with the letters of Received. *)
Definition no_reply_for_ReceivedGuest : string :=
  transcript
    [ SENT_ACCESS;
      avp_quoted "User-Name" "ReceivedGuest";
      avp_quoted "User-Password" "C1sco12345";
      NO_REPLY ].

(** A request carrying the same attribute twice, answered by a reply
    carrying another attribute twice. *)
Definition repeated_avp_transcript : string :=
  transcript
    [ SENT_ACCESS;
      avp_quoted "User-Name" "ahoward";
      avp_quoted "Cisco-AVPair" "mdm-tlv=device-platform=win";
      avp_quoted "Cisco-AVPair" "mdm-tlv=device-mac=00-50-5a-aa-8a-4a";
      RECEIVED_ACCEPT;
      avp_quoted "Cisco-AVPair" "cts:security-group-tag=0011-25";
      avp_quoted "Cisco-AVPair" "profile-name=Windows10-Workstation" ].

(** A transcript whose Received line names a request type. *)
Definition received_request_transcript : string :=
  transcript
    [ SENT_ACCOUNTING;
      avp_quoted "User-Name" "ahoward";
      "Received Accounting-Request Id 5 from 1.2.3.4:1813 to 10.16.51.114:64920 length 20" ].

(** A rejected authentication whose Sent section lists no attribute. *)
Definition bare_reject_transcript : string :=
  transcript [ SENT_ACCESS; RECEIVED_REJECT ].

(** The Access-Reject example of the docstring. *)
Definition reject_transcript : string :=
  transcript
    [ "Sent Access-Request Id 107 from 0.0.0.0:d618 to 1.2.3.4:1812 length 58";
      avp_quoted "User-Name" "bjones";
      avp_quoted "User-Password" "C1sco12345";
      avp_plain "Service-Type" "Framed";
      avp_plain "NAS-Port-Type" "Ethernet";
      avp_quoted "Cleartext-Password" "C1sco12345";
      RECEIVED_REJECT ].

(** The response parsed from a transcript at time [now]; the null
    response stands for a failed parse. *)
Definition null_response : RADIUSResponse :=
  mkRADIUSResponse EmptyString 0 EmptyString EmptyString EmptyString []
    EmptyString EmptyString [] EmptyString EmptyString EmptyString EmptyString.

Definition parsed (content : string) (now : Z) : RADIUSResponse :=
  match RADIUSResponse_init (Some content) now with
  | inr r => r
  | inl _ => null_response
  end.

(** An engine built with the defaults for a server and a secret. *)
Definition nad : RADNAD :=
  mkRADNAD NAS_IDENTIFIER_DEFAULT "1.2.3.4" "C1sco12345"
    AUTH_PORT_DEFAULT ACCT_PORT_DEFAULT COA_PORT_DEFAULT OPTIONS_DEFAULT
    TIMEOUT_DEFAULT RETRIES_DEFAULT DataFrame.empty (PInt 0) 0.

Definition nad_with (df : DataFrame.t) (counter : pycounter) : RADNAD :=
  set_counter (set_sessions nad df) counter.

(** The table left by the first phase of [stop_expired_sessions] run
    with the given cut-off date. *)
Definition after_four_day_drop (four_day_expiration : Z) (df : DataFrame.t)
  : DataFrame.t :=
  let df_expired :=
    DataFrame.loc (fun s => (Timestamp s <? four_day_expiration)%Z) df in
  if (DataFrame.len df_expired >? 0)%Z then
    let ids := map Acct_Session_Id df_expired in
    let labels := DataFrame.index (DataFrame.loc (DataFrame.id_isin ids) df) in
    DataFrame.drop labels df
  else df.

(** A row of the table as it is read back from the sessions file: a
    wired 802.1X session of user ahoward. *)
Definition session_at (ts : Z) (sid : pyval) (session_timeout : Z) : Session :=
  mkSession ts "802.1X" (PStr "Start") (PStr "ahoward")
    (PStr "AA-BB-CC-DD-EE-FF") (PStr "10.1.2.3") (PInt session_timeout) sid
    (PStr EmptyString) (PStr "Ethernet") (PStr "GigabitEthernet1/1") (PInt 7)
    (PStr "RADNAD") (PStr EmptyString) EmptyString.

Definition SECOND : Z := MICROSECONDS.

(** The attributes of a wired 802.1X authentication of user ahoward. *)
Definition dot1x_attrs : MultiDict.t :=
  [ ("Service-Type", PStr "Framed");
    ("NAS-Port-Type", PStr "Ethernet");
    ("NAS-Port-Id", PStr "GigabitEthernet1/1");
    ("NAS-Port", PInt 7);
    ("User-Name", PStr "ahoward");
    ("User-Password", PStr "C1sco12345");
    ("Calling-Station-Id", PStr "AA-BB-CC-DD-EE-FF") ].

(** The transcripts of the three exchanges of the session with
    [Acct-Session-Id] 2: authentication, accounting Start, accounting Stop. *)
Definition auth_2_transcript : string :=
  transcript
    [ SENT_ACCESS;
      avp_plain "Service-Type" "Framed";
      avp_plain "NAS-Port-Type" "Ethernet";
      avp_quoted "NAS-Port-Id" "GigabitEthernet1/1";
      avp_plain "NAS-Port" "7";
      avp_quoted "User-Name" "ahoward";
      avp_quoted "User-Password" "C1sco12345";
      avp_quoted "Calling-Station-Id" "AA-BB-CC-DD-EE-FF";
      avp_quoted "NAS-Identifier" "RADNAD";
      avp_quoted "Acct-Session-Id" "2";
      avp_quoted "Cleartext-Password" "C1sco12345";
      RECEIVED_ACCEPT;
      avp_quoted "User-Name" "ahoward";
      avp_plain "Class" "0x434143533a633631" ].

Definition start_2_transcript : string :=
  transcript
    [ SENT_ACCOUNTING;
      avp_plain "Service-Type" "Framed";
      avp_plain "NAS-Port-Type" "Ethernet";
      avp_quoted "NAS-Port-Id" "GigabitEthernet1/1";
      avp_plain "NAS-Port" "7";
      avp_quoted "User-Name" "ahoward";
      avp_quoted "Calling-Station-Id" "AA-BB-CC-DD-EE-FF";
      avp_quoted "NAS-Identifier" "RADNAD";
      avp_quoted "Acct-Session-Id" "2";
      avp_plain "Class" "0x434143533a633631";
      avp_plain "Acct-Status-Type" "Start";
      avp_plain "Framed-IP-Address" "10.20.30.40";
      RECEIVED_ACCOUNTING ].

Definition stop_transcript (sid : string) : string :=
  transcript
    [ SENT_ACCOUNTING;
      avp_plain "Acct-Status-Type" "Stop";
      avp_quoted "Acct-Session-Id" sid;
      avp_quoted "User-Name" "ahoward";
      avp_quoted "Calling-Station-Id" "AA-BB-CC-DD-EE-FF";
      RECEIVED_ACCOUNTING ].

(** A live session started at the millisecond [T0], and a world in which
    the accounting Start of the next session is answered within the same
    millisecond. *)
Definition T0 : Z := 1700000000123000.

Definition older_session : Session :=
  mkSession T0 "Unknown" (PStr "Start") (PStr "bjones")
    (PStr "11-22-33-44-55-66") (PStr "10.20.30.39") (PInt SESSION_TIMEOUT)
    (PStr "1") (PStr EmptyString) (PStr "Ethernet") (PStr "GigabitEthernet1/2")
    (PStr "9") (PStr "RADNAD") (PStr "0x434143533a633630")
    "Service-Type='Framed'".

Definition same_millisecond_world : Script :=
  mkScript
    [ (auth_2_transcript, EmptyString);
      (start_2_transcript, EmptyString);
      (stop_transcript "2", EmptyString) ]
    [ (T0 + 100)%Z; (T0 + 900)%Z; (T0 + 5 * SECOND)%Z ]
    [ 9; 19; 29; 38 ]%Z.

(** The row the Start of session 2 commits in that world. *)
Definition session_2 : Session :=
  mkSession T0 "Unknown" (PStr "Start") (PStr "ahoward")
    (PStr "AA-BB-CC-DD-EE-FF") (PStr "10.20.30.40") (PInt SESSION_TIMEOUT)
    (PStr "2") (PStr EmptyString) (PStr "Ethernet") (PStr "GigabitEthernet1/1")
    (PStr "7") (PStr "RADNAD") (PStr "0x434143533a633631")
    "Service-Type='Framed'".

(** The time of a sweep, and worlds for it: a clock that gives the time of
    the sweep at both readings, with and without an accepted Stop
    exchange prepared. *)
Definition SWEEP : Z := (T0 + 10 * DAY)%Z.

Definition sweep_world (stops : list string) : Script :=
  mkScript (map (fun sid => (stop_transcript sid, EmptyString)) stops)
    [ SWEEP; SWEEP; (SWEEP + SECOND)%Z; (SWEEP + 2 * SECOND)%Z ] [].

(** A session with [Session-Timeout] 60 that began [age] seconds before
    the sweep. *)
Definition aged_session (age : Z) : Session :=
  session_at (SWEEP - age * SECOND) (PInt 1) 60.

(** Every value of the dictionary is a string, as in the dictionaries the
    parser fills. *)
Definition str_valued (d : MultiDict.t) : Prop :=
  forall k v, In (k, v) d -> exists s, v = PStr s.

Definition is_timeout (e : exn) : bool :=
  match e with
  | TimeoutError _ => true
  | _ => false
  end.

(** The attribute lines of the Sent section: the lines after the header
    up to the first line that is empty or has no equals sign past its
    first character. *)
Fixpoint sent_section (lines : list string) : list string :=
  match lines with
  | [] => []
  | line :: rest =>
      if PyStr.is_empty line then []
      else if (PyStr.find "=" line <=? 0)%Z then []
      else line :: sent_section rest
  end.

(** The value of the last of the attribute lines that names [k]; [acc]
    is the value found so far. *)
Fixpoint last_value (k : string) (lines : list string) (acc : option string)
  : option string :=
  match lines with
  | [] => acc
  | line :: rest =>
      match parse_avp line with
      | inr (key, val) =>
          last_value k rest (if String.eqb key k then Some val else acc)
      | inl _ => last_value k rest acc
      end
  end.

(** What the loop of the Sent section stores under a name: the value
    [parse_avp] reads on the last attribute line of the name. *)
Definition stored_request_value (k content : string) : option string :=
  last_value k (sent_section (tl (PyStr.splitlines content))) None.

(** ** More of [class RADIUSResponse] *)

(** The loop of [avps_to_multidict]: a line without an equals sign past
    its first character is skipped. *)
Fixpoint avps_loop (lines : list string) (mdict : MultiDict.t)
  : result MultiDict.t :=
  match lines with
  | [] => ret mdict
  | line :: rest =>
      if (PyStr.find "=" line <=? 0)%Z then avps_loop rest mdict
      else
        '(key, val) <- parse_avp line ;;
        avps_loop rest (MultiDict.setitem key (PStr val) mdict)
  end.

(** [RADIUSResponse.avps_to_multidict(text)] for a string [text]. *)
Definition avps_to_multidict (text : string) : result MultiDict.t :=
  avps_loop (PyStr.splitlines text) MultiDict.empty.

(** ** More of [class RADNAD]: class methods *)

(** [str(s)] for an optional value: [None] reads None. *)
Definition py_str (s : option pyval) : string :=
  match s with
  | Some v => pyval_str v
  | None => "None"
  end.

(** [n * c] for a string [c]. *)
Fixpoint str_times (n : nat) (c : string) : string :=
  match n with
  | O => EmptyString
  | S n' => (c ++ str_times n' c)%string
  end.

(** [RADNAD.redact(s, c)]: [len(str(s)) * c]. *)
Definition redact (s : option pyval) (c : string) : string :=
  str_times (String.length (py_str s)) c.

(** The hexadecimal digits of a natural number, most significant first;
    [fuel] bounds their number. *)
Definition hex_digit (d : Z) : ascii :=
  nth (Z.to_nat d) (list_ascii_of_string "0123456789ABCDEF") "0"%char.

Fixpoint hex_digits (fuel : nat) (n : Z) : string :=
  match fuel with
  | O => EmptyString
  | S fuel' =>
      if (n <? 16)%Z then PyStr.one (hex_digit n)
      else (hex_digits fuel' (n / 16) ++ PyStr.one (hex_digit (n mod 16)))%string
  end.

Definition hex (n : Z) : string :=
  hex_digits (S (Z.to_nat (Z.log2 n))) n.

(** [s.zfill(width)] for a string of digits. *)
Definition zfill (width : nat) (s : string) : string :=
  (PyStr.repeat "0" (width - String.length s) ++ s)%string.

(** ['{:06X}'.format(n)]: upper-case hexadecimal, padded with zeros to
    six characters, the sign counted in. *)
Definition format_06X (n : Z) : string :=
  if (n <? 0)%Z then ("-" ++ zfill 5 (hex (- n)))%string
  else zfill 6 (hex n).

(** [[mac[n:n+digits] for n in range(0, 12, digits)]] with two digits. *)
Definition mac_groups (mac : string) : list string :=
  map (fun n => substring n 2 mac) [0; 2; 4; 6; 8; 10]%nat.

(** 16777216 == 2^24 *)
Definition OUI_RANGE : Z := 16777216.

(** ** More of [class RADNAD]: the session accessors *)

(** [get_sessions_by_id(id)]: [None] for no id, else the rows whose
    [Acct-Session-Id] equals it. *)
Definition get_sessions_by_id (id : option pyval) (r : RADNAD)
  : option DataFrame.t :=
  match id with
  | None => None
  | Some v => Some (DataFrame.loc (DataFrame.id_is (Some v)) (sessions r))
  end.

(** [get_sessions()]: a copy of the table. *)
Definition get_sessions (r : RADNAD) : DataFrame.t := sessions r.

(** [get_session_count()] *)
Definition get_session_count (r : RADNAD) : Z := DataFrame.len (sessions r).

(** [get_sessions_by_status(status)] *)
Definition get_sessions_by_status (status : option string) (r : RADNAD)
  : result DataFrame.t :=
  match status with
  | None => raise (ValueError "Invalid status")
  | Some st =>
      if negb (str_in st [ACCT_START; ACCT_STOP])
      then raise (ValueError "Invalid status")
      else ret (DataFrame.loc (fun s => pyval_eqb (Status s) (PStr st)) (sessions r))
  end.

(** ** More of [class RADNAD]: generators and scenarios *)

(** The value of [calling if nas_port_id is None else nas_port_id].  A
    [None] that ends up in the dictionary is only ever rendered on the
    command line, where it reads None; it is kept as that text. *)
Definition port_id_value (nas_port_id : option pyval) (calling : option string)
  : pyval :=
  match nas_port_id, calling with
  | Some v, _ => v
  | None, Some c => PStr c
  | None, None => PStr "None"
  end.

(** [MultiDict({...})] of the four entries every scenario starts from;
    the VPN scenario has no [Service-Type]. *)
Definition base_attrs (service_type : option string) (port_type : string)
  (pid : pyval) (port : Z) : MultiDict.t :=
  match service_type with
  | Some st => [("Service-Type", PStr st)]
  | None => []
  end
  ++ [ ("NAS-Port-Type", PStr port_type);
       ("NAS-Port-Id", pid);
       ("NAS-Port", PInt port) ].

(** [if called: attrs['Called-Station-Id'] = called] *)
Definition with_called (called : option string) (attrs : MultiDict.t)
  : MultiDict.t :=
  match called with
  | None => attrs
  | Some c =>
      if PyStr.is_empty c then attrs
      else MultiDict.setitem "Called-Station-Id" (PStr c) attrs
  end.

(** [if attributes and len(attributes) > 0: attrs.update(attributes)] *)
Definition with_overrides (attributes : option MultiDict.t) (attrs : MultiDict.t)
  : MultiDict.t :=
  match attributes with
  | None => attrs
  | Some a => if (MultiDict.len a >? 0)%Z then MultiDict.update attrs a else attrs
  end.

(** [f"{called}:{ssid}" if ssid else called] *)
Definition called_with_ssid (called : string) (ssid : option string) : string :=
  match ssid with
  | None => called
  | Some s => if PyStr.is_empty s then called else (called ++ ":" ++ s)%string
  end.

(** The attributes of the 802.1X scenarios once the user name and the
    password have passed their checks. *)
Definition dot1x_attrs_of (port_type : string) (username password : string)
  (calling called : option string) (nas_port_id : option pyval)
  (attributes : option MultiDict.t) (port : Z) : MultiDict.t :=
  let attrs := base_attrs (Some "Framed") port_type
                 (port_id_value nas_port_id calling) port in
  let attrs := MultiDict.setitem "User-Name" (PStr username) attrs in
  let attrs := MultiDict.setitem "User-Password" (PStr password) attrs in
  let attrs :=
    match calling with
    | None => attrs
    | Some c =>
        if PyStr.is_empty c then attrs
        else MultiDict.setitem "Calling-Station-Id" (PStr c) attrs
    end in
  with_overrides attributes (with_called called attrs).

(** The attributes of the wired MAB scenario for a calling address that
    has passed its check. *)
Definition mab_wired_attrs (calling : string) (called : option string)
  (nas_port_id : option pyval) (attributes : option MultiDict.t) (port : Z)
  : MultiDict.t :=
  let attrs := base_attrs (Some "Call-Check") "Ethernet"
                 (port_id_value nas_port_id (Some calling)) port in
  let attrs := MultiDict.setitem "User-Name" (PStr calling) attrs in
  let attrs := MultiDict.setitem "User-Password" (PStr calling) attrs in
  let attrs := MultiDict.setitem "Calling-Station-Id" (PStr calling) attrs in
  with_overrides attributes (with_called called attrs).

Definition mab_wireless_attrs (calling : string) (called : option string)
  (attributes : option MultiDict.t) (nas_port_id : option pyval)
  (ssid : option string) (port : Z) : MultiDict.t :=
  let attrs := base_attrs (Some "Call-Check") "Wireless-802.11"
                 (port_id_value nas_port_id (Some calling)) port in
  let attrs := MultiDict.setitem "User-Name" (PStr calling) attrs in
  let attrs := MultiDict.setitem "User-Password" (PStr calling) attrs in
  let attrs := MultiDict.setitem "Calling-Station-Id" (PStr calling) attrs in
  let attrs :=
    match called with
    | None => attrs
    | Some c =>
        if PyStr.is_empty c then attrs
        else MultiDict.setitem "Called-Station-Id"
               (PStr (called_with_ssid c ssid)) attrs
    end in
  with_overrides attributes attrs.

Definition vpn_attrs (username password calling : string)
  (called : option string) (nas_port_id : option pyval)
  (attributes : option MultiDict.t) (port : Z) : MultiDict.t :=
  let attrs := base_attrs None "Virtual"
                 (port_id_value nas_port_id (Some calling)) port in
  let attrs := MultiDict.setitem "User-Name" (PStr username) attrs in
  let attrs := MultiDict.setitem "User-Password" (PStr password) attrs in
  let attrs := MultiDict.setitem "Calling-Station-Id" (PStr calling) attrs in
  let attrs := MultiDict.setitem "Tunnel-Client-Endpoint" (PStr calling) attrs in
  with_overrides attributes (with_called called attrs).

(** [x is None or x == ''] *)
Definition is_blank (x : option string) : bool :=
  match x with
  | None => true
  | Some s => PyStr.is_empty s
  end.

Definition text_of (x : option string) : string :=
  match x with
  | Some s => s
  | None => EmptyString
  end.

Section Scenarios.

Variable World : Type.
Variable shell : string -> World -> (string * string) * World.
Variable clock : World -> Z * World.
Variable random : World -> Z * World.

Notation "x <- c ;; k" := (bindM c (fun x => k))
  (at level 61, c at next level, right associativity) : engine_scope.
Notation "c ;;; k" := (bindM c (fun _ => k))
  (at level 61, right associativity) : engine_scope.
Local Open Scope engine_scope.

(** ['{:06X}'.format(random.randint(1, 16777216))] *)
Definition random_hex6 : M World string :=
  d <- draw random ;;
  n <- liftM (randint 1 OUI_RANGE d) ;;
  retM (format_06X n).

(** [RADNAD.generate_mac(oui, sep)] *)
Definition generate_mac (oui : option pyval) (sep : string) : M World string :=
  match oui with
  | Some (PInt _) =>
      raiseM (ValueError "RADNAD.generate_mac(oui): oui is not a string")
  | Some (PStr o) =>
      suffix <- random_hex6 ;;
      retM (PyStr.join sep (mac_groups (o ++ suffix)))
  | None =>
      o <- random_hex6 ;;
      suffix <- random_hex6 ;;
      retM (PyStr.join sep (mac_groups (o ++ suffix)))
  end.

(** [RADNAD.randomized_mac(oui)]: the two operands of the concatenation
    are evaluated before it is attempted. *)
Definition randomized_mac (oui : option pyval) : M World string :=
  match oui with
  | None =>
      o <- random_hex6 ;;
      suffix <- random_hex6 ;;
      retM (o ++ suffix)%string
  | Some (PStr o) =>
      suffix <- random_hex6 ;;
      retM (o ++ suffix)%string
  | Some (PInt _) =>
      _ <- random_hex6 ;;
      raiseM (TypeError "unsupported operand type(s) for +: 'int' and 'str'")
  end.

(** [self.generate_port(self.NAS_PORT_TYPES[i])] *)
Definition scenario_port (i : nat) : M World Z :=
  d <- draw random ;;
  liftM (generate_port (nth i NAS_PORT_TYPES EmptyString) d).

(** The two 802.1X scenarios differ in the port type only; [i] is its
    place in [NAS_PORT_TYPES].  The debug line of the scenario renders
    [len(password)*'*'] before anything else is done. *)
Definition dot1x_pap (i : nat) (username password calling called : option string)
  (nas_port_id : option pyval) (attributes : option MultiDict.t)
  : M World RADIUSResponse :=
  match password with
  | None => raiseM (TypeError "object of type 'NoneType' has no len()")
  | Some _ =>
      port <- scenario_port i ;;
      if is_blank username then raiseM (ValueError "username is empty")
      else if is_blank password then raiseM (ValueError "password is empty")
      else
        session shell clock random
          (Some (dot1x_attrs_of (nth i NAS_PORT_TYPES EmptyString)
                   (text_of username) (text_of password)
                   calling called nas_port_id attributes port))
  end.

Definition dot1x_wired_pap := dot1x_pap 15.

Definition dot1x_wireless_pap := dot1x_pap 19.

Definition mab_wired (calling called : option string)
  (nas_port_id : option pyval) (attributes : option MultiDict.t)
  : M World RADIUSResponse :=
  port <- scenario_port 15 ;;
  if is_blank calling then raiseM (ValueError "calling is empty")
  else
    session shell clock random
      (Some (mab_wired_attrs (text_of calling) called nas_port_id attributes port)).

Definition mab_wireless (calling called : option string)
  (attributes : option MultiDict.t) (nas_port_id : option pyval)
  (ssid : option string) : M World RADIUSResponse :=
  port <- scenario_port 19 ;;
  if is_blank calling then raiseM (ValueError "calling is empty")
  else
    session shell clock random
      (Some (mab_wireless_attrs (text_of calling) called attributes
               nas_port_id ssid port)).

Definition vpn (username password calling called : option string)
  (nas_port_id : option pyval) (attributes : option MultiDict.t)
  : M World RADIUSResponse :=
  port <- scenario_port 5 ;;
  if is_blank username then raiseM (ValueError "username is empty")
  else if is_blank password then raiseM (ValueError "password is empty")
  else if is_blank calling then raiseM (ValueError "calling is empty")
  else
    session shell clock random
      (Some (vpn_attrs (text_of username) (text_of password) (text_of calling)
               called nas_port_id attributes port)).

(** A coroutine that leaves the table alone and hands at most [n]
    command lines to the shell. *)
Definition keeps_table {A : Type} (n : nat) (c : M World A) : Prop :=
  forall m,
    sessions (self (snd (c m))) = sessions (self m) /\
    exists cmds,
      calls (snd (c m)) = calls m ++ cmds /\ (List.length cmds <= n)%nat.

End Scenarios.

Arguments random_hex6 {World} random _.
Arguments generate_mac {World} random oui sep _.
Arguments randomized_mac {World} random oui _.
Arguments scenario_port {World} random i _.
Arguments dot1x_pap {World} shell clock random i username password calling called nas_port_id attributes _.
Arguments dot1x_wired_pap {World} shell clock random username password calling called nas_port_id attributes _.
Arguments dot1x_wireless_pap {World} shell clock random username password calling called nas_port_id attributes _.
Arguments mab_wired {World} shell clock random calling called nas_port_id attributes _.
Arguments mab_wireless {World} shell clock random calling called attributes nas_port_id ssid _.
Arguments vpn {World} shell clock random username password calling called nas_port_id attributes _.
Arguments keeps_table {World A} n c.

(** The place of the first entry of [k] in a dictionary. *)
Fixpoint position (k : string) (d : MultiDict.t) : option nat :=
  match d with
  | [] => None
  | (k', _) :: rest =>
      if String.eqb k' k then Some O else option_map S (position k rest)
  end.

(** Item assignment of every pair of [other], in order. *)
Definition assign_all (d other : MultiDict.t) : MultiDict.t :=
  fold_left (fun acc kv => MultiDict.setitem (fst kv) (snd kv) acc) other d.

(** What the bookkeeping of [update] records: a key that has been used
    stands at the place before the recorded number. *)
Definition used_in_place (d : MultiDict.t) (u : MultiDict.used_keys) : Prop :=
  forall k n, MultiDict.used_get k u = Some n -> position k d = Some (pred n) /\ (0 < n)%nat.

(** The error report of [_radclient_cli_cmd] reads two request attributes
    of the parsed response by subscript when [radclient] has written to
    its standard error. *)
Definition after_report (std_err : string) (r : RADIUSResponse)
  : result RADIUSResponse :=
  if PyStr.is_empty std_err then inr r
  else
    match MultiDict.get "Calling-Station-Id" (req_attrs r) with
    | None => inl (KeyError "Calling-Station-Id")
    | Some _ =>
        match MultiDict.get "User-Name" (req_attrs r) with
        | None => inl (KeyError "User-Name")
        | Some _ => inr r
        end
    end.

(** A coroutine that hands at most two command lines to the shell and
    either leaves the table alone or returns an Accounting-Response and
    has appended one row. *)
Definition adds_at_most_one_session {World : Type}
  (c : M World RADIUSResponse) : Prop :=
  forall m,
    exists cmds,
      calls (snd (c m)) = calls m ++ cmds /\
      (List.length cmds <= 2)%nat /\
      (sessions (self (snd (c m))) = sessions (self m) \/
       exists r row,
         fst (c m) = inr r /\
         rsp_type r = ACCOUNTING_RESPONSE /\
         sessions (self (snd (c m))) = sessions (self m) ++ [row]).

(** The columns of a row that [create_session] pops from the request
    attributes. *)
Definition POPPED_COLUMNS : list string :=
  [ "Acct-Status-Type"; "User-Name"; "Calling-Station-Id"; "Framed-IP-Address";
    "Session-Timeout"; "Acct-Session-Id"; "Called-Station-Id"; "NAS-Port-Type";
    "NAS-Port-Id"; "NAS-Port"; "NAS-Identifier"; "Class" ].

(** A call that raises [ValueError] with nothing sent and the object as
    it was; the generator may have been asked for numbers. *)
Definition refuses_unsent {World A : Type} (c : M World A) (m : machine World)
  : Prop :=
  exists msg w, c m = (inl (ValueError msg), mkMachine (self m) w (calls m)).




(** A world in which [radclient] answers the Access-Accept example and
    writes a warning to its standard error. *)
Definition stderr_world : Script :=
  mkScript [ (accept_transcript, "radclient: warning") ] [ T0 ] [].

(** A row as [create_session] builds it from a transcript that carries a
    [Session-Timeout]: the cell holds the text. *)
Definition string_timeout_session : Session :=
  mkSession (SWEEP - 10 * SECOND) "Unknown" (PStr "Start") (PStr "ahoward")
    (PStr "AA-BB-CC-DD-EE-FF") (PStr "10.20.30.40") (PStr "60")
    (PStr "2") (PStr EmptyString) (PStr "Ethernet") (PStr "GigabitEthernet1/1")
    (PStr "7") (PStr "RADNAD") (PStr "0x434143533a633631") EmptyString.

(** ** [RADIUSResponse.to_radclient_log] and [__str__] *)

Definition INDENT : string := "    ".

(** [[f"{key}='{val}'" for key,val in d.items()]] *)
Definition avp_lines (d : MultiDict.t) : list string :=
  map (fun kv => (fst kv ++ "='" ++ pyval_str (snd kv) ++ "'")%string)
    (MultiDict.items d).

(** One [print] of an attribute block: the indentation, the lines joined
    by a line feed and the indentation, and the line feed of [print]. *)
Definition avp_block (d : MultiDict.t) : string :=
  (INDENT ++ PyStr.join (PyStr.nl ++ INDENT) (avp_lines d) ++ PyStr.nl)%string.

Definition sent_line (r : RADIUSResponse) : string :=
  ("Sent " ++ req_type r ++ " Id " ++ id_ r ++ " from " ++ nas_ip r ++ ":"
     ++ nas_port r ++ " to " ++ srv_ip r ++ ":" ++ srv_port r ++ " length "
     ++ req_length r)%string.

Definition received_line (r : RADIUSResponse) : string :=
  ("Received " ++ rsp_type r ++ " Id " ++ id_ r ++ " from " ++ srv_ip r ++ ":"
     ++ srv_port r ++ " to " ++ nas_ip r ++ ":" ++ nas_port r ++ " length "
     ++ rsp_length r)%string.

(** The four [print] calls of [to_radclient_log], which is also
    [__str__]. *)
Definition to_radclient_log (r : RADIUSResponse) : string :=
  ((sent_line r ++ PyStr.nl) ++ avp_block (req_attrs r)
     ++ (received_line r ++ PyStr.nl) ++ avp_block (rsp_attrs r))%string.

Definition is_ValueError (e : exn) : bool :=
  match e with
  | ValueError _ => true
  | _ => false
  end.


(** A session with a [Session-Timeout] of a day that began two days
    before the sweep. *)
Definition day_timeout_session : Session :=
  session_at (SWEEP - 2 * DAY) (PInt 1) DAY_SECONDS.

(** ** Tables read from the sessions file *)

(** The ids of a table whose [Acct-Session-Id] column was read with the
    dtype int64: each is an integer between [INT64_MIN] and
    [INT64_MAX]. *)
Definition int64_ids (df : DataFrame.t) : Prop :=
  forall s, In s df ->
    exists i, Acct_Session_Id s = PInt i /\ (INT64_MIN <= i <= INT64_MAX)%Z.

(** What [self.counter += 1] makes of an integer counter, and the
    integer it then denotes: one more for an [int]; for a [numpy.int64]
    one more below [INT64_MAX], and [INT64_MIN] at [INT64_MAX]. *)
Inductive counter_step : pycounter -> pycounter -> Z -> Prop :=
| step_int (n : Z) :
    counter_step (PyObj (PInt n)) (PyObj (PInt (n + 1))) (n + 1)
| step_int64 (n : Z) :
    (INT64_MIN <= n < INT64_MAX)%Z ->
    counter_step (NpInt64 n) (NpInt64 (n + 1)) (n + 1)
| step_int64_max :
    counter_step (NpInt64 INT64_MAX) (NpInt64 INT64_MIN) INT64_MIN.

(** A row whose age at [t], in the seconds field of the difference,
    exceeds its integer [Session-Timeout]. *)
Definition timed_out (t : Z) (s : Session) : bool :=
  match Session_Timeout s with
  | PInt tmo => (td_seconds (t - Timestamp s) >? tmo)%Z
  | PStr _ => false
  end.

(** ** The layout of a transcript

    [radclient] prints the Sent header, the attribute lines of the
    request, the Received header and the attribute lines of the reply. *)

(** An attribute line: a line that is not empty and has an equals sign
    past its first character. *)
Definition is_attribute_line (line : string) : bool :=
  negb (PyStr.is_empty line) && (0 <? PyStr.find "=" line)%Z.

(** The first of the lines that is not an attribute line. *)
Fixpoint first_other_line (lines : list string) : option string :=
  match lines with
  | [] => None
  | line :: rest =>
      if is_attribute_line line then first_other_line rest else Some line
  end.

(** The Received line of a transcript: the line that follows the
    attribute lines of the request, that is the first line after the
    Sent header that is not an attribute line. *)
Definition Received_line (content : string) : option string :=
  first_other_line (tl (PyStr.splitlines content)).

(** The kind a header line carries: the second of its words, the words
    being separated by single blanks. *)
Definition response_kind (line : string) : option string :=
  nth_error (PyStr.split PyStr.SPACE line) 1.

(** A reply that names a kind of packet the module does not list. *)
Definition coa_ack_transcript : string :=
  transcript
    [ SENT_ACCOUNTING;
      avp_quoted "User-Name" "ahoward";
      "Received CoA-ACK Id 5 from 1.2.3.4:1813 to 10.16.51.114:64920 length 20" ].

(** A transcript in which a line beginning with Received comes after
    another line that closes the request attributes. *)
Definition late_Received_transcript : string :=
  transcript
    [ SENT_ACCESS;
      avp_quoted "User-Name" "ahoward";
      "Got Access-Accept Id 192 from 1.2.3.4:714 to 10.16.51.114:64920 length 20";
      "Received CoA-ACK Id 192 from 1.2.3.4:714 to 10.16.51.114:64920 length=20" ].

(** ** Passwords in a transcript *)

(** The attribute lines of the request, as they stand in the
    transcript. *)
Definition request_lines (content : string) : list string :=
  sent_section (tl (PyStr.splitlines content)).

Definition first_char (s : string) : option ascii :=
  match s with
  | EmptyString => None
  | String c _ => Some c
  end.

Fixpoint last_char (s : string) : option ascii :=
  match s with
  | EmptyString => None
  | String c EmptyString => Some c
  | String _ rest => last_char rest
  end.

Definition all_chars (p : ascii -> bool) (s : string) : Prop :=
  Forall (fun c => p c = true) (list_ascii_of_string s).

(** [core] is [text] without the characters of the class [p] at its two
    ends: [text] is [core] between two runs of such characters, and
    [core] neither begins nor ends with one. *)
Definition trimmed_of (p : ascii -> bool) (text core : string) : Prop :=
  exists a b,
    text = (a ++ core ++ b)%string /\
    all_chars p a /\ all_chars p b /\
    (forall c, first_char core = Some c -> p c = false) /\
    (forall c, last_char core = Some c -> p c = false).

(** A password without the quotes and blanks at its two ends. *)
Definition trimmed : string -> string -> Prop :=
  trimmed_of PyStr.is_quote_or_space.

(** A text made of asterisks only. *)
Definition all_asterisks (s : string) : Prop :=
  Forall (fun c => c = "*"%char) (list_ascii_of_string s).

(** An authentication whose password ends with a blank. *)
Definition blank_ended_password_transcript : string :=
  transcript
    [ SENT_ACCESS;
      avp_quoted "User-Name" "ahoward";
      avp_quoted "User-Password" "abc ";
      RECEIVED_ACCEPT ].

(* ===================================================================== *)
(** * Part II.  Properties                                                *)
(* ===================================================================== *)

(** ** Values and dictionaries *)

Lemma pyval_eqb_spec (a b : pyval) : reflect (a = b) (pyval_eqb a b).
Proof.
  destruct a as [s | x], b as [u | y]; simpl.
  - destruct (String.eqb_spec s u); constructor; congruence.
  - constructor; discriminate.
  - constructor; discriminate.
  - destruct (Z.eqb_spec x y); constructor; congruence.
Qed.

Lemma pyval_eqb_refl (a : pyval) : pyval_eqb a a = true.
Proof. destruct (pyval_eqb_spec a a); congruence. Qed.

Lemma repeat_length (c : ascii) (n : nat) :
  String.length (PyStr.repeat c n) = n.
Proof. induction n; simpl; congruence. Qed.

Module MultiDictFacts.

Import MultiDict.

Lemma get_remove_all_same (k : string) (d : t) : get k (remove_all k d) = None.
Proof.
  induction d as [| [k' v'] d IH]; simpl; [reflexivity |].
  destruct (String.eqb k' k) eqn:E; simpl; [assumption |].
  rewrite E. assumption.
Qed.

Lemma get_remove_all_other (k k' : string) (d : t) :
  k <> k' -> get k' (remove_all k d) = get k' d.
Proof.
  intros Hne. induction d as [| [k0 v0] d IH]; simpl; [reflexivity |].
  destruct (String.eqb_spec k0 k) as [-> | Hk]; simpl.
  - destruct (String.eqb_spec k k'); [contradiction | assumption].
  - destruct (String.eqb k0 k'); [reflexivity | assumption].
Qed.

(** Reading a key just written gives the written value. *)
Lemma get_setitem_same (k : string) (v : pyval) (d : t) :
  get k (setitem k v d) = Some v.
Proof.
  induction d as [| [k' v'] d IH]; simpl.
  - now rewrite String.eqb_refl.
  - destruct (String.eqb k' k) eqn:E; simpl.
    + now rewrite String.eqb_refl.
    + now rewrite E.
Qed.

(** Writing a key leaves the first value of every other key alone. *)
Lemma get_setitem_other (k k' : string) (v : pyval) (d : t) :
  k <> k' -> get k' (setitem k v d) = get k' d.
Proof.
  intros Hne. induction d as [| [k0 v0] d IH]; simpl.
  - destruct (String.eqb_spec k k'); [contradiction | reflexivity].
  - destruct (String.eqb_spec k0 k) as [-> | Hk]; simpl.
    + destruct (String.eqb_spec k k'); [contradiction |].
      now apply get_remove_all_other.
    + destruct (String.eqb k0 k'); [reflexivity | assumption].
Qed.

Lemma keys_remove_all (k : string) (d : t) :
  keys (remove_all k d) = filter (fun x => negb (String.eqb x k)) (keys d).
Proof.
  induction d as [| [k0 v0] d IH]; simpl; [reflexivity |].
  destruct (String.eqb k0 k); simpl; [assumption | now f_equal].
Qed.

Lemma in_keys_remove_all (k x : string) (d : t) :
  In x (keys (remove_all k d)) <-> In x (keys d) /\ x <> k.
Proof.
  rewrite keys_remove_all, filter_In.
  destruct (String.eqb_spec x k); simpl; intuition congruence.
Qed.

Lemma in_keys_setitem (k x : string) (v : pyval) (d : t) :
  In x (keys (setitem k v d)) -> x = k \/ In x (keys d).
Proof.
  induction d as [| [k0 v0] d IH]; simpl.
  - intuition.
  - destruct (String.eqb_spec k0 k) as [-> | Hk]; simpl.
    + intros [H | H]; [now left |].
      apply in_keys_remove_all in H. intuition.
    + intros [H | H]; [now right; left |].
      destruct (IH H); [now left | now right; right].
Qed.

(** Item assignment never leaves two entries of one key behind: a
    dictionary filled by item assignment alone has unique keys. *)
Lemma setitem_unique_keys (k : string) (v : pyval) (d : t) :
  unique_keys d -> unique_keys (setitem k v d).
Proof.
  unfold unique_keys.
  induction d as [| [k0 v0] d IH]; simpl; intros Hnd.
  - constructor; [intros [] | constructor].
  - inversion Hnd as [| ? ? Hnin Hnd']; subst.
    destruct (String.eqb_spec k0 k) as [-> | Hk]; simpl.
    + constructor.
      * intros H. apply in_keys_remove_all in H. intuition.
      * rewrite keys_remove_all. now apply NoDup_filter.
    + constructor; [| now apply IH].
      intros H. apply in_keys_setitem in H. destruct H; [congruence | contradiction].
Qed.

(** On unique keys item assignment to a present key is an in-place
    update: the keys and their order stay. *)
Lemma keys_remove_all_absent (k : string) (d : t) :
  ~ In k (keys d) -> remove_all k d = d.
Proof.
  induction d as [| [k0 v0] d IH]; simpl; intros Hnin; [reflexivity |].
  destruct (String.eqb_spec k0 k) as [-> | Hk]; simpl.
  - exfalso. apply Hnin. now left.
  - f_equal. apply IH. intros H. apply Hnin. now right.
Qed.

Lemma keys_setitem_present (k : string) (v v0 : pyval) (d : t) :
  unique_keys d -> get k d = Some v0 -> keys (setitem k v d) = keys d.
Proof.
  unfold unique_keys.
  induction d as [| [k1 v1] d IH]; simpl; intros Hnd Hget; [discriminate |].
  inversion Hnd as [| ? ? Hnin Hnd']; subst.
  destruct (String.eqb_spec k1 k) as [-> | Hk]; simpl.
  - now rewrite keys_remove_all_absent.
  - f_equal. now apply IH.
Qed.

End MultiDictFacts.

(** ** The parser *)

Lemma bind_inr {A B : Type} (c : result A) (k : A -> result B) (b : B) :
  bind c k = inr b -> exists a, c = inr a /\ k a = inr b.
Proof.
  destruct c as [e | a]; simpl; [discriminate |].
  intros H. now exists a.
Qed.

(** Both attribute loops fill their dictionary by item assignment, so the
    dictionaries of a parsed response never hold a key twice. *)
Lemma sent_loop_unique_keys (lines : list string) :
  forall req line rest req',
    MultiDict.unique_keys req ->
    sent_loop lines req = inr (line, rest, req') ->
    MultiDict.unique_keys req'.
Proof.
  induction lines as [| l lines IH]; simpl; intros req line rest req' Hu H.
  - discriminate.
  - destruct (PyStr.is_empty l); [inversion H; now subst |].
    destruct (PyStr.find "=" l <=? 0)%Z; [inversion H; now subst |].
    apply bind_inr in H. destruct H as [[key val] [_ H]].
    eapply IH; [| exact H].
    now apply MultiDictFacts.setitem_unique_keys.
Qed.

Lemma received_loop_unique_keys (lines : list string) :
  forall rsp rsp',
    MultiDict.unique_keys rsp ->
    received_loop lines rsp = inr rsp' ->
    MultiDict.unique_keys rsp'.
Proof.
  induction lines as [| l lines IH]; simpl; intros rsp rsp' Hu H.
  - inversion H. now subst.
  - apply bind_inr in H. destruct H as [[key val] [_ H]].
    eapply IH; [| exact H].
    now apply MultiDictFacts.setitem_unique_keys.
Qed.

Lemma unique_keys_empty : MultiDict.unique_keys MultiDict.empty.
Proof. constructor. Qed.

(** What a successful parse went through. *)
Lemma parse_sections_inr (content : option string) (now : Z) (r : RADIUSResponse) :
  parse_sections content now = inr r ->
  exists c line lines sent line' lines' rcvd,
    content = Some c /\
    (0 < PyStr.find "Received" c)%Z /\
    PyStr.splitlines c = line :: lines /\
    unpack_header line = inr sent /\
    sent_loop lines MultiDict.empty = inr (line', lines', req_attrs r) /\
    unpack_header line' = inr rcvd /\
    str_in (h_type rcvd) RSP_TYPES = true /\
    rsp_type r = h_type rcvd /\
    received_loop lines' MultiDict.empty = inr (rsp_attrs r).
Proof.
  unfold parse_sections. destruct content as [c |]; [| discriminate].
  destruct (Z.leb_spec (PyStr.find "Received" c) 0) as [Hle | Hlt]; [discriminate |].
  destruct (PyStr.splitlines c) as [| line lines] eqn:Hl; [discriminate |].
  intros H.
  apply bind_inr in H. destruct H as [sent [Hsent H]].
  apply bind_inr in H. destruct H as [[? ?] [_ H]].
  apply bind_inr in H. destruct H as [[? ?] [_ H]].
  apply bind_inr in H. destruct H as [[[line' lines'] req] [Hloop H]].
  apply bind_inr in H. destruct H as [rcvd [Hrcvd H]].
  apply bind_inr in H. destruct H as [[? ?] [_ H]].
  apply bind_inr in H. destruct H as [[? ?] [_ H]].
  destruct (str_in (h_type rcvd) RSP_TYPES) eqn:Hty; simpl in H; [| discriminate].
  apply bind_inr in H. destruct H as [rsp [Hrsp H]].
  inversion H; subst; simpl.
  exists c, line, lines, sent, line', lines', rcvd. repeat split; assumption.
Qed.

Lemma parse_sections_unique_keys (content : option string) (now : Z) (r : RADIUSResponse) :
  parse_sections content now = inr r ->
  MultiDict.unique_keys (req_attrs r) /\ MultiDict.unique_keys (rsp_attrs r).
Proof.
  intros H. apply parse_sections_inr in H.
  destruct H as (c & line & lines & sent & line' & lines' & rcvd & H).
  destruct H as (_ & _ & _ & _ & Hs & _ & _ & _ & Hr).
  split.
  - eapply sent_loop_unique_keys; [apply unique_keys_empty | exact Hs].
  - eapply received_loop_unique_keys; [apply unique_keys_empty | exact Hr].
Qed.

Lemma RADIUSResponse_init_inr (content : option string) (now : Z) (r : RADIUSResponse) :
  RADIUSResponse_init content now = inr r ->
  exists raw req,
    parse_sections content now = inr raw /\
    redact_passwords (req_attrs raw) = inr req /\
    r = set_req_attrs raw req.
Proof.
  unfold RADIUSResponse_init. intros H.
  apply bind_inr in H. destruct H as [raw [Hraw H]].
  apply bind_inr in H. destruct H as [req [Hreq H]].
  inversion H. now exists raw, req.
Qed.

Lemma str_in_In (s : string) (l : list string) : str_in s l = true <-> In s l.
Proof.
  unfold str_in. rewrite existsb_exists. split.
  - intros [x [Hin Heq]]. apply String.eqb_eq in Heq. now subst.
  - intros Hin. exists s. split; [assumption | apply String.eqb_refl].
Qed.

(** *** The examples of the docstring *)

Example parse_accept_example :
  exists r,
    RADIUSResponse_init (Some accept_transcript) 0 = inr r /\
    is_passed r = true /\
    id_ r = "192" /\
    (nas_ip r, nas_port r) = ("10.16.51.114", "64920") /\
    (srv_ip r, srv_port r) = ("1.2.3.4", "714") /\
    req_attrs r
    = [ ("User-Name", PStr "ahoward");
        ("User-Password", PStr "**********");
        ("Service-Type", PStr "Framed");
        ("NAS-Port-Type", PStr "Ethernet");
        ("Cleartext-Password", PStr "**********") ] /\
    rsp_attrs r
    = [ ("User-Name", PStr "ahoward");
        ("Class", PStr "0x434143533a633631") ].
Proof. eexists. split; [reflexivity |]. repeat split. Qed.

Example parse_reject_example :
  exists r,
    RADIUSResponse_init (Some reject_transcript) 0 = inr r /\
    is_failed r = true /\
    rsp_attrs r = [].
Proof. eexists. split; [reflexivity |]. repeat split. Qed.

Example parse_timeout_example :
  RADIUSResponse_init (Some timeout_transcript) 0
  = inl (TimeoutError timeout_transcript).
Proof. reflexivity. Qed.

(** A value that holds the separator is split at its first occurrence
    only. *)
Example parse_avp_vendor_pair :
  parse_avp (avp_quoted "Cisco-AVPair" "profile-name=Unknown")
  = inr ("Cisco-AVPair", "profile-name=Unknown").
Proof. reflexivity. Qed.

(** The two ways of storing into a [MultiDict]. *)
Example add_keeps_setitem_replaces :
  let d := MultiDict.add "A" (PInt 3)
             (MultiDict.add "B" (PInt 2) (MultiDict.add "A" (PInt 1) MultiDict.empty)) in
  d = [("A", PInt 1); ("B", PInt 2); ("A", PInt 3)] /\
  MultiDict.getall "A" d = [PInt 1; PInt 3] /\
  MultiDict.setitem "A" (PInt 4) d = [("A", PInt 4); ("B", PInt 2)].
Proof. repeat split. Qed.

(** *** Timeouts *)

(** C2, the code at the failing input: the transcript of an exchange
    that got no reply, sent for the user ReceivedGuest, has no line
    beginning with Received, yet the constructor does not raise
    [TimeoutError], which its docstring promises for an exchange without
    a reply; it goes on parsing, takes the no-reply line for the Received
    header and raises the [ValueError] of a failed unpacking.  The test
    [content.find('Received') <= 0] looks for the text anywhere past the
    first character, and finds it in the user name. *)
Theorem no_received_line_yet_no_timeout :
  has_received_line no_reply_for_ReceivedGuest = false /\
  forall now,
    RADIUSResponse_init (Some no_reply_for_ReceivedGuest) now
    = inl (ValueError "unpack: expected 2 values") /\
    RADIUSResponse_init (Some no_reply_for_ReceivedGuest) now
    <> inl (TimeoutError no_reply_for_ReceivedGuest).
Proof.
  split; [reflexivity |].
  intros now.
  assert (H : RADIUSResponse_init (Some no_reply_for_ReceivedGuest) now
              = inl (ValueError "unpack: expected 2 values")) by reflexivity.
  split; [exact H | rewrite H; discriminate].
Qed.

(** What the first test of the constructor does: when the text Received
    occurs nowhere in the transcript, or the transcript begins with it
    ([find] gives -1 or 0), the constructor raises [TimeoutError] with
    the raw transcript as payload, whatever else the transcript holds. *)
Lemma no_Received_text_raises_TimeoutError :
  forall (content : string) (now : Z),
    (PyStr.find "Received" content <= 0)%Z ->
    RADIUSResponse_init (Some content) now = inl (TimeoutError content).
Proof.
  intros content now Hfind.
  unfold RADIUSResponse_init, parse_sections.
  destruct (Z.leb_spec (PyStr.find "Received" content) 0) as [_ | Hlt].
  - reflexivity.
  - lia.
Qed.

(** The timeout example of the docstring does raise [TimeoutError]. *)
Example timeout_example_raises_TimeoutError :
  RADIUSResponse_init (Some timeout_transcript) 0
  = inl (TimeoutError timeout_transcript).
Proof. reflexivity. Qed.

(** *** Response types *)

(** C7, the claim as stated fails: a transcript whose Received line
    names [Accounting-Request], which is none of the four response kinds,
    is parsed into a response. *)
Lemma received_request_type_is_parsed :
  exists r,
    RADIUSResponse_init (Some received_request_transcript) 0 = inr r /\
    rsp_type r = ACCOUNTING_REQUEST /\
    ~ In (rsp_type r) RESPONSE_KINDS.
Proof.
  eexists. split; [reflexivity |]. split; [reflexivity |].
  simpl. unfold ACCESS_ACCEPT, ACCESS_REJECT, ACCESS_CHALLENGE, ACCOUNTING_RESPONSE.
  intros [H | [H | [H | [H | []]]]]; discriminate.
Qed.

(** The line that ends the loop of the Sent section is the first line
    that is not an attribute line. *)
Lemma sent_loop_first_other_line (lines : list string) :
  forall req line rest req',
    sent_loop lines req = inr (line, rest, req') ->
    first_other_line lines = Some line.
Proof.
  induction lines as [| l lines IH]; cbn [sent_loop first_other_line];
    intros req line rest req' H.
  - discriminate.
  - unfold is_attribute_line.
    destruct (PyStr.is_empty l); cbn [negb andb]; [inversion H; now subst |].
    rewrite Z.ltb_antisym.
    destruct (PyStr.find "=" l <=? 0)%Z; cbn [negb]; [inversion H; now subst |].
    apply bind_inr in H. destruct H as [[key val] [_ H]].
    now apply IH in H.
Qed.

Lemma unpack_header_kind (line : string) (h : header) :
  unpack_header line = inr h -> response_kind line = Some (h_type h).
Proof.
  unfold unpack_header, response_kind.
  destruct (PyStr.split PyStr.SPACE line)
    as [| w [| ty [| x1 [| i [| x2 [| a [| x3 [| b [| x4 [| len [| ? ?]]]]]]]]]]];
    intros H; inversion H. reflexivity.
Qed.

(** In a transcript laid out as [radclient] prints it, the Sent header,
    attribute lines, then a line that is not one, that line is the
    Received line. *)
Lemma Received_line_of_layout
  (content header line : string) (avps rest : list string) :
  PyStr.splitlines content = header :: avps ++ line :: rest ->
  Forall (fun l => is_attribute_line l = true) avps ->
  is_attribute_line line = false ->
  Received_line content = Some line.
Proof.
  intros Hlines Havps Hline. unfold Received_line. rewrite Hlines. cbn [tl].
  clear Hlines. induction Havps as [| l avps Hl _ IH]; cbn [app first_other_line].
  - now rewrite Hline.
  - now rewrite Hl.
Qed.

(** C7, amended: the Received line of a transcript being the line that
    follows the attribute lines of the request, and the kind it carries
    its second word: whenever the constructor returns a response, the
    transcript has a Received line, the type of the response is the kind
    that line carries, and the kind is one of the five members of
    [RSP_TYPES]: Access-Accept, Access-Reject, Accounting-Request,
    Accounting-Response, Access-Challenge.  For a transcript whose
    Received line carries no kind of that list the constructor raises
    and no response is made. *)
Theorem response_kind_gates_construction (content : string) (now : Z) :
  (forall r,
      RADIUSResponse_init (Some content) now = inr r ->
      exists line,
        Received_line content = Some line /\
        response_kind line = Some (rsp_type r) /\
        In (rsp_type r) RSP_TYPES) /\
  (forall line,
      Received_line content = Some line ->
      (forall kind, response_kind line = Some kind -> ~ In kind RSP_TYPES) ->
      exists e, RADIUSResponse_init (Some content) now = inl e).
Proof.
  assert (Hret : forall r,
             RADIUSResponse_init (Some content) now = inr r ->
             exists line,
               Received_line content = Some line /\
               response_kind line = Some (rsp_type r) /\
               In (rsp_type r) RSP_TYPES).
  { intros r H.
    apply RADIUSResponse_init_inr in H. destruct H as (raw & req & Hraw & _ & ->).
    apply parse_sections_inr in Hraw.
    destruct Hraw as (c & line & lines & sent & line' & lines' & rcvd & Hraw).
    destruct Hraw as (Hc & _ & Hlines & _ & Hloop & Hrcvd & Hin & Hty & _).
    inversion Hc; subst c. exists line'.
    unfold set_req_attrs. cbn [rsp_type]. rewrite Hty. split; [| split].
    - unfold Received_line. rewrite Hlines. cbn [tl].
      exact (sent_loop_first_other_line _ _ _ _ _ Hloop).
    - now apply unpack_header_kind.
    - now apply str_in_In. }
  split; [exact Hret |].
  intros line Hline Hkind.
  destruct (RADIUSResponse_init (Some content) now) as [e | r] eqn:Hrun;
    [now exists e |].
  exfalso. destruct (Hret r eq_refl) as (line' & Hline' & Hk & Hin).
  rewrite Hline in Hline'. inversion Hline'; subst line'.
  exact (Hkind _ Hk Hin).
Qed.

Lemma response_kind_gates_construction_witness :
  Received_line coa_ack_transcript
  = Some "Received CoA-ACK Id 5 from 1.2.3.4:1813 to 10.16.51.114:64920 length 20"%string /\
  RADIUSResponse_init (Some coa_ack_transcript) 0
  = inl (ValueError "No such RSP_TYPES") /\
  exists r,
    RADIUSResponse_init (Some accept_transcript) 0 = inr r /\
    Received_line accept_transcript = Some RECEIVED_ACCEPT /\
    response_kind RECEIVED_ACCEPT = Some (rsp_type r) /\
    rsp_type r = ACCESS_ACCEPT.
Proof.
  destruct (response_kind_gates_construction coa_ack_transcript 0) as [_ Hfail].
  destruct (response_kind_gates_construction accept_transcript 0) as [Hret _].
  split; [reflexivity |]. split.
  - destruct (Hfail _ eq_refl) as [e He].
    + intros kind Hk. inversion Hk; subst kind.
      unfold RSP_TYPES, ACCESS_ACCEPT, ACCESS_REJECT, ACCOUNTING_REQUEST,
        ACCOUNTING_RESPONSE, ACCESS_CHALLENGE.
      intros [H | [H | [H | [H | [H | []]]]]]; discriminate.
    + reflexivity.
  - eexists. split; [reflexivity |].
    destruct (Hret _ eq_refl) as (line & Hline & Hk & _).
    assert (Hl : Received_line accept_transcript = Some RECEIVED_ACCEPT)
      by reflexivity.
    rewrite Hl in Hline. inversion Hline; subst line.
    split; [exact Hl |]. split; [exact Hk | reflexivity].
Defined.

(** The parser takes the Received line by its place, not by its first
    word: here the line after the request attributes begins with another
    word and names Access-Accept, a later line begins with Received and
    names CoA-ACK, and the transcript is parsed as an Access-Accept. *)
Example Received_line_is_taken_by_place :
  exists r,
    RADIUSResponse_init (Some late_Received_transcript) 0 = inr r /\
    rsp_type r = ACCESS_ACCEPT /\
    Received_line late_Received_transcript
    = Some "Got Access-Accept Id 192 from 1.2.3.4:714 to 10.16.51.114:64920 length 20"%string.
Proof. eexists. repeat split. Qed.

(** *** Repeated attributes *)

(** C5, the code at the failing input: the request lists [Cisco-AVPair]
    twice and so does the reply; each parsed dictionary keeps one entry of
    the name, holding the value of the last line.  The loops store with
    item assignment, which replaces, where [add] would append. *)
Theorem repeated_attribute_lines_coalesce :
  exists r,
    RADIUSResponse_init (Some repeated_avp_transcript) 0 = inr r /\
    req_attrs r
    = [ ("User-Name", PStr "ahoward");
        ("Cisco-AVPair", PStr "mdm-tlv=device-mac=00-50-5a-aa-8a-4a") ] /\
    rsp_attrs r
    = [ ("Cisco-AVPair", PStr "profile-name=Windows10-Workstation") ] /\
    MultiDict.getall "Cisco-AVPair" (req_attrs r)
    = [ PStr "mdm-tlv=device-mac=00-50-5a-aa-8a-4a" ].
Proof.
  eexists. split; [reflexivity |]. repeat split.
Qed.

(** *** The request dictionary and the transcript *)

Lemma last_value_acc (k : string) (lines : list string) (acc : option string) :
  last_value k lines acc
  = match last_value k lines None with
    | Some v => Some v
    | None => acc
    end.
Proof.
  revert acc. induction lines as [| l lines IH]; intros acc; simpl.
  - reflexivity.
  - destruct (parse_avp l) as [e | [key val]].
    + apply IH.
    + destruct (String.eqb key k).
      * rewrite (IH (Some val)). now destruct (last_value k lines None).
      * apply IH.
Qed.

Lemma sent_loop_get (k : string) (lines : list string) :
  forall req line rest req',
    sent_loop lines req = inr (line, rest, req') ->
    MultiDict.get k req'
    = match last_value k (sent_section lines) None with
      | Some v => Some (PStr v)
      | None => MultiDict.get k req
      end.
Proof.
  induction lines as [| l lines IH]; simpl; intros req line rest req' H.
  - discriminate.
  - destruct (PyStr.is_empty l); [inversion H; now subst |].
    destruct (PyStr.find "=" l <=? 0)%Z; [inversion H; now subst |].
    apply bind_inr in H. destruct H as [[key val] [Havp H]].
    cbn [last_value]. rewrite Havp.
    rewrite (IH _ _ _ _ H).
    rewrite (last_value_acc k _ (if String.eqb key k then Some val else None)).
    clear IH H.
    destruct (last_value k (sent_section lines) None) as [v |]; [reflexivity |].
    destruct (String.eqb_spec key k) as [-> | Hne].
    + now rewrite MultiDictFacts.get_setitem_same.
    + now rewrite MultiDictFacts.get_setitem_other.
Qed.

(** Before the redaction the request dictionary holds, for each name, the
    value of the last attribute line of the Sent section with that name. *)
Lemma parsed_request_value (content : string) (now : Z) (raw : RADIUSResponse) :
  parse_sections (Some content) now = inr raw ->
  forall k,
    MultiDict.get k (req_attrs raw)
    = option_map PStr (stored_request_value k content).
Proof.
  intros H k. apply parse_sections_inr in H.
  destruct H as (c & line & lines & sent & line' & lines' & rcvd & H).
  destruct H as (Hc & _ & Hlines & _ & Hloop & _).
  inversion Hc; subst c. unfold stored_request_value. rewrite Hlines.
  cbn [tl]. rewrite (sent_loop_get k _ _ _ _ _ Hloop).
  now destruct (last_value k (sent_section lines) None).
Qed.

Example stored_request_value_password :
  stored_request_value "User-Password" accept_transcript = Some "C1sco12345".
Proof. reflexivity. Qed.

(** *** Redaction *)

Lemma redact_key_inr (k : string) (d d' : MultiDict.t) :
  redact_key k d = inr d' ->
  (MultiDict.get k d = None /\ d' = d) \/
  (exists s,
      MultiDict.get k d = Some (PStr s) /\
      d' = MultiDict.setitem k (PStr (PyStr.repeat "*" (String.length s))) d).
Proof.
  unfold redact_key. destruct (MultiDict.get k d) as [[s | z] |]; intros H.
  - right. exists s. inversion H. now split.
  - discriminate.
  - left. inversion H. now split.
Qed.

Lemma get_redact_key_same (k password : string) (d d' : MultiDict.t) :
  redact_key k d = inr d' ->
  MultiDict.get k d = Some (PStr password) ->
  MultiDict.get k d' = Some (PStr (PyStr.repeat "*" (String.length password))).
Proof.
  intros H Hget. apply redact_key_inr in H.
  destruct H as [[Hnone _] | [s [Hs ->]]]; [congruence |].
  rewrite Hs in Hget. inversion Hget; subst.
  apply MultiDictFacts.get_setitem_same.
Qed.

Lemma get_redact_key_other (k k' : string) (d d' : MultiDict.t) :
  redact_key k d = inr d' ->
  k <> k' -> MultiDict.get k' d' = MultiDict.get k' d.
Proof.
  intros H Hne. apply redact_key_inr in H.
  destruct H as [[_ ->] | [s [_ ->]]]; [reflexivity |].
  now apply MultiDictFacts.get_setitem_other.
Qed.

Lemma keys_redact_key (k : string) (d d' : MultiDict.t) :
  redact_key k d = inr d' ->
  MultiDict.unique_keys d ->
  MultiDict.keys d' = MultiDict.keys d.
Proof.
  intros H Hu. apply redact_key_inr in H.
  destruct H as [[_ ->] | [s [Hs ->]]]; [reflexivity |].
  eapply MultiDictFacts.keys_setitem_present; eassumption.
Qed.

Lemma unique_keys_redact_key (k : string) (d d' : MultiDict.t) :
  redact_key k d = inr d' ->
  MultiDict.unique_keys d -> MultiDict.unique_keys d'.
Proof.
  intros H Hu. unfold MultiDict.unique_keys.
  now rewrite (keys_redact_key _ _ _ H Hu).
Qed.

(** No parsed dictionary holds a name twice, whatever the transcript. *)
Lemma parsed_attrs_unique_keys :
  forall (content : option string) (now : Z) (r : RADIUSResponse),
    RADIUSResponse_init content now = inr r ->
    MultiDict.unique_keys (req_attrs r) /\ MultiDict.unique_keys (rsp_attrs r).
Proof.
  intros content now r H.
  apply RADIUSResponse_init_inr in H. destruct H as (raw & req & Hraw & Hreq & ->).
  apply parse_sections_unique_keys in Hraw. destruct Hraw as [Hq Hp].
  cbn [req_attrs rsp_attrs set_req_attrs]. split; [| assumption].
  unfold redact_passwords in Hreq.
  apply bind_inr in Hreq. destruct Hreq as [d1 [H1 H2]].
  eapply unique_keys_redact_key; [exact H2 |].
  eapply unique_keys_redact_key; [exact H1 | assumption].
Qed.

(** *** Strings between two runs of a class of characters *)

Lemma append_assoc (a b c : string) : ((a ++ b) ++ c = a ++ (b ++ c))%string.
Proof. induction a as [| x a IH]; simpl; [reflexivity | now rewrite IH]. Qed.

Lemma append_nil_r (s : string) : (s ++ "")%string = s.
Proof. induction s as [| c s IH]; simpl; [reflexivity | now rewrite IH]. Qed.

Lemma substring_prefix (b c : string) :
  substring 0 (String.length b) (b ++ c) = b.
Proof.
  induction b as [| x b IH]; simpl; [now destruct c | now rewrite IH].
Qed.

Lemma substring_middle (a b c : string) :
  substring (String.length a) (String.length b) (a ++ b ++ c) = b.
Proof.
  induction a as [| x a IH]; simpl; [apply substring_prefix | exact IH].
Qed.

Lemma lstrip_decomp (p : ascii -> bool) (s : string) :
  exists a, s = (a ++ PyStr.lstrip p s)%string /\ all_chars p a.
Proof.
  induction s as [| c s IH]; cbn [PyStr.lstrip].
  - exists EmptyString. split; [reflexivity | constructor].
  - destruct (p c) eqn:Hc.
    + destruct IH as (a & Ha & Hall). exists (String c a). split.
      * cbn. now rewrite <- Ha.
      * constructor; assumption.
    + exists EmptyString. split; [reflexivity | constructor].
Qed.

Lemma rstrip_decomp (p : ascii -> bool) (s : string) :
  exists b, s = (PyStr.rstrip p s ++ b)%string /\ all_chars p b.
Proof.
  induction s as [| c s IH]; cbn [PyStr.rstrip].
  - exists EmptyString. split; [reflexivity | constructor].
  - destruct IH as (b & Hb & Hall).
    destruct (PyStr.rstrip p s) as [| c' r] eqn:Hr.
    + destruct (p c) eqn:Hc.
      * exists (String c b). split; [cbn in *; now rewrite <- Hb |].
        constructor; assumption.
      * exists b. split; [cbn in *; now rewrite <- Hb | assumption].
    + exists b. split; [cbn in *; now rewrite <- Hb | assumption].
Qed.

Lemma lstrip_first (p : ascii -> bool) (s : string) (c : ascii) :
  first_char (PyStr.lstrip p s) = Some c -> p c = false.
Proof.
  induction s as [| x s IH]; cbn [PyStr.lstrip]; [discriminate |].
  destruct (p x) eqn:Hx; [exact IH |].
  cbn. intros H. inversion H; now subst.
Qed.

Lemma rstrip_first (p : ascii -> bool) (s : string) (c : ascii) :
  first_char (PyStr.rstrip p s) = Some c -> first_char s = Some c.
Proof.
  destruct s as [| x s]; cbn [PyStr.rstrip]; [discriminate |].
  destruct (PyStr.rstrip p s); [destruct (p x); [discriminate |] |];
    cbn; intros H; exact H.
Qed.

Lemma rstrip_last (p : ascii -> bool) (s : string) (c : ascii) :
  last_char (PyStr.rstrip p s) = Some c -> p c = false.
Proof.
  induction s as [| x s IH]; cbn [PyStr.rstrip]; [discriminate |].
  destruct (PyStr.rstrip p s) as [| y r] eqn:Hr.
  - destruct (p x) eqn:Hx; [discriminate |].
    cbn. intros H. inversion H; now subst.
  - intros H. apply IH. exact H.
Qed.

(** [strip] gives the text without the characters of the class at its
    two ends. *)
Lemma strip_trimmed_of (p : ascii -> bool) (s : string) :
  trimmed_of p s (PyStr.strip p s).
Proof.
  unfold PyStr.strip.
  destruct (lstrip_decomp p s) as (a & Ha & Halla).
  destruct (rstrip_decomp p (PyStr.lstrip p s)) as (b & Hb & Hallb).
  exists a, b. split; [| split; [assumption | split; [assumption | split]]].
  - rewrite <- Hb. exact Ha.
  - intros c Hc. apply rstrip_first in Hc. now apply lstrip_first in Hc.
  - intros c. apply rstrip_last.
Qed.

Lemma lstrip_all (p : ascii -> bool) (a s : string) :
  all_chars p a -> PyStr.lstrip p (a ++ s) = PyStr.lstrip p s.
Proof.
  induction a as [| c a IH]; intros H; [reflexivity |].
  inversion H as [| ? ? Hc Ha]; subst. cbn. rewrite Hc. now apply IH.
Qed.

Lemma lstrip_bare (p : ascii -> bool) (s : string) :
  (forall c, first_char s = Some c -> p c = false) -> PyStr.lstrip p s = s.
Proof.
  destruct s as [| c s]; intros H; [reflexivity |].
  cbn. now rewrite (H c eq_refl).
Qed.

Lemma rstrip_class (p : ascii -> bool) (b : string) :
  all_chars p b -> PyStr.rstrip p b = EmptyString.
Proof.
  induction b as [| c b IH]; intros H; [reflexivity |].
  inversion H as [| ? ? Hc Hb]; subst. cbn. now rewrite (IH Hb), Hc.
Qed.

Lemma rstrip_all (p : ascii -> bool) (s b : string) :
  all_chars p b -> PyStr.rstrip p (s ++ b) = PyStr.rstrip p s.
Proof.
  intros Hb. induction s as [| c s IH]; cbn [append].
  - now apply rstrip_class.
  - cbn [PyStr.rstrip]. now rewrite IH.
Qed.

Lemma rstrip_bare (p : ascii -> bool) (s : string) :
  (forall c, last_char s = Some c -> p c = false) -> PyStr.rstrip p s = s.
Proof.
  induction s as [| c s IH]; intros H; [reflexivity |].
  cbn [PyStr.rstrip]. destruct s as [| c' s'].
  - cbn. now rewrite (H c eq_refl).
  - rewrite IH by exact H. reflexivity.
Qed.

(** There is one such text, and [strip] computes it. *)
Lemma trimmed_of_strip (p : ascii -> bool) (text core : string) :
  trimmed_of p text core -> PyStr.strip p text = core.
Proof.
  intros (a & b & -> & Ha & Hb & Hfirst & Hlast).
  unfold PyStr.strip. rewrite lstrip_all by exact Ha.
  destruct core as [| x r].
  - cbn [append]. rewrite <- (append_nil_r b) at 1.
    rewrite lstrip_all by exact Hb. reflexivity.
  - rewrite lstrip_bare by (intros c Hc; apply Hfirst; exact Hc).
    rewrite rstrip_all by exact Hb. now apply rstrip_bare.
Qed.

Lemma trimmed_of_between (p : ascii -> bool) (a b text core : string) :
  all_chars p a -> all_chars p b ->
  trimmed_of p text core -> trimmed_of p (a ++ text ++ b) core.
Proof.
  intros Ha Hb (a' & b' & -> & Ha' & Hb' & Hfirst & Hlast).
  exists (a ++ a')%string, (b' ++ b)%string.
  split; [now rewrite !append_assoc |].
  split; [| split; [| split; assumption]].
  - unfold all_chars in *. clear - Ha Ha'.
    induction a as [| c a IH]; [exact Ha' |].
    inversion Ha; subst. constructor; [assumption | now apply IH].
  - unfold all_chars in *. clear - Hb Hb'.
    induction b' as [| c b' IH]; [exact Hb |].
    inversion Hb'; subst. constructor; [assumption | now apply IH].
Qed.

(** *** The line of a quoted attribute *)

Lemma last_char_append_one (s : string) (c : ascii) :
  last_char (s ++ PyStr.one c) = Some c.
Proof.
  induction s as [| x s IH]; [reflexivity |].
  cbn [append last_char]. destruct (s ++ PyStr.one c)%string eqn:E.
  - destruct s; discriminate.
  - exact IH.
Qed.

Lemma split1_at (sep : ascii) (a b : string) :
  (forall c, In c (list_ascii_of_string a) -> c <> sep) ->
  PyStr.split1 sep (a ++ String sep b) = [a; b].
Proof.
  induction a as [| x a IH]; intros H; cbn [append PyStr.split1].
  - now rewrite Ascii.eqb_refl.
  - destruct (Ascii.eqb_spec x sep) as [-> | _].
    + exfalso. apply (H sep); [now left | reflexivity].
    + rewrite IH; [reflexivity |]. intros c Hc. apply H. now right.
Qed.

Lemma parse_avp_quoted_password (k password : string) :
  k = "User-Password"%string \/ k = "Cleartext-Password"%string ->
  parse_avp (avp_quoted k password)
  = inr (k, PyStr.strip PyStr.is_quote_or_space password).
Proof.
  intros Hk. unfold parse_avp, avp_quoted.
  assert (Hstrip : PyStr.strip PyStr.is_space
                     (PyStr.tab ++ k ++ " = " ++ PyStr.dq ++ password ++ PyStr.dq)
                   = ((k ++ " ") ++ String "=" (" " ++ PyStr.dq ++ password ++ PyStr.dq))%string).
  { unfold PyStr.strip.
    rewrite lstrip_all by (repeat constructor).
    rewrite lstrip_bare
      by (destruct Hk as [-> | ->]; cbn; intros c Hc; inversion Hc; reflexivity).
    replace (k ++ " = " ++ PyStr.dq ++ password ++ PyStr.dq)%string
      with ((k ++ " = " ++ PyStr.dq ++ password) ++ PyStr.one PyStr.DQUOTE)%string
      by (unfold PyStr.dq; now rewrite !append_assoc).
    rewrite rstrip_bare.
    - unfold PyStr.dq. rewrite !append_assoc.
      destruct Hk as [-> | ->]; reflexivity.
    - intros c Hc. rewrite last_char_append_one in Hc. inversion Hc. reflexivity. }
  rewrite Hstrip. rewrite split1_at.
  - unfold ret. apply f_equal. apply f_equal2.
    + destruct Hk as [-> | ->]; reflexivity.
    + apply trimmed_of_strip.
      apply (trimmed_of_between _ (" " ++ PyStr.dq) PyStr.dq).
      * repeat constructor.
      * repeat constructor.
      * apply strip_trimmed_of.
  - destruct Hk as [-> | ->]; cbn; intros c Hc;
      repeat (destruct Hc as [<- | Hc]; [discriminate |]); contradiction.
Qed.

(** *** Names that a line does not hold *)

Lemma find_none_not_within (part s : string) :
  part <> EmptyString -> (PyStr.find part s < 0)%Z ->
  forall a b, s <> (a ++ part ++ b)%string.
Proof.
  unfold PyStr.find. intros Hne Hfind a b ->.
  destruct (index 0 part (a ++ part ++ b)) as [i |] eqn:Hi; [lia |].
  apply (index_correct3 0 (String.length a) _ _ Hi Hne); [lia |].
  apply substring_middle.
Qed.

Lemma split1_decomp (sep : ascii) (s h t : string) :
  PyStr.split1 sep s = [h; t] -> s = (h ++ String sep t)%string.
Proof.
  revert h. induction s as [| c s IH]; intros h; cbn [PyStr.split1];
    [discriminate |].
  destruct (Ascii.eqb_spec c sep) as [-> | _].
  - intros H. inversion H; subst. reflexivity.
  - destruct (PyStr.split1 sep s) as [| h' [| t' [| ? ?]]]; intros H;
      inversion H; subst.
    cbn. now rewrite <- (IH h' eq_refl).
Qed.

Lemma strip_within (p : ascii -> bool) (s : string) :
  exists a b, s = (a ++ PyStr.strip p s ++ b)%string.
Proof.
  destruct (strip_trimmed_of p s) as (a & b & H & _). now exists a, b.
Qed.

(** The name [parse_avp] reads on a line stands in the line. *)
Lemma parse_avp_key_within (line key val : string) :
  parse_avp line = inr (key, val) ->
  exists a b, line = (a ++ key ++ b)%string.
Proof.
  unfold parse_avp.
  destruct (PyStr.split1 "=" (PyStr.strip PyStr.is_space line))
    as [| h [| t [| ? ?]]] eqn:Hsplit; intros H; inversion H; subst.
  apply split1_decomp in Hsplit.
  destruct (strip_within PyStr.is_space line) as (a1 & b1 & H1).
  destruct (strip_within PyStr.is_quote_or_space h) as (a2 & b2 & H2).
  exists (a1 ++ a2)%string, (b2 ++ String "=" t ++ b1)%string.
  rewrite H1 at 1. rewrite Hsplit. rewrite H2 at 1.
  now rewrite !append_assoc.
Qed.

Lemma last_value_app (k : string) (l1 l2 : list string) :
  forall acc,
    last_value k (l1 ++ l2) acc = last_value k l2 (last_value k l1 acc).
Proof.
  induction l1 as [| l l1 IH]; intros acc; cbn [app last_value]; [reflexivity |].
  destruct (parse_avp l) as [e | [key val]]; apply IH.
Qed.

Lemma last_value_without (k : string) (lines : list string) :
  k <> EmptyString ->
  (forall line, In line lines -> (PyStr.find k line < 0)%Z) ->
  forall acc, last_value k lines acc = acc.
Proof.
  intros Hk. induction lines as [| l lines IH]; intros H acc;
    cbn [last_value]; [reflexivity |].
  assert (Hrest : forall line, In line lines -> (PyStr.find k line < 0)%Z)
    by (intros line Hin; apply H; now right).
  destruct (parse_avp l) as [e | [key val]] eqn:Havp; [now apply IH |].
  destruct (String.eqb_spec key k) as [-> | Hne]; [| now apply IH].
  exfalso. destruct (parse_avp_key_within _ _ _ Havp) as (a & b & Hl).
  exact (find_none_not_within k l Hk (H l (or_introl eq_refl)) a b Hl).
Qed.

(** *** The mask *)

Lemma repeat_asterisks (n : nat) : all_asterisks (PyStr.repeat "*" n).
Proof.
  unfold all_asterisks.
  induction n as [| n IH]; cbn; constructor; [reflexivity | exact IH].
Qed.

Lemma repeat_has_length (c : ascii) (n : nat) : String.length (PyStr.repeat c n) = n.
Proof. induction n as [| n IH]; cbn; [reflexivity | now rewrite IH]. Qed.

(** C6, amended: when a transcript is parsed and its request section
    holds the line of a quoted [User-Password], or [Cleartext-Password],
    that no later line of the section names again, the request
    dictionary of the response holds under that name a text of asterisks
    only, as long as the password that stands between the quotes is
    without the quotes and blanks at its two ends; a password that
    neither begins nor ends with a quote or a blank keeps its length.
    The response dictionary is the one read from the transcript, the
    names of the request keep their places, and the request values
    under other names are those read from the transcript. *)
Theorem passwords_are_masked_at_trimmed_length
  (content : string) (now : Z) (r : RADIUSResponse)
  (k password : string) (before after : list string) :
  RADIUSResponse_init (Some content) now = inr r ->
  k = "User-Password"%string \/ k = "Cleartext-Password"%string ->
  request_lines content = before ++ avp_quoted k password :: after ->
  (forall line, In line after -> (PyStr.find k line < 0)%Z) ->
  (exists mask core,
      MultiDict.get k (req_attrs r) = Some (PStr mask) /\
      all_asterisks mask /\
      trimmed password core /\
      String.length mask = String.length core /\
      (forall core', trimmed password core' -> core' = core)) /\
  exists raw,
    parse_sections (Some content) now = inr raw /\
    rsp_attrs r = rsp_attrs raw /\
    MultiDict.keys (req_attrs r) = MultiDict.keys (req_attrs raw) /\
    (forall k',
        k' <> "User-Password"%string -> k' <> "Cleartext-Password"%string ->
        MultiDict.get k' (req_attrs r) = MultiDict.get k' (req_attrs raw)).
Proof.
  intros H Hk Hlines Hafter.
  apply RADIUSResponse_init_inr in H. destruct H as (raw & req & Hraw & Hreq & ->).
  pose proof (parse_sections_unique_keys _ _ _ Hraw) as [Hu _].
  pose proof (parsed_request_value _ _ _ Hraw) as Hval.
  unfold redact_passwords in Hreq.
  apply bind_inr in Hreq. destruct Hreq as [d1 [H1 H2]].
  cbn [req_attrs rsp_attrs set_req_attrs]. split.
  - set (core := PyStr.strip PyStr.is_quote_or_space password).
    assert (Hne : k <> EmptyString) by (destruct Hk as [-> | ->]; discriminate).
    assert (Hget : MultiDict.get k (req_attrs raw) = Some (PStr core)).
    { rewrite Hval. unfold stored_request_value.
      fold (request_lines content). rewrite Hlines.
      rewrite last_value_app. cbn [last_value].
      rewrite (parse_avp_quoted_password k password Hk), String.eqb_refl.
      rewrite (last_value_without k after Hne Hafter). reflexivity. }
    exists (PyStr.repeat "*" (String.length core)), core.
    split; [| split; [apply repeat_asterisks |
              split; [apply strip_trimmed_of |
              split; [apply repeat_has_length |]]]].
    + destruct Hk as [-> | ->].
      * rewrite (get_redact_key_other _ "User-Password" _ _ H2) by discriminate.
        apply (get_redact_key_same _ _ _ _ H1 Hget).
      * apply (get_redact_key_same _ _ _ _ H2).
        now rewrite (get_redact_key_other _ "Cleartext-Password" _ _ H1) by discriminate.
    + intros core' Hc. symmetry. now apply trimmed_of_strip.
  - exists raw. split; [assumption |]. split; [reflexivity |]. split.
    + rewrite (keys_redact_key _ _ _ H2 (unique_keys_redact_key _ _ _ H1 Hu)).
      apply (keys_redact_key _ _ _ H1 Hu).
    + intros k' Hup Hcp.
      rewrite (get_redact_key_other _ k' _ _ H2) by congruence.
      apply (get_redact_key_other _ k' _ _ H1). congruence.
Qed.

Lemma passwords_are_masked_at_trimmed_length_witness :
  exists r mask,
    RADIUSResponse_init (Some accept_transcript) 0 = inr r /\
    request_lines accept_transcript
    = [avp_quoted "User-Name" "ahoward"]
      ++ avp_quoted "User-Password" "C1sco12345"
      :: [avp_plain "Service-Type" "Framed";
          avp_plain "NAS-Port-Type" "Ethernet";
          avp_quoted "Cleartext-Password" "C1sco12345"] /\
    MultiDict.get "User-Password" (req_attrs r) = Some (PStr mask) /\
    all_asterisks mask /\
    String.length mask = String.length "C1sco12345" /\
    mask = "**********"%string.
Proof.
  destruct (passwords_are_masked_at_trimmed_length accept_transcript 0 _
              "User-Password" "C1sco12345"
              [avp_quoted "User-Name" "ahoward"]
              [avp_plain "Service-Type" "Framed";
               avp_plain "NAS-Port-Type" "Ethernet";
               avp_quoted "Cleartext-Password" "C1sco12345"]
              eq_refl (or_introl eq_refl) eq_refl)
    as [(mask & core & Hget & Hstars & Htrim & Hlen & Huniq) _].
  - intros line [<- | [<- | [<- | []]]]; vm_compute; reflexivity.
  - assert (Hself : trimmed "C1sco12345" "C1sco12345").
    { exists EmptyString, EmptyString. split; [reflexivity |].
      split; [constructor |]. split; [constructor |].
      split; intros c Hc; inversion Hc; reflexivity. }
    rewrite <- (Huniq _ Hself) in Hlen.
    eexists. exists mask. split; [reflexivity |]. split; [reflexivity |].
    split; [exact Hget |]. split; [exact Hstars |]. split; [exact Hlen |].
    vm_compute in Hget. inversion Hget. reflexivity.
Defined.

(** C6, the claim as stated fails: the password of the request is the
    four characters between the quotes, [abc] and a blank; the
    transcript is parsed, and the request dictionary holds three
    asterisks, not four.  The parser removes quotes and blanks at both
    ends of every value before it stores it. *)
Lemma blank_ended_password_loses_length :
  exists r,
    RADIUSResponse_init (Some blank_ended_password_transcript) 0 = inr r /\
    request_lines blank_ended_password_transcript
    = [avp_quoted "User-Name" "ahoward"; avp_quoted "User-Password" "abc "] /\
    MultiDict.get "User-Password" (req_attrs r) = Some (PStr "***") /\
    String.length "***" <> String.length "abc ".
Proof.
  eexists. split; [reflexivity |]. split; [reflexivity |].
  split; [reflexivity | discriminate].
Qed.

(** *** What the constructor raises *)

Lemma bind_inl {A B : Type} (c : result A) (k : A -> result B) (e : exn) :
  bind c k = inl e -> c = inl e \/ exists a, c = inr a /\ k a = inl e.
Proof.
  destruct c as [e' | a]; simpl; intros H.
  - left. congruence.
  - right. now exists a.
Qed.

Lemma in_remove_all (k : string) (d : MultiDict.t) (kv : string * pyval) :
  In kv (MultiDict.remove_all k d) -> In kv d.
Proof.
  unfold MultiDict.remove_all. intros H. now apply filter_In in H.
Qed.

Lemma in_setitem (k : string) (v : pyval) (d : MultiDict.t) (kv : string * pyval) :
  In kv (MultiDict.setitem k v d) -> kv = (k, v) \/ In kv d.
Proof.
  induction d as [| [k0 v0] d IH]; simpl.
  - intros [H | []]. now left.
  - destruct (String.eqb k0 k); simpl.
    + intros [H | H]; [now left | right; right; now apply in_remove_all in H].
    + intros [H | H]; [right; now left |].
      destruct (IH H); [now left | right; now right].
Qed.

Lemma get_in (k : string) (d : MultiDict.t) (v : pyval) :
  MultiDict.get k d = Some v -> In (k, v) d.
Proof.
  induction d as [| [k0 v0] d IH]; simpl; [discriminate |].
  destruct (String.eqb_spec k0 k) as [-> | Hne].
  - intros H. inversion H. now left.
  - intros H. right. now apply IH.
Qed.

Lemma setitem_str_valued (k s : string) (d : MultiDict.t) :
  str_valued d -> str_valued (MultiDict.setitem k (PStr s) d).
Proof.
  intros Hd k' v' Hin. apply in_setitem in Hin.
  destruct Hin as [Heq | Hin]; [inversion Heq; now exists s | now apply (Hd k')].
Qed.

Lemma sent_loop_str_valued (lines : list string) :
  forall req line rest req',
    str_valued req ->
    sent_loop lines req = inr (line, rest, req') ->
    str_valued req'.
Proof.
  induction lines as [| l lines IH]; simpl; intros req line rest req' Hs H.
  - discriminate.
  - destruct (PyStr.is_empty l); [inversion H; now subst |].
    destruct (PyStr.find "=" l <=? 0)%Z; [inversion H; now subst |].
    apply bind_inr in H. destruct H as [[key val] [_ H]].
    eapply IH; [| exact H]. now apply setitem_str_valued.
Qed.

Lemma received_loop_str_valued (lines : list string) :
  forall rsp rsp',
    str_valued rsp ->
    received_loop lines rsp = inr rsp' ->
    str_valued rsp'.
Proof.
  induction lines as [| l lines IH]; simpl; intros rsp rsp' Hs H.
  - inversion H. now subst.
  - apply bind_inr in H. destruct H as [[key val] [_ H]].
    eapply IH; [| exact H]. now apply setitem_str_valued.
Qed.

Lemma str_valued_empty : str_valued MultiDict.empty.
Proof. intros k v []. Qed.

Lemma parse_sections_str_valued (content : option string) (now : Z) (r : RADIUSResponse) :
  parse_sections content now = inr r ->
  str_valued (req_attrs r) /\ str_valued (rsp_attrs r).
Proof.
  intros H. apply parse_sections_inr in H.
  destruct H as (c & line & lines & sent & line' & lines' & rcvd & H).
  destruct H as (_ & _ & _ & _ & Hs & _ & _ & _ & Hr).
  split.
  - eapply sent_loop_str_valued; [apply str_valued_empty | exact Hs].
  - eapply received_loop_str_valued; [apply str_valued_empty | exact Hr].
Qed.

Lemma redact_key_total (k : string) (d : MultiDict.t) :
  str_valued d ->
  exists d', redact_key k d = inr d' /\ str_valued d'.
Proof.
  intros Hd. unfold redact_key.
  destruct (MultiDict.get k d) as [v |] eqn:Hget.
  - apply get_in in Hget. destruct (Hd k v Hget) as [s ->].
    eexists. split; [reflexivity | now apply setitem_str_valued].
  - now exists d.
Qed.

(** The redaction never raises on what the loops built: the constructor
    returns exactly when the parse of the two sections succeeds. *)
Lemma RADIUSResponse_init_returns (content : option string) (now : Z) :
  (exists r, RADIUSResponse_init content now = inr r)
  <-> (exists raw, parse_sections content now = inr raw).
Proof.
  split.
  - intros [r H]. apply RADIUSResponse_init_inr in H.
    destruct H as (raw & _ & Hraw & _). now exists raw.
  - intros [raw Hraw]. unfold RADIUSResponse_init, redact_passwords.
    rewrite Hraw. cbn [bind].
    destruct (parse_sections_str_valued _ _ _ Hraw) as [Hs _].
    destruct (redact_key_total "User-Password" _ Hs) as (d1 & H1 & Hs1).
    destruct (redact_key_total "Cleartext-Password" _ Hs1) as (d2 & H2 & _).
    rewrite H1. cbn [bind]. rewrite H2. cbn [bind]. now eexists.
Qed.

(** Which exceptions the pieces of the parser raise. *)
Lemma unpack_header_not_timeout (line : string) (e : exn) :
  unpack_header line = inl e -> is_timeout e = false.
Proof.
  unfold unpack_header.
  destruct (PyStr.split PyStr.SPACE line) as [| ? [| ? [| ? [| ? [| ? [| ? [| ? [| ? [| ? [| ? [| ? ?]]]]]]]]]]];
    intros H; inversion H; reflexivity.
Qed.

Lemma unpack_endpoint_not_timeout (endpoint : string) (e : exn) :
  unpack_endpoint endpoint = inl e -> is_timeout e = false.
Proof.
  unfold unpack_endpoint.
  destruct (PyStr.split ":" endpoint) as [| ? [| ? [| ? ?]]];
    intros H; inversion H; reflexivity.
Qed.

Lemma parse_avp_not_timeout (line : string) (e : exn) :
  parse_avp line = inl e -> is_timeout e = false.
Proof.
  unfold parse_avp.
  destruct (PyStr.split1 "=" (PyStr.strip PyStr.is_space line)) as [| ? [| ? [| ? ?]]];
    intros H; inversion H; reflexivity.
Qed.

Lemma sent_loop_not_timeout (lines : list string) :
  forall req e, sent_loop lines req = inl e -> is_timeout e = false.
Proof.
  induction lines as [| l lines IH]; simpl; intros req e H.
  - inversion H. reflexivity.
  - destruct (PyStr.is_empty l); [discriminate |].
    destruct (PyStr.find "=" l <=? 0)%Z; [discriminate |].
    apply bind_inl in H. destruct H as [H | [[key val] [_ H]]].
    + now apply parse_avp_not_timeout in H.
    + now apply IH in H.
Qed.

Lemma received_loop_not_timeout (lines : list string) :
  forall rsp e, received_loop lines rsp = inl e -> is_timeout e = false.
Proof.
  induction lines as [| l lines IH]; simpl; intros rsp e H.
  - discriminate.
  - apply bind_inl in H. destruct H as [H | [[key val] [_ H]]].
    + now apply parse_avp_not_timeout in H.
    + now apply IH in H.
Qed.

Lemma redact_key_not_timeout (k : string) (d : MultiDict.t) (e : exn) :
  redact_key k d = inl e -> is_timeout e = false.
Proof.
  unfold redact_key. destruct (MultiDict.get k d) as [[s | z] |];
    intros H; inversion H; reflexivity.
Qed.

(** X25: the constructor raises [TimeoutError] in one place only, its
    first test: exactly for a text in which the word Received is not
    found past the first character, and with the whole text as payload. *)
Lemma TimeoutError_only_from_find (content : string) (now : Z) (payload : string) :
  RADIUSResponse_init (Some content) now = inl (TimeoutError payload)
  <-> (PyStr.find "Received" content <= 0)%Z /\ payload = content.
Proof.
  split.
  - unfold RADIUSResponse_init, parse_sections.
    destruct (Z.leb_spec (PyStr.find "Received" content) 0) as [Hle | Hlt].
    + unfold raise. cbn [bind]. intros H. inversion H; subst. split; [assumption | reflexivity].
    + intros H. exfalso.
      assert (Hno : is_timeout (TimeoutError payload) = false); [| discriminate].
      apply bind_inl in H. destruct H as [H | [raw [_ H]]].
      * destruct (PyStr.splitlines content) as [| line lines];
          [inversion H; reflexivity |].
        apply bind_inl in H. destruct H as [H | [sent [_ H]]];
          [now apply unpack_header_not_timeout in H |].
        apply bind_inl in H. destruct H as [H | [[? ?] [_ H]]];
          [now apply unpack_endpoint_not_timeout in H |].
        apply bind_inl in H. destruct H as [H | [[? ?] [_ H]]];
          [now apply unpack_endpoint_not_timeout in H |].
        apply bind_inl in H. destruct H as [H | [[[line' lines'] req] [_ H]]];
          [now apply sent_loop_not_timeout in H |].
        apply bind_inl in H. destruct H as [H | [rcvd [_ H]]];
          [now apply unpack_header_not_timeout in H |].
        apply bind_inl in H. destruct H as [H | [[? ?] [_ H]]];
          [now apply unpack_endpoint_not_timeout in H |].
        apply bind_inl in H. destruct H as [H | [[? ?] [_ H]]];
          [now apply unpack_endpoint_not_timeout in H |].
        destruct (negb (str_in (h_type rcvd) RSP_TYPES));
          [inversion H; reflexivity |].
        apply bind_inl in H. destruct H as [H | [rsp [_ H]]];
          [now apply received_loop_not_timeout in H | discriminate].
      * apply bind_inl in H. destruct H as [H | [req [_ H]]]; [| discriminate].
        unfold redact_passwords in H.
        apply bind_inl in H. destruct H as [H | [d1 [_ H]]];
          now apply redact_key_not_timeout in H.
  - intros [Hle ->].
    unfold RADIUSResponse_init, parse_sections.
    destruct (Z.leb_spec (PyStr.find "Received" content) 0) as [_ | Hlt];
      [reflexivity | lia].
Qed.

(** ** Port numbers *)

Lemma randrange_range (start stop draw v : Z) :
  randrange start stop draw = inr v -> (start <= v < stop)%Z.
Proof.
  unfold randrange.
  destruct (Z.leb_spec stop start) as [Hle | Hlt]; [discriminate |].
  intros H. inversion H; subst.
  pose proof (Z.mod_pos_bound draw (stop - start)). lia.
Qed.

Lemma randrange_onto (start stop v : Z) :
  (start <= v < stop)%Z -> randrange start stop (v - start) = inr v.
Proof.
  intros Hv. unfold randrange.
  destruct (Z.leb_spec stop start) as [Hle | Hlt]; [lia |].
  unfold ret. f_equal. rewrite Z.mod_small by lia. lia.
Qed.

Lemma in_py_range (start stop v : Z) :
  In v (py_range start stop) <-> (start <= v < stop)%Z.
Proof.
  unfold py_range. rewrite in_map_iff. split.
  - intros [i [<- Hi]]. apply in_seq in Hi. lia.
  - intros Hv. exists (Z.to_nat (v - start)). split; [lia |].
    apply in_seq. lia.
Qed.

(** The results of [randrange(start, stop)] are the members of
    [range(start, stop)]. *)
Lemma randrange_results (start stop v : Z) :
  (exists draw, randrange start stop draw = inr v) <-> In v (py_range start stop).
Proof.
  rewrite in_py_range. split.
  - intros [draw H]. now apply randrange_range in H.
  - intros Hv. exists (v - start)%Z. now apply randrange_onto.
Qed.

(** What [generate_port] does: for a listed port type every result lies
    between 1 and [max - 1], and each of these numbers is a result. *)
Lemma generate_port_range (type : string) (draw v : Z) :
  generate_port type draw = inr v -> (1 <= v <= port_max type - 1)%Z.
Proof.
  unfold generate_port.
  destruct (str_in type NAS_PORT_TYPES); simpl; [| discriminate].
  intros H. apply randrange_range in H. lia.
Qed.

Lemma generate_port_onto (type : string) (v : Z) :
  In type NAS_PORT_TYPES ->
  (1 <= v <= port_max type - 1)%Z ->
  exists draw, generate_port type draw = inr v.
Proof.
  intros Hin Hv. exists (v - 1)%Z. unfold generate_port.
  apply str_in_In in Hin. rewrite Hin. simpl.
  apply randrange_onto. lia.
Qed.

(** C8, the code at the failing input: the upper end of each range is
    never produced.  No call for an Ethernet port returns 48, none for a
    Wireless-802.11 port returns 1000 and none for a Virtual port returns
    10000, because [randrange(1, max)] excludes [max]. *)
Theorem generate_port_never_returns_max :
  (forall draw, generate_port "Ethernet" draw <> inr 48%Z) /\
  (forall draw, generate_port "Wireless-802.11" draw <> inr 1000%Z) /\
  (forall draw, generate_port "Virtual" draw <> inr 10000%Z).
Proof.
  repeat split; intros draw H; apply generate_port_range in H;
    vm_compute in H; destruct H as [_ H]; apply H; reflexivity.
Qed.

Example generate_port_Ethernet_47 :
  exists draw, generate_port "Ethernet" draw = inr 47%Z.
Proof.
  apply generate_port_onto; [| vm_compute; split; discriminate].
  unfold NAS_PORT_TYPES. simpl. tauto.
Qed.

(** ** The constructor *)

(** C9, the code at the failing input: a timeout of 6 seconds with every
    other argument at its default is refused, and the refusal names the
    log level: the last check of the constructor compares [timeout], not
    [level], with [LOG_MAX]. *)
Theorem timeout_6_is_rejected :
  forall csv,
    RADNAD_init
      (mkArgs NAS_IDENTIFIER_DEFAULT (Some (PStr "1.2.3.4")) (Some "C1sco12345")
         AUTH_PORT_DEFAULT ACCT_PORT_DEFAULT COA_PORT_DEFAULT
         (Some OPTIONS_DEFAULT) RETRIES_DEFAULT 6 0)
      csv
    = inl (ValueError "Invalid verbosity/log level").
Proof. intros csv. reflexivity. Qed.

(** With the other arguments at their defaults and no sessions file the
    constructor accepts exactly the timeouts from 1 to 5. *)
Lemma RADNAD_init_accepts_timeout (t : Z) :
  (exists r,
      RADNAD_init
        (mkArgs NAS_IDENTIFIER_DEFAULT (Some (PStr "1.2.3.4")) (Some "C1sco12345")
           AUTH_PORT_DEFAULT ACCT_PORT_DEFAULT COA_PORT_DEFAULT
           (Some OPTIONS_DEFAULT) RETRIES_DEFAULT t 0)
        None = inr r /\ timeout r = t)
  <-> (1 <= t <= 5)%Z.
Proof.
  unfold RADNAD_init. cbn -[Z.ltb Z.gtb TIMEOUT_MIN TIMEOUT_MAX LOG_MAX].
  unfold TIMEOUT_MIN, TIMEOUT_MAX, LOG_MAX.
  destruct (Z.ltb_spec t 1) as [Hlo | Hlo]; simpl.
  - split; [intros [r [Hr _]]; discriminate | lia].
  - destruct (Z.gtb_spec t 60) as [Hhi | Hhi]; simpl.
    + split; [intros [r [Hr _]]; discriminate | lia].
    + destruct (Z.gtb_spec t 5) as [Hlog | Hlog]; simpl.
      * split; [intros [r [Hr _]]; discriminate | lia].
      * split; [lia |]. intros _. eexists. split; reflexivity.
Qed.

(** ** The session table *)

Module DataFrameFacts.

Import DataFrame.

Lemma drop_nil (df : t) : drop [] df = df.
Proof.
  unfold drop. induction df as [| s df IH]; simpl; [reflexivity | now f_equal].
Qed.

Lemma in_drop (labels : list Z) (df : t) (s : Session) :
  In s (drop labels df) <-> In s df /\ ~ In (Timestamp s) labels.
Proof.
  unfold drop. rewrite filter_In. split; intros [Hin H]; split; try assumption.
  - intros Hl. apply negb_true_iff in H.
    assert (existsb (Z.eqb (Timestamp s)) labels = true); [| congruence].
    apply existsb_exists. exists (Timestamp s). split; [assumption | apply Z.eqb_refl].
  - apply negb_true_iff. destruct (existsb (Z.eqb (Timestamp s)) labels) eqn:E;
      [| reflexivity].
    apply existsb_exists in E. destruct E as [l [Hl Heq]].
    apply Z.eqb_eq in Heq. subst l. contradiction.
Qed.

Lemma drop_drop (l1 l2 : list Z) (df : t) :
  drop l2 (drop l1 df) = drop (l1 ++ l2) df.
Proof.
  unfold drop. induction df as [| s df IH]; simpl; [reflexivity |].
  rewrite existsb_app.
  destruct (existsb (Z.eqb (Timestamp s)) l1); simpl; [assumption |].
  destruct (existsb (Z.eqb (Timestamp s)) l2); simpl; [assumption | now f_equal].
Qed.

Lemma in_index_loc (p : Session -> bool) (df : t) (s : Session) :
  In s df -> p s = true -> In (Timestamp s) (index (loc p df)).
Proof.
  intros Hin Hp. unfold index, loc. apply in_map. now apply filter_In.
Qed.

Lemma len_pos (df : t) : (len df >? 0)%Z = true <-> df <> [].
Proof.
  unfold len. destruct df as [| s df]; split; intros H.
  - discriminate.
  - now contradiction H.
  - discriminate.
  - apply Z.gtb_lt. rewrite length_cons. lia.
Qed.

Lemma id_isin_ids (df : t) (s e : Session) :
  In e df -> Acct_Session_Id s = Acct_Session_Id e ->
  id_isin (map Acct_Session_Id df) s = true.
Proof.
  intros Hin Heq. unfold id_isin. apply existsb_exists.
  exists (Acct_Session_Id e). split; [now apply in_map |].
  rewrite Heq. apply pyval_eqb_refl.
Qed.

End DataFrameFacts.

(** The rows left by the first phase: none is older than the cut-off and
    none shares its [Acct-Session-Id] with a row that is. *)
Lemma after_four_day_drop_survivors (cutoff : Z) (df : DataFrame.t) (x : Session) :
  In x (after_four_day_drop cutoff df) ->
  In x df /\
  (cutoff <= Timestamp x)%Z /\
  forall e, In e df -> (Timestamp e < cutoff)%Z ->
            Acct_Session_Id x <> Acct_Session_Id e.
Proof.
  unfold after_four_day_drop.
  set (df_expired := DataFrame.loc (fun s => (Timestamp s <? cutoff)%Z) df).
  cbv zeta.
  set (labels := DataFrame.index
                   (DataFrame.loc
                      (DataFrame.id_isin (map Acct_Session_Id df_expired)) df)).
  intros Hx.
  assert (Hexp : forall e, In e df -> (Timestamp e < cutoff)%Z -> In e df_expired).
  { intros e He Hlt. apply filter_In. split; [assumption | now apply Z.ltb_lt]. }
  destruct (DataFrame.len df_expired >? 0)%Z eqn:Hlen.
  - apply DataFrameFacts.in_drop in Hx. destruct Hx as [Hin Hnl].
    assert (Hid : forall e, In e df -> (Timestamp e < cutoff)%Z ->
                            Acct_Session_Id x <> Acct_Session_Id e).
    { intros e He Hlt Heq. apply Hnl.
      apply DataFrameFacts.in_index_loc; [assumption |].
      eapply DataFrameFacts.id_isin_ids; [apply (Hexp e He Hlt) | exact Heq]. }
    split; [assumption |]. split; [| exact Hid].
    destruct (Z.le_gt_cases cutoff (Timestamp x)) as [Hle | Hgt]; [assumption |].
    exfalso. now apply (Hid x Hin Hgt).
  - assert (Hnil : df_expired = []).
    { destruct df_expired; [reflexivity | discriminate]. }
    assert (Hnone : forall e, In e df -> ~ (Timestamp e < cutoff)%Z).
    { intros e He Hlt. pose proof (Hexp e He Hlt) as H. rewrite Hnil in H. contradiction. }
    split; [assumption |]. split.
    + destruct (Z.le_gt_cases cutoff (Timestamp x)) as [Hle | Hgt]; [assumption |].
      exfalso. now apply (Hnone x Hx).
    + intros e He Hlt. exfalso. now apply (Hnone e He).
Qed.

Lemma after_four_day_drop_removes (cutoff : Z) (df : DataFrame.t) (e : Session) :
  (Timestamp e < cutoff)%Z -> ~ In e (after_four_day_drop cutoff df).
Proof.
  intros Hlt Hin. apply after_four_day_drop_survivors in Hin. lia.
Qed.

Lemma set_sessions_same (r : RADNAD) : set_sessions r (sessions r) = r.
Proof. now destruct r. Qed.

Lemma set_sessions_twice (r : RADNAD) (d1 d2 : DataFrame.t) :
  set_sessions (set_sessions r d1) d2 = set_sessions r d2.
Proof. reflexivity. Qed.

Lemma stop_cmd_set_sessions (r : RADNAD) (df : DataFrame.t) (s : Session) :
  stop_cmd (set_sessions r df) s = stop_cmd r s.
Proof. reflexivity. Qed.

Lemma session_expired_condition_rows (now : Z) (df : DataFrame.t) :
  forall cond,
    session_expired_condition now df = inr cond -> map fst cond = df.
Proof.
  induction df as [| s df IH]; simpl; intros cond H.
  - inversion H. reflexivity.
  - apply bind_inr in H. destruct H as [b [_ H]].
    apply bind_inr in H. destruct H as [bs [Hbs H]].
    inversion H; subst. simpl. f_equal. now apply IH.
Qed.

Lemma flagged_incl (cond : list (Session * bool)) (x : Session) :
  In x (flagged cond) -> In x (map fst cond).
Proof.
  unfold flagged. intros H. apply in_map_iff in H.
  destruct H as [[s b] [Heq Hin]]. apply filter_In in Hin.
  apply in_map_iff. exists (s, b). intuition.
Qed.

(** ** The engine *)

Section EngineFacts.

Variable World : Type.
Variable shell : string -> World -> (string * string) * World.
Variable clock : World -> Z * World.
Variable random : World -> Z * World.

(** One Stop exchange for a row of the table: the command line for the
    row is handed to the shell, once; the object changes at most in its
    table, from which rows are dropped by label. *)
Lemma acct_stop_by_attrs_row (s : Session) (m : machine World) :
  exists res w labels,
    acct_stop_by_attrs shell clock (Some (stop_attrs s)) m
    = (res,
       mkMachine
         (set_sessions (self m) (DataFrame.drop labels (sessions (self m))))
         w (calls m ++ [stop_cmd (self m) s])).
Proof.
  unfold acct_stop_by_attrs, stop_attrs. cbn [MultiDict.get String.eqb Ascii.eqb Bool.eqb].
  cbv beta iota delta [bindM retM get_self run_shell new_RADIUSResponse now liftM put_self].
  cbn [self world calls].
  fold (stop_attrs s). fold (stop_cmd (self m) s).
  destruct (shell (stop_cmd (self m) s) (world m)) as [[std_out std_err] w1].
  cbn [self world calls].
  destruct (clock w1) as [t w2]. cbn [self world calls].
  destruct (RADIUSResponse_init (Some std_out) t) as [e | response].
  - exists (inl e), w2, []. now rewrite DataFrameFacts.drop_nil, set_sessions_same.
  - destruct (is_accepted response).
    + cbn [self world calls]. eexists. exists w2. eexists. reflexivity.
    + exists (inr response), w2, [].
      now rewrite DataFrameFacts.drop_nil, set_sessions_same.
Qed.


Lemma machine_eta (m : machine World) :
  mkMachine (self m) (world m) (calls m) = m.
Proof. now destruct m. Qed.

(** The loop over the expired rows: the command lines of the rows are
    handed to the shell in order, up to the first exchange that raises;
    a returned list holds one response per row. *)
Lemma stop_each_trace (rows : list Session) :
  forall (acc : list RADIUSResponse) (m : machine World),
  exists res w labels stopped,
    stop_each shell clock rows acc m
    = (res,
       mkMachine
         (set_sessions (self m) (DataFrame.drop labels (sessions (self m))))
         w (calls m ++ map (stop_cmd (self m)) stopped)) /\
    incl stopped rows /\
    (forall responses,
        res = inr responses ->
        stopped = rows /\
        List.length responses = (List.length acc + List.length rows)%nat).
Proof.
  induction rows as [| s rows IH]; intros acc m.
  - exists (inr acc), (world m), [], []. cbn [stop_each map].
    rewrite DataFrameFacts.drop_nil, set_sessions_same, app_nil_r, machine_eta.
    split; [reflexivity |]. split; [apply incl_refl |].
    intros responses H. inversion H; subst. split; [reflexivity | simpl; lia].
  - cbn [stop_each]. unfold bindM at 1.
    destruct (acct_stop_by_attrs_row s m) as (res1 & w1 & labels1 & Hstop).
    rewrite Hstop. destruct res1 as [e | response].
    + exists (inl e), w1, labels1, [s]. split; [reflexivity |].
      split; [intros x [<- | []]; now left |]. intros responses H. discriminate.
    + destruct (IH (acc ++ [response])
                  (mkMachine
                     (set_sessions (self m)
                        (DataFrame.drop labels1 (sessions (self m))))
                     w1 (calls m ++ [stop_cmd (self m) s])))
        as (res & w & labels2 & stopped & Heach & Hincl & Hlen).
      rewrite Heach. cbn [self world calls sessions set_sessions].
      exists res, w, (labels1 ++ labels2), (s :: stopped).
      split.
      * rewrite DataFrameFacts.drop_drop. cbn [map].
        rewrite <- app_assoc. reflexivity.
      * split.
        -- intros x [<- | Hx]; [now left | right; now apply Hincl].
        -- intros responses H. destruct (Hlen responses H) as [-> Hl].
           split; [reflexivity |]. rewrite Hl, length_app. simpl. lia.
Qed.



(** The first phase never raises and touches the table only. *)
Lemma drop_four_day_old_spec (m : machine World) :
  drop_four_day_old clock m
  = (inr tt,
     mkMachine
       (set_sessions (self m)
          (after_four_day_drop (fst (clock (world m)) - FOUR_DAYS)
             (sessions (self m))))
       (snd (clock (world m))) (calls m)).
Proof.
  unfold drop_four_day_old, after_four_day_drop.
  cbv beta iota zeta delta [bindM retM get_self now put_self].
  destruct (clock (world m)) as [t1 w1]. cbn [fst snd self world calls].
  destruct (DataFrame.len _ >? 0)%Z; [reflexivity |].
  now rewrite set_sessions_same.
Qed.

Lemma in_flagged (t : Z) (df : DataFrame.t) :
  forall cond x,
    session_expired_condition t df = inr cond ->
    (In x (flagged cond) <-> In x df /\ session_expired t x = inr true).
Proof.
  induction df as [| s df IH]; simpl; intros cond x H.
  - inversion H; subst. simpl. tauto.
  - apply bind_inr in H. destruct H as [b [Hb H]].
    apply bind_inr in H. destruct H as [bs [Hbs H]].
    inversion H; subst. specialize (IH bs x Hbs).
    unfold flagged in *. simpl. destruct b; simpl.
    + rewrite IH. split.
      * intros [<- | [Hx Hex]]; [split; [now left | assumption] |].
        split; [now right | assumption].
      * intros [[<- | Hx] Hex]; [now left | right; tauto].
    + rewrite IH. split.
      * intros [Hx Hex]. split; [now right | assumption].
      * intros [[<- | Hx] Hex]; [congruence | tauto].
Qed.

(** The second phase: the Stop exchanges are issued for rows of the table
    whose seconds field of the age exceeds their Session-Timeout, in table
    order; when the phase returns, it has issued one for each such row and
    returns one response per exchange. *)
Lemma stop_timed_out_trace (m : machine World) :
  exists res w labels stopped,
    stop_timed_out shell clock m
    = (res,
       mkMachine
         (set_sessions (self m) (DataFrame.drop labels (sessions (self m))))
         w (calls m ++ map (stop_cmd (self m)) stopped)) /\
    (forall x,
        In x stopped ->
        In x (sessions (self m)) /\
        session_expired (fst (clock (world m))) x = inr true) /\
    (forall responses,
        res = inr responses ->
        List.length responses = List.length stopped /\
        forall x,
          In x (sessions (self m)) ->
          session_expired (fst (clock (world m))) x = inr true ->
          In x stopped).
Proof.
  unfold stop_timed_out.
  cbv beta iota zeta delta [bindM retM get_self now liftM].
  assert (Hidle : forall res,
             (res : result (list RADIUSResponse),
              mkMachine (self m) (world m) (calls m))
             = (res,
                mkMachine
                  (set_sessions (self m) (DataFrame.drop [] (sessions (self m))))
                  (world m) (calls m ++ map (stop_cmd (self m)) []))).
  { intros res. cbn [map].
    now rewrite DataFrameFacts.drop_nil, set_sessions_same, app_nil_r. }
  destruct (DataFrame.len (sessions (self m)) <=? 0)%Z eqn:Hlen.
  { exists (inr []), (world m), [], []. rewrite <- Hidle, machine_eta.
    split; [reflexivity |]. split; [intros x [] |].
    intros responses H. inversion H; subst. split; [reflexivity |].
    intros x Hx _. unfold DataFrame.len in Hlen.
    destruct (sessions (self m)); [contradiction | discriminate]. }
  destruct (clock (world m)) as [t2 w2]. cbn [fst self world calls].
  destruct (session_expired_condition t2 (sessions (self m))) as [e | cond] eqn:Hcond.
  { exists (inl e), w2, [], []. cbn [map].
    rewrite DataFrameFacts.drop_nil, set_sessions_same, app_nil_r.
    split; [reflexivity |]. split; [intros x [] |].
    intros responses H. discriminate. }
  pose proof (fun x => in_flagged t2 _ cond x Hcond) as Hflag.
  destruct (DataFrame.len (flagged cond) >? 0)%Z eqn:Hany.
  - destruct (stop_each_trace (flagged cond) []
                (mkMachine (self m) w2 (calls m)))
      as (res & w & labels & stopped & Heach & Hincl & Hres).
    cbn [self world calls] in Heach. rewrite Heach.
    exists res, w, labels, stopped. split; [reflexivity |]. split.
    + intros x Hx. apply Hflag, Hincl, Hx.
    + intros responses H. destruct (Hres responses H) as [-> Hl].
      split; [rewrite Hl; reflexivity |].
      intros x Hx Hex. now apply Hflag.
  - exists (inr []), w2, [], []. cbn [map].
    rewrite DataFrameFacts.drop_nil, set_sessions_same, app_nil_r.
    split; [reflexivity |]. split; [intros x [] |].
    intros responses H. inversion H; subst. split; [reflexivity |].
    intros x Hx Hex. assert (Hf : In x (flagged cond)) by now apply Hflag.
    unfold DataFrame.len in Hany. destruct (flagged cond); [contradiction | discriminate].
Qed.


(** C4: a session whose age at the sweep exceeds four days is gone from
    the table when [stop_expired_sessions] ends, whether the sweep
    returns or raises.  Every Stop exchange of the sweep is issued for a
    row of the table that is not older than four days and whose
    [Acct-Session-Id] differs from that of the dropped session, and the
    returned list holds one response per exchange: none belongs to the
    dropped session. *)
Theorem four_day_old_sessions_dropped_without_stop :
  forall (m : machine World) (s : Session),
    In s (sessions (self m)) ->
    (fst (clock (world m)) - Timestamp s > FOUR_DAYS)%Z ->
    exists res m' stopped,
      stop_expired_sessions shell clock m = (res, m') /\
      ~ In s (sessions (self m')) /\
      calls m' = calls m ++ map (stop_cmd (self m)) stopped /\
      (forall x,
          In x stopped ->
          In x (sessions (self m)) /\
          (fst (clock (world m)) - Timestamp x <= FOUR_DAYS)%Z /\
          Acct_Session_Id x <> Acct_Session_Id s /\
          x <> s) /\
      (forall responses,
          res = inr responses -> List.length responses = List.length stopped).
Proof.
  intros m s Hin Hold.
  unfold stop_expired_sessions, bindM.
  rewrite drop_four_day_old_spec.
  set (t1 := fst (clock (world m))) in *.
  set (df1 := after_four_day_drop (t1 - FOUR_DAYS) (sessions (self m))).
  set (m1 := mkMachine (set_sessions (self m) df1) (snd (clock (world m))) (calls m)).
  assert (Hgone : ~ In s df1).
  { apply after_four_day_drop_removes. lia. }
  destruct (stop_timed_out_trace m1)
    as (res & w & labels & stopped & Hrun & Hrows & Hres).
  rewrite Hrun. subst m1. cbn [self world calls sessions set_sessions] in *.
  eexists. eexists. exists stopped. split; [reflexivity |].
  cbn [self calls sessions set_sessions].
  split; [| split; [reflexivity | split]].
  - intros H. apply DataFrameFacts.in_drop in H. now destruct H.
  - intros x Hx. destruct (Hrows x Hx) as [Hx1 _].
    destruct (after_four_day_drop_survivors _ _ _ Hx1) as (Hxin & Hxt & Hxid).
    split; [assumption |]. split; [lia |].
    split; [apply Hxid; [assumption | lia] |].
    intros ->. contradiction.
  - intros responses H. now destruct (Hres responses H).
Qed.


(** The rows flagged by the comparison are the rows of the table whose
    seconds field exceeds the timeout, in table order. *)
Lemma flagged_filter (t : Z) (df : DataFrame.t) :
  forall cond,
    session_expired_condition t df = inr cond ->
    flagged cond = filter (timed_out t) df.
Proof.
  induction df as [| s df IH]; simpl; intros cond H.
  - inversion H; subst. reflexivity.
  - apply bind_inr in H. destruct H as [b [Hb H]].
    apply bind_inr in H. destruct H as [bs [Hbs H]].
    inversion H; subst. specialize (IH bs Hbs).
    unfold flagged in *. cbn [filter snd map].
    unfold session_expired in Hb. unfold timed_out at 1.
    destruct (Session_Timeout s) as [u | tmo]; [discriminate |].
    inversion Hb as [Hb']. 
    destruct (td_seconds (t - Timestamp s) >? tmo)%Z; cbn [map fst]; now rewrite IH.
Qed.

(** The loop over the expired rows hands the command lines of a leading
    part of the rows to the shell, in their order, each once: of all the
    rows when it returns, and up to the row whose exchange raised
    otherwise. *)
Lemma stop_each_prefix (rows : list Session) :
  forall (acc : list RADIUSResponse) (m : machine World),
  exists res w labels k,
    stop_each shell clock rows acc m
    = (res,
       mkMachine
         (set_sessions (self m) (DataFrame.drop labels (sessions (self m))))
         w (calls m ++ map (stop_cmd (self m)) (firstn k rows))) /\
    (forall responses,
        res = inr responses ->
        firstn k rows = rows /\
        List.length responses = (List.length acc + List.length rows)%nat).
Proof.
  induction rows as [| s rows IH]; intros acc m.
  - exists (inr acc), (world m), [], O. cbn [stop_each map firstn].
    rewrite DataFrameFacts.drop_nil, set_sessions_same, app_nil_r, machine_eta.
    split; [reflexivity |].
    intros responses H. inversion H; subst. split; [reflexivity | simpl; lia].
  - cbn [stop_each]. unfold bindM at 1.
    destruct (acct_stop_by_attrs_row s m) as (res1 & w1 & labels1 & Hstop).
    rewrite Hstop. destruct res1 as [e | response].
    + exists (inl e), w1, labels1, 1%nat. split; [reflexivity |].
      intros responses H. discriminate.
    + destruct (IH (acc ++ [response])
                  (mkMachine
                     (set_sessions (self m)
                        (DataFrame.drop labels1 (sessions (self m))))
                     w1 (calls m ++ [stop_cmd (self m) s])))
        as (res & w & labels2 & k & Heach & Hlen).
      rewrite Heach. cbn [self world calls sessions set_sessions].
      exists res, w, (labels1 ++ labels2), (S k).
      split.
      * rewrite DataFrameFacts.drop_drop. cbn [map firstn].
        rewrite <- app_assoc. reflexivity.
      * intros responses H. destruct (Hlen responses H) as [Hk Hl].
        split; [cbn [firstn]; now rewrite Hk |].
        rewrite Hl, length_app. simpl. lia.
Qed.

(** X26: the Stop exchanges of a sweep.  The rows due are the rows left
    by the four-day drop whose seconds field of the age, taken at the
    second reading of the clock, exceeds their integer Session-Timeout,
    in table order.  Whatever the outcome, the commands the sweep hands
    to the shell are the Stop commands of a leading part of the rows
    due, in table order and one per row; a sweep that returns has issued
    the Stop of every row due, in that order, and returns one response
    per Stop. *)
Theorem sweep_stops_in_table_order (m : machine World) :
  let t1 := fst (clock (world m)) in
  let t2 := fst (clock (snd (clock (world m)))) in
  let due :=
    filter (timed_out t2)
      (after_four_day_drop (t1 - FOUR_DAYS) (sessions (self m))) in
  let out := stop_expired_sessions shell clock m in
  (exists k,
      calls (snd out) = calls m ++ map (stop_cmd (self m)) (firstn k due)) /\
  (forall responses,
      fst out = inr responses ->
      calls (snd out) = calls m ++ map (stop_cmd (self m)) due /\
      List.length responses = List.length due).
Proof.
  intros t1 t2 due out. subst out.
  unfold stop_expired_sessions, bindM.
  rewrite drop_four_day_old_spec.
  fold t1.
  set (df1 := after_four_day_drop (t1 - FOUR_DAYS) (sessions (self m))) in *.
  unfold stop_timed_out.
  cbv beta iota zeta delta [bindM retM get_self now liftM].
  cbn [self world calls sessions set_sessions].
  destruct (DataFrame.len df1 <=? 0)%Z eqn:Hlen.
  { assert (Hnil : df1 = []).
    { unfold DataFrame.len in Hlen. destruct df1; [reflexivity | discriminate]. }
    assert (Hdue : due = []) by (unfold due; now rewrite Hnil).
    cbn [fst snd calls]. rewrite Hdue. split.
    - exists O. cbn [firstn map]. now rewrite app_nil_r.
    - intros responses H. inversion H; subst. cbn [map]. now rewrite app_nil_r. }
  change (world (mkMachine (set_sessions (self m) df1) (snd (clock (world m)))
                   (calls m)))
    with (snd (clock (world m))).
  change (self (mkMachine (set_sessions (self m) df1) (snd (clock (world m)))
                  (calls m)))
    with (set_sessions (self m) df1).
  change (calls (mkMachine (set_sessions (self m) df1) (snd (clock (world m)))
                   (calls m)))
    with (calls m).
  destruct (clock (snd (clock (world m)))) as [t2' w2] eqn:Hclock.
  cbn [fst] in t2. subst t2.
  destruct (session_expired_condition t2' df1) as [e | cond] eqn:Hcond.
  { cbn [fst snd calls]. split.
    - exists O. cbn [firstn map]. now rewrite app_nil_r.
    - intros responses H. discriminate. }
  rewrite (flagged_filter t2' df1 cond Hcond). fold due.
  cbn [self world calls].
  destruct (DataFrame.len due >? 0)%Z eqn:Hany.
  - destruct (stop_each_prefix due []
                (mkMachine (set_sessions (self m) df1) w2 (calls m)))
      as (res & w & labels & k & Heach & Hres).
    rewrite Heach. cbn [fst snd self calls]. split.
    + exists k. reflexivity.
    + intros responses H. destruct (Hres responses H) as [Hk Hl].
      rewrite Hk. split; [reflexivity | exact Hl].
  - assert (Hdue : due = []).
    { unfold DataFrame.len in Hany. destruct due; [reflexivity | discriminate]. }
    cbn [fst snd calls]. rewrite Hdue. split.
    + exists O. cbn [firstn map]. now rewrite app_nil_r.
    + intros responses H. inversion H; subst. cbn [map]. now rewrite app_nil_r.
Qed.

(** C10, amended: for an authentication record whose response type is
    Access-Reject, [acct] leaves the machine as it was, whatever the state
    argument: no command is handed to the shell and the table, the
    counter, the clock and the generator are untouched.  It returns the
    record itself when the record holds at least one request attribute,
    and raises [ValueError] when it holds none. *)
Theorem acct_of_rejected_auth_returns_it :
  forall (auth : RADIUSResponse) (state : string) (m : machine World),
    rsp_type auth = ACCESS_REJECT ->
    acct shell clock random (Some auth) state m
    = (match req_attrs auth with
       | [] => inl (ValueError "auth.req_attrs is empty")
       | _ :: _ => inr auth
       end, m).
Proof.
  intros auth state m Hrej.
  unfold acct, MultiDict.len.
  destruct (req_attrs auth) as [| kv rest]; [reflexivity |].
  destruct (Z.leb_spec (Z.of_nat (List.length (kv :: rest))) 0) as [Hle | Hlt].
  - rewrite length_cons in Hle. lia.
  - rewrite Hrej, String.eqb_refl. reflexivity.
Qed.

End EngineFacts.

Section RoundTrip.

Variable World : Type.
Variable shell : string -> World -> (string * string) * World.
Variable clock : World -> Z * World.

Lemma filter_none {A : Type} (p : A -> bool) (l : list A) :
  (forall x, In x l -> p x = false) -> filter p l = [].
Proof.
  induction l as [| a l IH]; simpl; intros H; [reflexivity |].
  rewrite (H a (or_introl eq_refl)). apply IH. intros x Hx. apply H. now right.
Qed.

Lemma filter_all {A : Type} (p : A -> bool) (l : list A) :
  (forall x, In x l -> p x = true) -> filter p l = l.
Proof.
  induction l as [| a l IH]; simpl; intros H; [reflexivity |].
  rewrite (H a (or_introl eq_refl)). f_equal. apply IH. intros x Hx. apply H. now right.
Qed.

(** With unique index labels and unique session ids the drop of
    [acct_stop_by_attrs] removes the row of the id and no other. *)
Lemma drop_by_id_unique_labels (l1 l2 : list Session) (row : Session) :
  NoDup (DataFrame.index (l1 ++ row :: l2)) ->
  (forall y, In y (l1 ++ l2) -> Acct_Session_Id y <> Acct_Session_Id row) ->
  DataFrame.drop
    (DataFrame.index
       (DataFrame.loc (DataFrame.id_is (Some (Acct_Session_Id row)))
          (l1 ++ row :: l2)))
    (l1 ++ row :: l2)
  = l1 ++ l2.
Proof.
  intros Hnd Hid.
  assert (Hloc : DataFrame.loc (DataFrame.id_is (Some (Acct_Session_Id row)))
                   (l1 ++ row :: l2) = [row]).
  { unfold DataFrame.loc. rewrite filter_app. cbn [filter DataFrame.id_is].
    rewrite pyval_eqb_refl.
    rewrite !filter_none; [reflexivity | |].
    - intros x Hx. unfold DataFrame.id_is.
      destruct (pyval_eqb_spec (Acct_Session_Id x) (Acct_Session_Id row));
        [| reflexivity].
      exfalso. apply (Hid x); [apply in_or_app; tauto | assumption].
    - intros x Hx. unfold DataFrame.id_is.
      destruct (pyval_eqb_spec (Acct_Session_Id x) (Acct_Session_Id row));
        [| reflexivity].
      exfalso. apply (Hid x); [apply in_or_app; tauto | assumption]. }
  rewrite Hloc. unfold DataFrame.index in *. cbn [map].
  rewrite map_app in Hnd. cbn [map] in Hnd.
  pose proof (NoDup_remove_2 _ _ _ Hnd) as Hnot.
  unfold DataFrame.drop. rewrite filter_app. cbn [filter existsb].
  rewrite Z.eqb_refl. cbn [orb negb].
  rewrite !filter_all; [reflexivity | |].
  - intros x Hx. cbn [existsb]. rewrite orb_false_r.
    destruct (Z.eqb_spec (Timestamp x) (Timestamp row)) as [Heq | Hne]; [| reflexivity].
    exfalso. apply Hnot. rewrite <- Heq. apply in_or_app.
    pose proof (in_map Timestamp _ _ Hx). tauto.
  - intros x Hx. cbn [existsb]. rewrite orb_false_r.
    destruct (Z.eqb_spec (Timestamp x) (Timestamp row)) as [Heq | Hne]; [| reflexivity].
    exfalso. apply Hnot. rewrite <- Heq. apply in_or_app.
    pose proof (in_map Timestamp _ _ Hx). tauto.
Qed.

(** [create_session] appends one row and nothing else changes. *)
Lemma create_session_appends (response : RADIUSResponse) (m : machine World) :
  rsp_type response = ACCOUNTING_RESPONSE ->
  create_session response m
  = (inr (set_req_attrs response (snd (session_row response))),
     mkMachine
       (set_sessions (self m)
          (sessions (self m) ++ [fst (session_row response)]))
       (world m) (calls m)).
Proof.
  intros Hty. unfold create_session. rewrite Hty, String.eqb_refl. cbn [negb].
  destruct (session_row response) as [row rest].
  reflexivity.
Qed.

(** X27: the Stop half of the round trip where the table keeps its promise of
    unique start timestamps and unique session ids: an accepted Stop for
    a row removes that row and leaves every other row in place. *)
Lemma accepted_stop_removes_the_session
  (m : machine World) (l1 l2 : list Session) (row : Session)
  (out err : string) (w1 w2 : World) (t : Z) (stop : RADIUSResponse) :
  sessions (self m) = l1 ++ row :: l2 ->
  NoDup (DataFrame.index (sessions (self m))) ->
  (forall y, In y (l1 ++ l2) -> Acct_Session_Id y <> Acct_Session_Id row) ->
  shell (stop_cmd (self m) row) (world m) = ((out, err), w1) ->
  clock w1 = (t, w2) ->
  RADIUSResponse_init (Some out) t = inr stop ->
  is_accepted stop = true ->
  acct_stop_by_attrs shell clock (Some (stop_attrs row)) m
  = (inr stop,
     mkMachine (set_sessions (self m) (l1 ++ l2)) w2
       (calls m ++ [stop_cmd (self m) row])).
Proof.
  intros Hdf Hnd Hid Hshell Hclock Hparse Hacc.
  unfold acct_stop_by_attrs, stop_attrs.
  cbn [MultiDict.get String.eqb Ascii.eqb Bool.eqb].
  cbv beta iota delta [bindM retM get_self run_shell new_RADIUSResponse now liftM put_self].
  cbn [self world calls].
  fold (stop_attrs row). fold (stop_cmd (self m) row).
  rewrite Hshell. cbn [self world calls]. rewrite Hclock. cbn [self world calls].
  rewrite Hparse, Hacc. cbn [self world calls].
  change (MultiDict.get "Acct-Session-Id" (stop_attrs row))
    with (Some (Acct_Session_Id row)).
  rewrite Hdf in *. now rewrite drop_by_id_unique_labels.
Qed.

(** Without the promise of unique timestamps an accepted Stop removes
    every row whose index label is the label of a row of the session id. *)
Lemma accepted_stop_drops_by_label
  (m : machine World) (row : Session)
  (out err : string) (w1 w2 : World) (t : Z) (stop : RADIUSResponse) :
  shell (stop_cmd (self m) row) (world m) = ((out, err), w1) ->
  clock w1 = (t, w2) ->
  RADIUSResponse_init (Some out) t = inr stop ->
  is_accepted stop = true ->
  exists m',
    acct_stop_by_attrs shell clock (Some (stop_attrs row)) m = (inr stop, m') /\
    forall x,
      In x (sessions (self m')) <->
      In x (sessions (self m)) /\
      forall y, In y (sessions (self m)) ->
                Acct_Session_Id y = Acct_Session_Id row ->
                Timestamp y <> Timestamp x.
Proof.
  intros Hshell Hclock Hparse Hacc.
  unfold acct_stop_by_attrs, stop_attrs.
  cbn [MultiDict.get String.eqb Ascii.eqb Bool.eqb].
  cbv beta iota delta [bindM retM get_self run_shell new_RADIUSResponse now liftM put_self].
  cbn [self world calls].
  fold (stop_attrs row). fold (stop_cmd (self m) row).
  rewrite Hshell. cbn [self world calls]. rewrite Hclock. cbn [self world calls].
  rewrite Hparse, Hacc. cbn [self world calls].
  change (MultiDict.get "Acct-Session-Id" (stop_attrs row))
    with (Some (Acct_Session_Id row)).
  eexists. split; [reflexivity |]. cbn [self sessions set_sessions].
  intros x. rewrite DataFrameFacts.in_drop.
  unfold DataFrame.index, DataFrame.loc, DataFrame.id_is.
  split; intros [Hx Hl]; (split; [assumption |]).
  - intros y Hy Hid Heq. apply Hl. rewrite <- Heq. apply in_map.
    apply filter_In. split; [assumption |]. rewrite Hid. apply pyval_eqb_refl.
  - intros Hin. apply in_map_iff in Hin. destruct Hin as [y [Heq Hy]].
    apply filter_In in Hy. destruct Hy as [Hy Hid].
    destruct (pyval_eqb_spec (Acct_Session_Id y) (Acct_Session_Id row)); [| discriminate].
    now apply (Hl y).
Qed.

End RoundTrip.

(** ** Durations *)

(** For an age between zero and one day the seconds field is the age in
    whole seconds; one day later it starts again from zero. *)
Lemma td_seconds_within_a_day (delta : Z) :
  (0 <= delta < DAY)%Z -> td_seconds delta = td_total_seconds delta.
Proof.
  intros H. unfold td_seconds, td_total_seconds. now rewrite Z.mod_small.
Qed.

Lemma td_seconds_wraps (delta : Z) :
  td_seconds (delta + DAY) = td_seconds delta.
Proof.
  unfold td_seconds.
  replace (delta + DAY)%Z with (delta + 1 * DAY)%Z by lia.
  rewrite Z.mod_add; [reflexivity | discriminate].
Qed.

Lemma td_seconds_bound (delta : Z) : (0 <= td_seconds delta < DAY_SECONDS)%Z.
Proof.
  unfold td_seconds, DAY.
  pose proof (Z.mod_pos_bound delta (DAY_SECONDS * MICROSECONDS) eq_refl) as Hm.
  split.
  - apply Z.div_pos; [lia | reflexivity].
  - apply Z.div_lt_upper_bound; [reflexivity | lia].
Qed.

(** ** Runs of the engine in scripted worlds *)

Lemma four_day_old_sessions_dropped_without_stop_witness :
  let m := script_machine (nad_with [aged_session (5 * DAY_SECONDS)] (PInt 1))
             (sweep_world []) in
  let s := aged_session (5 * DAY_SECONDS) in
  In s (sessions (self m)) /\
  (fst (script_clock (world m)) - Timestamp s > FOUR_DAYS)%Z /\
  exists res m' stopped,
    stop_expired_sessions script_shell script_clock m = (res, m') /\
    ~ In s (sessions (self m')) /\
    calls m' = calls m ++ map (stop_cmd (self m)) stopped /\
    (forall x,
        In x stopped ->
        In x (sessions (self m)) /\
        (fst (script_clock (world m)) - Timestamp x <= FOUR_DAYS)%Z /\
        Acct_Session_Id x <> Acct_Session_Id s /\
        x <> s) /\
    (forall responses,
        res = inr responses -> List.length responses = List.length stopped).
Proof.
  intros m s.
  assert (Hin : In s (sessions (self m))) by (left; reflexivity).
  assert (Hold : (fst (script_clock (world m)) - Timestamp s > FOUR_DAYS)%Z)
    by reflexivity.
  split; [exact Hin |]. split; [exact Hold |].
  exact (four_day_old_sessions_dropped_without_stop
           Script script_shell script_clock m s Hin Hold).
Defined.

Lemma acct_of_rejected_auth_returns_it_witness :
  let auth := parsed reject_transcript 0 in
  let m := script_machine nad same_millisecond_world in
  rsp_type auth = ACCESS_REJECT /\
  acct script_shell script_clock script_random (Some auth) ACCT_START m
  = (inr auth, m).
Proof.
  intros auth m.
  assert (Hrej : rsp_type auth = ACCESS_REJECT) by reflexivity.
  split; [exact Hrej |].
  exact (acct_of_rejected_auth_returns_it
           Script script_shell script_clock script_random
           auth ACCT_START m Hrej).
Defined.

(** C10, the claim as stated fails: the record parsed from a rejected
    exchange whose Sent section lists no attribute is an authentication
    record with response type Access-Reject, and [acct] does not return
    it: the check of the request attributes comes first and raises. *)
Lemma acct_of_bare_reject_raises :
  let auth := parsed bare_reject_transcript 0 in
  RADIUSResponse_init (Some bare_reject_transcript) 0 = inr auth /\
  is_auth auth = true /\
  rsp_type auth = ACCESS_REJECT /\
  forall state m,
    acct script_shell script_clock script_random (Some auth) state m
    = (inl (ValueError "auth.req_attrs is empty"), m).
Proof.
  repeat split.
Qed.

(** The two textbook cases of the expiration policy: with
    [Session-Timeout] 60 a session of age 61 seconds is stopped and one of
    age 59 seconds is not. *)
Example sweep_stops_age_61 :
  let m := script_machine (nad_with [aged_session 61] (PInt 1)) (sweep_world ["1"]) in
  exists response m',
    stop_expired_sessions script_shell script_clock m = (inr [response], m') /\
    calls m' = [stop_cmd (self m) (aged_session 61)] /\
    is_accepted response = true /\
    sessions (self m') = [].
Proof.
  eexists. eexists. split; [vm_compute; reflexivity |]. repeat split.
Qed.

Example sweep_spares_age_59 :
  let m := script_machine (nad_with [aged_session 59] (PInt 1)) (sweep_world ["1"]) in
  exists m',
    stop_expired_sessions script_shell script_clock m = (inr [], m') /\
    calls m' = [] /\
    sessions (self m') = [aged_session 59].
Proof.
  eexists. split; [vm_compute; reflexivity |]. repeat split.
Qed.

(** C3, the code at the failing input: a session with [Session-Timeout]
    60 that began one day and 30 seconds before the sweep survives the
    four-day drop and its age of 86430 seconds exceeds its timeout, yet
    no Stop exchange is issued for it and it stays in the table.  The
    sweep compares the seconds field of the age, here 30, with the
    timeout. *)
Theorem sweep_spares_session_one_day_over :
  let s := aged_session (DAY_SECONDS + 30) in
  let m := script_machine (nad_with [s] (PInt 1)) (sweep_world ["1"]) in
  (SWEEP - Timestamp s <= FOUR_DAYS)%Z /\
  td_total_seconds (SWEEP - Timestamp s) = 86430%Z /\
  Session_Timeout s = PInt 60 /\
  td_seconds (SWEEP - Timestamp s) = 30%Z /\
  exists m',
    stop_expired_sessions script_shell script_clock m = (inr [], m') /\
    calls m' = [] /\
    sessions (self m') = [s].
Proof.
  intros s m. split; [vm_compute; discriminate |].
  repeat (split; [reflexivity |]).
  eexists. split; [vm_compute; reflexivity |]. split; reflexivity.
Qed.

(** C1, the code at the failing input: the table holds the live session
    1.  A session is run whose accounting Start is answered within the
    millisecond of the start of session 1: it commits one row, session 2,
    under the same index label.  The accepted Stop carrying the
    [Acct-Session-Id], [User-Name] and [Calling-Station-Id] of session 2
    then empties the table: session 1 is dropped with it, and the table
    has no row where it had one before the Start. *)
Theorem stop_drops_every_session_of_the_timestamp :
  let m0 := script_machine (nad_with [older_session] (PInt 1))
              same_millisecond_world in
  exists start m1 stop m2,
    session script_shell script_clock script_random (Some dot1x_attrs) m0
    = (inr start, m1) /\
    rsp_type start = ACCOUNTING_RESPONSE /\
    sessions (self m1) = [older_session; session_2] /\
    Timestamp session_2 = Timestamp older_session /\
    Acct_Session_Id session_2 <> Acct_Session_Id older_session /\
    acct_stop_by_attrs script_shell script_clock (Some (stop_attrs session_2)) m1
    = (inr stop, m2) /\
    is_accepted stop = true /\
    sessions (self m2) = [] /\
    DataFrame.len (sessions (self m0)) = 1%Z /\
    DataFrame.len (sessions (self m2)) = 0%Z.
Proof.
  intros m0. eexists. eexists. eexists. eexists.
  split; [vm_compute; reflexivity |].
  split; [reflexivity |]. split; [reflexivity |]. split; [reflexivity |].
  split; [discriminate |].
  split; [vm_compute; reflexivity |].
  repeat split.
Qed.

(* ===================================================================== *)
(** * Part III.  Further properties of the module                         *)
(* ===================================================================== *)

(** ** [MultiDict.update] and [MultiDict.pop] on dictionaries of unique keys *)

Module UpdateFacts.

Import MultiDict.

Lemma position_none (k : string) (d : t) :
  position k d = None <-> ~ In k (keys d).
Proof.
  induction d as [| [k0 v0] d IH]; simpl.
  - tauto.
  - destruct (String.eqb_spec k0 k) as [-> | Hne].
    + split; [discriminate | intros H; exfalso; apply H; now left].
    + destruct (position k d); simpl.
      * split; [discriminate |]. intros H.
        assert (Hn : Some n = None) by (apply IH; intros Hin; apply H; now right).
        discriminate.
      * split; [| reflexivity]. intros _ [H | H]; [contradiction |].
        now apply (proj1 IH).
Qed.

Lemma position_some_lt (k : string) (d : t) (i : nat) :
  position k d = Some i -> (i < List.length d)%nat.
Proof.
  revert i. induction d as [| [k0 v0] d IH]; simpl; intros i H; [discriminate |].
  destruct (String.eqb k0 k).
  - inversion H. lia.
  - destruct (position k d) as [j |]; simpl in H; [| discriminate].
    inversion H. specialize (IH j eq_refl). lia.
Qed.

Lemma setitem_absent (k : string) (v : pyval) (d : t) :
  position k d = None -> setitem k v d = d ++ [(k, v)].
Proof.
  induction d as [| [k0 v0] d IH]; simpl; intros H; [reflexivity |].
  destruct (String.eqb k0 k); [discriminate |].
  destruct (position k d); [discriminate |]. now rewrite IH.
Qed.

Lemma position_app_absent (k : string) (v : pyval) (d : t) :
  position k d = None -> position k (d ++ [(k, v)]) = Some (List.length d).
Proof.
  induction d as [| [k0 v0] d IH]; simpl; intros H.
  - now rewrite String.eqb_refl.
  - destruct (String.eqb k0 k); [discriminate |].
    destruct (position k d); [discriminate |]. now rewrite IH.
Qed.

Lemma position_app_other (k k' : string) (v : pyval) (d : t) (i : nat) :
  position k' d = Some i -> position k' (d ++ [(k, v)]) = Some i.
Proof.
  revert i. induction d as [| [k0 v0] d IH]; simpl; intros i H; [discriminate |].
  destruct (String.eqb k0 k'); [assumption |].
  destruct (position k' d) as [j |]; [| discriminate].
  now rewrite (IH j eq_refl).
Qed.

(** On unique keys item assignment keeps every entry in its place. *)
Lemma position_setitem_same (k : string) (v : pyval) (d : t) :
  position k (setitem k v d)
  = Some (match position k d with Some i => i | None => List.length d end).
Proof.
  induction d as [| [k0 v0] d IH]; simpl.
  - now rewrite String.eqb_refl.
  - destruct (String.eqb k0 k) eqn:E; simpl.
    + now rewrite String.eqb_refl.
    + rewrite E, IH. now destruct (position k d).
Qed.

Lemma position_setitem_other (k k' : string) (v : pyval) (d : t) (i : nat) :
  unique_keys d -> k <> k' ->
  position k' d = Some i -> position k' (setitem k v d) = Some i.
Proof.
  unfold unique_keys. revert i.
  induction d as [| [k0 v0] d IH]; simpl; intros i Hu Hne H; [discriminate |].
  inversion Hu as [| ? ? Hnin Hu']; subst.
  destruct (String.eqb_spec k0 k) as [-> | Hk]; simpl.
  - destruct (String.eqb_spec k k'); [contradiction |].
    now rewrite MultiDictFacts.keys_remove_all_absent.
  - destruct (String.eqb k0 k'); [assumption |].
    destruct (position k' d) as [j |]; [| discriminate].
    now rewrite (IH j Hu' Hne eq_refl).
Qed.

Lemma replace_from_setitem (k : string) (v : pyval) (d : t) (off : nat) :
  unique_keys d ->
  replace_from k v O off d
  = option_map (fun i => (setitem k v d, (off + i)%nat)) (position k d).
Proof.
  unfold unique_keys. revert off.
  induction d as [| [k0 v0] d IH]; simpl; intros off Hu; [reflexivity |].
  inversion Hu as [| ? ? Hnin Hu']; subst.
  destruct (String.eqb_spec k0 k) as [-> | Hk]; simpl.
  - rewrite MultiDictFacts.keys_remove_all_absent by assumption.
    now rewrite Nat.add_0_r.
  - rewrite (IH (S off) Hu'). destruct (position k d) as [i |]; simpl; [| reflexivity].
    now rewrite Nat.add_succ_r.
Qed.

Lemma used_get_set_same (k : string) (n : nat) (u : used_keys) :
  used_get k (used_set k n u) = Some n.
Proof.
  induction u as [| [k0 m] u IH]; simpl.
  - now rewrite String.eqb_refl.
  - destruct (String.eqb k0 k) eqn:E; simpl; [now rewrite String.eqb_refl |].
    now rewrite E.
Qed.

Lemma used_get_set_other (k k' : string) (n : nat) (u : used_keys) :
  k <> k' -> used_get k' (used_set k n u) = used_get k' u.
Proof.
  intros Hne. induction u as [| [k0 m] u IH]; simpl.
  - destruct (String.eqb_spec k k'); [contradiction | reflexivity].
  - destruct (String.eqb_spec k0 k) as [-> | Hk]; simpl.
    + destruct (String.eqb_spec k k'); [contradiction | reflexivity].
    + destruct (String.eqb k0 k'); [reflexivity | assumption].
Qed.

(** One incoming pair of a key not used before: the step of [update] is
    item assignment, and the bookkeeping stays right. *)
Lemma update_one_setitem (d : t) (u : used_keys) (k : string) (v : pyval) :
  unique_keys d -> used_in_place d u -> used_get k u = None ->
  exists n,
    update_one (d, u) (k, v) = (setitem k v d, used_set k n u) /\
    used_in_place (setitem k v d) (used_set k n u).
Proof.
  intros Hu Hinv Hk. unfold update_one. rewrite Hk.
  rewrite (replace_from_setitem k v d O Hu).
  assert (Hplace : forall n,
             position k (setitem k v d) = Some (pred n) -> (0 < n)%nat ->
             used_in_place (setitem k v d) (used_set k n u)).
  { intros n Hpos Hn k' n' H'.
    destruct (String.eqb_spec k k') as [<- | Hne].
    - rewrite used_get_set_same in H'. inversion H'; subst. now split.
    - rewrite used_get_set_other in H' by assumption.
      destruct (Hinv k' n' H') as [Hp Hn']. split; [| assumption].
      now apply position_setitem_other. }
  pose proof (position_setitem_same k v d) as Hsame.
  destruct (position k d) as [i |] eqn:Hpos; simpl.
  - exists (S i). split; [reflexivity |]. apply Hplace; [assumption | lia].
  - exists (S (List.length d)). rewrite (setitem_absent k v d Hpos).
    split; [reflexivity |]. rewrite <- (setitem_absent k v d Hpos).
    apply Hplace; [assumption | lia].
Qed.

Lemma fold_update_one (other : t) :
  forall d u,
    unique_keys d -> unique_keys other -> used_in_place d u ->
    (forall k, In k (keys other) -> used_get k u = None) ->
    exists u',
      fold_left update_one other (d, u) = (assign_all d other, u') /\
      used_in_place (assign_all d other) u'.
Proof.
  unfold assign_all.
  induction other as [| [k v] other IH]; cbn [fold_left fst snd];
    intros d u Hd Ho Hinv Hfresh.
  - now exists u.
  - unfold unique_keys in Ho. cbn [keys map fst] in Ho.
    inversion Ho as [| ? ? Hnin Ho']; subst.
    destruct (update_one_setitem d u k v Hd Hinv (Hfresh k (or_introl eq_refl)))
      as (n & Hstep & Hinv').
    rewrite Hstep. apply IH.
    + now apply MultiDictFacts.setitem_unique_keys.
    + assumption.
    + assumption.
    + intros k' Hk'. rewrite used_get_set_other.
      * apply Hfresh. cbn [keys map fst]. now right.
      * intros ->. contradiction.
Qed.

Lemma position_app_head (k : string) (v : pyval) (l1 l2 : t) :
  ~ In k (keys l1) -> position k (l1 ++ (k, v) :: l2) = Some (List.length l1).
Proof.
  induction l1 as [| [k0 v0] l1 IH]; simpl; intros H.
  - now rewrite String.eqb_refl.
  - destruct (String.eqb_spec k0 k) as [-> | Hne]; [exfalso; apply H; now left |].
    rewrite IH; [reflexivity |]. intros Hin. apply H. now right.
Qed.

(** With the bookkeeping right and the keys unique the tail sweep of
    [update] drops nothing. *)
Lemma drop_tails_keeps (u : used_keys) (l2 : t) :
  forall l1,
    unique_keys (l1 ++ l2) -> used_in_place (l1 ++ l2) u ->
    drop_tails u (List.length l1) l2 = l2.
Proof.
  unfold unique_keys.
  induction l2 as [| [k v] l2 IH]; simpl; intros l1 Hu Hinv; [reflexivity |].
  assert (Hnin : ~ In k (keys l1)).
  { unfold keys in *. rewrite map_app in Hu. simpl in Hu.
    apply NoDup_remove_2 in Hu. intros H. apply Hu. apply in_or_app. now left. }
  assert (Hrest : drop_tails u (S (List.length l1)) l2 = l2).
  { specialize (IH (l1 ++ [(k, v)])).
    rewrite length_app, Nat.add_1_r in IH. rewrite <- app_assoc in IH.
    now apply IH. }
  destruct (used_get k u) as [pos |] eqn:Hpos.
  - destruct (Hinv k pos Hpos) as [Hp Hn].
    rewrite (position_app_head k v l1 l2 Hnin) in Hp. inversion Hp as [Hp'].
    destruct (Nat.leb_spec pos (List.length l1)); [lia |]. now rewrite Hrest.
  - now rewrite Hrest.
Qed.

Lemma assign_all_unique_keys (other : t) :
  forall d, unique_keys d -> unique_keys (assign_all d other).
Proof.
  unfold assign_all. induction other as [| [k v] other IH]; cbn [fold_left fst snd]; intros d Hd.
  - assumption.
  - apply IH. now apply MultiDictFacts.setitem_unique_keys.
Qed.

(** [d.update(other)] on unique keys is the item assignment of every
    pair of [other], in order. *)
Lemma update_assign_all (d other : t) :
  unique_keys d -> unique_keys other -> update d other = assign_all d other.
Proof.
  intros Hd Ho. unfold update. destruct other as [| kv other]; [reflexivity |].
  destruct (fold_update_one (kv :: other) d [] Hd Ho) as (u' & Hfold & Hinv).
  - intros k n H. discriminate.
  - reflexivity.
  - match type of Hfold with
    | ?L = _ =>
        change ((let '(d', u) := L in drop_tails u 0 d')
                = assign_all d (kv :: other))
    end.
    rewrite Hfold. apply (drop_tails_keeps u' (assign_all d (kv :: other)) []).
    + change (unique_keys (assign_all d (kv :: other))).
      apply assign_all_unique_keys. exact Hd.
    + exact Hinv.
Qed.

Lemma get_assign_all (k : string) (other : t) :
  forall d,
    unique_keys other ->
    get k (assign_all d other)
    = match get k other with
      | Some v => Some v
      | None => get k d
      end.
Proof.
  unfold assign_all, unique_keys.
  induction other as [| [k0 v0] other IH]; simpl; intros d Ho; [reflexivity |].
  inversion Ho as [| ? ? Hnin Ho']; subst.
  rewrite (IH _ Ho').
  destruct (String.eqb_spec k0 k) as [-> | Hne].
  - assert (Hnone : get k other = None).
    { destruct (get k other) as [v |] eqn:E; [| reflexivity].
      exfalso. apply Hnin. apply get_in in E.
      unfold keys. apply in_map_iff. now exists (k, v). }
    rewrite Hnone. apply MultiDictFacts.get_setitem_same.
  - destruct (get k other); [reflexivity |].
    now apply MultiDictFacts.get_setitem_other.
Qed.

(** Reading after [update]: the incoming value where there is one, else
    the value that was there. *)
Lemma get_update (k : string) (d other : t) :
  unique_keys d -> unique_keys other ->
  get k (update d other)
  = match get k other with
    | Some v => Some v
    | None => get k d
    end.
Proof.
  intros Hd Ho. rewrite update_assign_all by assumption.
  now apply get_assign_all.
Qed.

Lemma update_unique_keys (d other : t) :
  unique_keys d -> unique_keys other -> unique_keys (update d other).
Proof.
  intros Hd Ho. rewrite update_assign_all by assumption.
  now apply assign_all_unique_keys.
Qed.

(** [pop] *)
Lemma keys_pop (k : string) (d : t) :
  forall x, In x (keys (snd (pop k d))) -> In x (keys d).
Proof.
  induction d as [| [k0 v0] d IH]; simpl; intros x H; [assumption |].
  destruct (String.eqb k0 k); simpl in *; [now right |].
  destruct (pop k d) as [r rest]. simpl in *.
  destruct H as [H | H]; [now left | right; now apply IH].
Qed.

Lemma pop_unique_keys (k : string) (d : t) :
  unique_keys d -> unique_keys (snd (pop k d)).
Proof.
  unfold unique_keys.
  induction d as [| [k0 v0] d IH]; simpl; intros Hu; [assumption |].
  inversion Hu as [| ? ? Hnin Hu']; subst.
  destruct (String.eqb k0 k); simpl; [assumption |].
  pose proof (keys_pop k d) as Hsub. specialize (IH Hu').
  destruct (pop k d) as [r rest]. simpl in *.
  constructor; [| assumption]. intros H. apply Hnin. now apply Hsub.
Qed.

Lemma get_pop_same (k : string) (d : t) :
  unique_keys d -> get k (snd (pop k d)) = None.
Proof.
  unfold unique_keys.
  induction d as [| [k0 v0] d IH]; simpl; intros Hu; [reflexivity |].
  inversion Hu as [| ? ? Hnin Hu']; subst.
  destruct (String.eqb_spec k0 k) as [-> | Hne]; simpl.
  - destruct (get k d) as [v |] eqn:E; [| reflexivity].
    exfalso. apply Hnin. apply get_in in E. unfold keys.
    apply in_map_iff. now exists (k, v).
  - specialize (IH Hu'). destruct (pop k d) as [r rest]. simpl in *.
    destruct (String.eqb_spec k0 k); [contradiction | assumption].
Qed.

Lemma get_pop_other (k k' : string) (d : t) :
  k <> k' -> get k' (snd (pop k d)) = get k' d.
Proof.
  intros Hne. induction d as [| [k0 v0] d IH]; simpl; [reflexivity |].
  destruct (String.eqb_spec k0 k) as [-> | Hk]; simpl.
  - destruct (String.eqb_spec k k'); [contradiction | reflexivity].
  - destruct (pop k d) as [r rest]. simpl in *.
    destruct (String.eqb k0 k'); [reflexivity | assumption].
Qed.

Lemma pop_get (k : string) (d : t) : fst (pop k d) = get k d.
Proof.
  induction d as [| [k0 v0] d IH]; simpl; [reflexivity |].
  destruct (String.eqb k0 k); simpl; [reflexivity |].
  destruct (pop k d) as [r rest]. simpl in *. assumption.
Qed.

End UpdateFacts.

(** ** What the coroutines do to the machine *)

Lemma randint_returns (a b d : Z) :
  (a <= b)%Z -> exists v, randint a b d = inr v /\ (a <= v <= b)%Z.
Proof.
  intros Hab. unfold randint, randrange.
  destruct (Z.leb_spec (b + 1) a) as [Hle | Hlt]; [lia |].
  eexists. split; [reflexivity |].
  pose proof (Z.mod_pos_bound d (b + 1 - a)). lia.
Qed.

Section MoreEngineFacts.

Variable World : Type.
Variable shell : string -> World -> (string * string) * World.
Variable clock : World -> Z * World.
Variable random : World -> Z * World.

Lemma keeps_table_ret {A : Type} (a : A) : keeps_table (World := World) 0 (retM a).
Proof.
  intros m. split; [reflexivity |]. exists []. cbn. now rewrite app_nil_r.
Qed.

Lemma keeps_table_raise {A : Type} (e : exn) :
  keeps_table (World := World) (A := A) 0 (raiseM e).
Proof.
  intros m. split; [reflexivity |]. exists []. cbn. now rewrite app_nil_r.
Qed.

Lemma keeps_table_lift {A : Type} (r : result A) :
  keeps_table (World := World) 0 (liftM r).
Proof.
  intros m. split; [reflexivity |]. exists []. cbn. now rewrite app_nil_r.
Qed.

Lemma keeps_table_get_self : keeps_table (World := World) 0 get_self.
Proof.
  intros m. split; [reflexivity |]. exists []. cbn. now rewrite app_nil_r.
Qed.

Lemma keeps_table_weaken {A : Type} (n n' : nat) (c : M World A) :
  (n <= n')%nat -> keeps_table n c -> keeps_table n' c.
Proof.
  intros Hle H m. destruct (H m) as [Hs (cmds & Hc & Hl)].
  split; [assumption |]. exists cmds. split; [assumption | lia].
Qed.

Lemma keeps_table_bind {A B : Type} (n k : nat) (c : M World A) (f : A -> M World B) :
  keeps_table n c -> (forall a, keeps_table k (f a)) ->
  keeps_table (n + k) (bindM c f).
Proof.
  intros Hc Hf m. unfold bindM.
  destruct (Hc m) as [Hs (cmds & Hcalls & Hlen)].
  destruct (c m) as [[e | a] m1]; cbn [snd] in *.
  - split; [assumption |]. exists cmds. split; [assumption | lia].
  - destruct (Hf a m1) as [Hs' (cmds' & Hcalls' & Hlen')].
    split; [congruence |]. exists (cmds ++ cmds').
    rewrite Hcalls', Hcalls, app_assoc, length_app. split; [reflexivity | lia].
Qed.

Lemma keeps_table_now : keeps_table 0 (now clock).
Proof.
  intros m. unfold now. destruct (clock (world m)) as [t w]. cbn.
  split; [reflexivity |]. exists []. now rewrite app_nil_r.
Qed.

Lemma keeps_table_draw : keeps_table 0 (draw random).
Proof.
  intros m. unfold draw. destruct (random (world m)) as [t w]. cbn.
  split; [reflexivity |]. exists []. now rewrite app_nil_r.
Qed.

Lemma keeps_table_run_shell (cmd : string) : keeps_table 1 (run_shell shell cmd).
Proof.
  intros m. unfold run_shell. destruct (shell cmd (world m)) as [out w]. cbn.
  split; [reflexivity |]. exists [cmd]. split; [reflexivity | simpl; lia].
Qed.

Lemma keeps_table_generate_session_id :
  keeps_table (World := World) 0 generate_session_id.
Proof.
  intros m. unfold generate_session_id, bindM, get_self, put_self, retM.
  destruct (counter (self m)) as [[s | n] | n]; cbn; (split; [reflexivity |]);
    exists []; now rewrite app_nil_r.
Qed.

Lemma keeps_table_generate_ip_address :
  keeps_table 0 (generate_ip_address random).
Proof.
  unfold generate_ip_address.
  repeat (apply (keeps_table_bind 0 0);
          [first [apply keeps_table_draw | apply keeps_table_lift] | intros ?]).
  apply keeps_table_ret.
Qed.

Lemma keeps_table_new_RADIUSResponse (std_out : string) :
  keeps_table 0 (new_RADIUSResponse clock std_out).
Proof.
  unfold new_RADIUSResponse. apply (keeps_table_bind 0 0).
  - apply keeps_table_now.
  - intros t. apply keeps_table_lift.
Qed.

Lemma keeps_table__radclient_cli_cmd (attributes : MultiDict.t) :
  keeps_table 1 (_radclient_cli_cmd shell clock attributes).
Proof.
  unfold _radclient_cli_cmd.
  apply (keeps_table_bind 0 1); [apply keeps_table_get_self | intros r].
  apply (keeps_table_bind 1 0); [apply keeps_table_run_shell | intros [out err]].
  apply (keeps_table_bind 0 0); [apply keeps_table_new_RADIUSResponse | intros rsp].
  destruct (PyStr.is_empty err); [apply keeps_table_ret |].
  apply (keeps_table_bind 0 0); [apply keeps_table_lift | intros ?].
  apply (keeps_table_bind 0 0); [apply keeps_table_lift | intros ?].
  apply keeps_table_ret.
Qed.

(** [auth] never touches the table and runs [radclient] at most once. *)
Lemma keeps_table_auth (attributes : option MultiDict.t) :
  keeps_table 1 (auth shell clock attributes).
Proof.
  unfold auth. destruct attributes as [a |];
    [| apply (keeps_table_weaken 0); [lia | apply keeps_table_raise]].
  destruct (MultiDict.len a <=? 0)%Z;
    [apply (keeps_table_weaken 0); [lia | apply keeps_table_raise] |].
  apply (keeps_table_bind 0 1); [apply keeps_table_get_self | intros r].
  apply (keeps_table_bind 0 1); [apply keeps_table_generate_session_id | intros sid].
  apply keeps_table__radclient_cli_cmd.
Qed.

(** So does [acct]. *)
Lemma keeps_table_acct (a : option RADIUSResponse) (state : string) :
  keeps_table 1 (acct shell clock random a state).
Proof.
  unfold acct. destruct a as [a |];
    [| apply (keeps_table_weaken 0); [lia | apply keeps_table_raise]].
  destruct (MultiDict.len (req_attrs a) <=? 0)%Z;
    [apply (keeps_table_weaken 0); [lia | apply keeps_table_raise] |].
  destruct (String.eqb (rsp_type a) ACCESS_REJECT);
    [apply (keeps_table_weaken 0); [lia | apply keeps_table_ret] |].
  destruct (negb (String.eqb state ACCT_START) && negb (String.eqb state ACCT_STOP));
    [apply (keeps_table_weaken 0); [lia | apply keeps_table_raise] |].
  destruct (MultiDict.len (rsp_attrs a) <=? 0)%Z;
    [apply (keeps_table_weaken 0); [lia | apply keeps_table_raise] |].
  apply (keeps_table_bind 0 1).
  { destruct (MultiDict.get "Acct-Session-Id" _); [apply keeps_table_ret |].
    apply (keeps_table_bind 0 0); [apply keeps_table_generate_session_id | intros sid].
    apply keeps_table_ret. }
  intros attrs.
  apply (keeps_table_bind 0 1); [apply keeps_table_get_self | intros r].
  apply (keeps_table_bind 0 1); [apply keeps_table_generate_ip_address | intros ip].
  apply (keeps_table_bind 1 0); [apply keeps_table_run_shell | intros [out err]].
  apply keeps_table_new_RADIUSResponse.
Qed.

End MoreEngineFacts.

(** ** The attribute lines *)

Lemma substring_one_in (c : ascii) (s : string) :
  forall m, substring m 1 s = String c EmptyString ->
            In c (list_ascii_of_string s).
Proof.
  induction s as [| a s IH]; intros m H.
  - destruct m; discriminate.
  - destruct m as [| m]; cbn [substring] in H.
    + inversion H; subst. now left.
    + right. now apply (IH m).
Qed.

Lemma find_in (c : ascii) (s : string) :
  (0 <= PyStr.find (String c EmptyString) s)%Z -> In c (list_ascii_of_string s).
Proof.
  unfold PyStr.find.
  destruct (index 0 (String c EmptyString) s) as [i |] eqn:Hi; [| lia].
  intros _. apply index_correct1 in Hi. now apply substring_one_in in Hi.
Qed.

Lemma in_lstrip (p : ascii -> bool) (c : ascii) (s : string) :
  p c = false -> In c (list_ascii_of_string s) ->
  In c (list_ascii_of_string (PyStr.lstrip p s)).
Proof.
  intros Hp. induction s as [| a s IH]; cbn [PyStr.lstrip list_ascii_of_string];
    [tauto |].
  intros [<- | Hin].
  - rewrite Hp. now left.
  - destruct (p a); [now apply IH | now right].
Qed.

Lemma in_rstrip (p : ascii -> bool) (c : ascii) (s : string) :
  p c = false -> In c (list_ascii_of_string s) ->
  In c (list_ascii_of_string (PyStr.rstrip p s)).
Proof.
  intros Hp. induction s as [| a s IH]; cbn [PyStr.rstrip list_ascii_of_string];
    [tauto |].
  intros [<- | Hin].
  - destruct (PyStr.rstrip p s); [rewrite Hp |]; now left.
  - specialize (IH Hin). destruct (PyStr.rstrip p s); [contradiction |].
    now right.
Qed.

Lemma split1_two (sep : ascii) (s : string) :
  In sep (list_ascii_of_string s) -> exists a b, PyStr.split1 sep s = [a; b].
Proof.
  induction s as [| c s IH]; cbn [PyStr.split1 list_ascii_of_string];
    [intros [] |].
  intros Hin. destruct (Ascii.eqb_spec c sep) as [-> | Hne].
  - now eexists _, _.
  - destruct Hin as [-> | Hin]; [congruence |].
    destruct (IH Hin) as (a & b & ->). now eexists _, _.
Qed.

(** A line with an equals sign splits in two: the unpacking of
    [parse_avp] succeeds. *)
Lemma parse_avp_returns (line : string) :
  (0 <= PyStr.find "=" line)%Z -> exists key val, parse_avp line = inr (key, val).
Proof.
  intros H. apply find_in in H. unfold parse_avp, PyStr.strip.
  destruct (split1_two "=" (PyStr.rstrip PyStr.is_space (PyStr.lstrip PyStr.is_space line)))
    as (a & b & ->).
  - apply in_rstrip; [reflexivity |]. apply in_lstrip; [reflexivity | assumption].
  - now eexists _, _.
Qed.

Lemma avps_loop_returns (lines : list string) :
  forall d,
    MultiDict.unique_keys d -> str_valued d ->
    exists d', avps_loop lines d = inr d' /\ MultiDict.unique_keys d' /\ str_valued d'.
Proof.
  induction lines as [| line lines IH]; intros d Hu Hs; cbn [avps_loop].
  - now exists d.
  - destruct (Z.leb_spec (PyStr.find "=" line) 0) as [Hle | Hlt]; [now apply IH |].
    destruct (parse_avp_returns line) as (key & val & ->); [lia |].
    cbn [bind]. apply IH.
    + now apply MultiDictFacts.setitem_unique_keys.
    + now apply setitem_str_valued.
Qed.

(** X1: [avps_to_multidict] returns for every text: a line without an
    equals sign past its first character is passed over and every other
    line unpacks.  The dictionary returned holds no name twice and holds
    strings only. *)
Theorem avps_to_multidict_returns (text : string) :
  exists d,
    avps_to_multidict text = inr d /\
    MultiDict.unique_keys d /\
    str_valued d.
Proof.
  unfold avps_to_multidict. apply avps_loop_returns.
  - apply unique_keys_empty.
  - apply str_valued_empty.
Qed.

(** ** The constructor of [RADNAD] *)

Lemma is_empty_spec (s : string) : PyStr.is_empty s = true <-> s = EmptyString.
Proof. destruct s; simpl; split; congruence. Qed.

Lemma is_empty_false (s : string) : PyStr.is_empty s = false <-> s <> EmptyString.
Proof. destruct s; simpl; split; congruence. Qed.

(** X2: without a sessions file the constructor of [RADNAD] returns for
    exactly these arguments: a non-empty server string, authentication
    and accounting ports from 1024 to 65536 (one past the last port
    number), a non-empty secret, options that are missing, empty or
    contain the letter x, retries from 0 to 10, a timeout from 1 to 5 and
    a level that is not negative.  The name and the port for changes of
    authorization are not examined, and the level has no upper limit. *)
Theorem RADNAD_init_accepts_exactly (a : RADNAD_args) :
  (exists r, RADNAD_init a None = inr r)
  <-> (exists s, a_server a = Some (PStr s) /\ s <> EmptyString) /\
      (1024 <= a_auth_port a <= 65536)%Z /\
      (1024 <= a_acct_port a <= 65536)%Z /\
      (exists s, a_secret a = Some s /\ s <> EmptyString) /\
      (forall o, a_options a = Some o -> o <> EmptyString ->
                 (0 <= PyStr.find "x" o)%Z) /\
      (0 <= a_retries a <= 10)%Z /\
      (1 <= a_timeout a <= 5)%Z /\
      (0 <= a_level a)%Z.
Proof.
  destruct a as [nm srv sec ap cp coa opt rt tmo lvl].
  unfold RADNAD_init, RETRIES_MIN, RETRIES_MAX, TIMEOUT_MIN, TIMEOUT_MAX,
    LOG_MIN, LOG_MAX, raise, ret.
  cbn [a_name a_server a_secret a_auth_port a_acct_port a_coa_port a_options
         a_retries a_timeout a_level].
  split.
  - intros [r H].
    destruct srv as [[s | z] |]; cbn [bind] in H; try discriminate.
    destruct (PyStr.is_empty s) eqn:Hs; cbn [bind] in H; [discriminate |].
    apply is_empty_false in Hs.
    destruct (Z.ltb_spec ap 1024); cbn [orb] in H; [discriminate |].
    destruct (Z.gtb_spec ap 65536); [discriminate |].
    destruct (Z.ltb_spec cp 1024); cbn [orb] in H; [discriminate |].
    destruct (Z.gtb_spec cp 65536); [discriminate |].
    destruct sec as [k |]; cbn [bind] in H; [| discriminate].
    destruct (PyStr.is_empty k) eqn:Hk; cbn [bind] in H; [discriminate |].
    apply is_empty_false in Hk.
    destruct (Z.ltb_spec
                (PyStr.find "x"
                   match opt with
                   | Some o => if PyStr.is_empty o then OPTIONS_DEFAULT else o
                   | None => OPTIONS_DEFAULT
                   end) 0) as [Hx | Hx]; [discriminate |].
    destruct (Z.ltb_spec rt 0); cbn [orb] in H; [discriminate |].
    destruct (Z.gtb_spec rt 10); [discriminate |].
    destruct (Z.ltb_spec tmo 1); cbn [orb] in H; [discriminate |].
    destruct (Z.gtb_spec tmo 60); [discriminate |].
    destruct (Z.ltb_spec lvl 0); cbn [orb] in H; [discriminate |].
    destruct (Z.gtb_spec tmo 5); [discriminate |].
    repeat split; try lia.
    + now exists s.
    + now exists k.
    + intros o Ho Hne. inversion Ho; subst.
      apply is_empty_false in Hne. now rewrite Hne in Hx.
  - intros ([s [-> Hs]] & Hap & Hcp & [k [-> Hk]] & Hopt & Hrt & Htmo & Hlvl).
    apply is_empty_false in Hs. apply is_empty_false in Hk.
    rewrite Hs. cbn [bind].
    destruct (Z.ltb_spec ap 1024); [lia |]. cbn [orb].
    destruct (Z.gtb_spec ap 65536); [lia |].
    destruct (Z.ltb_spec cp 1024); [lia |]. cbn [orb].
    destruct (Z.gtb_spec cp 65536); [lia |].
    rewrite Hk. cbn [bind].
    destruct (Z.ltb_spec
                (PyStr.find "x"
                   match opt with
                   | Some o => if PyStr.is_empty o then OPTIONS_DEFAULT else o
                   | None => OPTIONS_DEFAULT
                   end) 0) as [Hx | Hx].
    { exfalso. destruct opt as [o |]; [| vm_compute in Hx; discriminate].
      destruct (PyStr.is_empty o) eqn:Ho; [vm_compute in Hx; discriminate |].
      apply is_empty_false in Ho. specialize (Hopt o eq_refl Ho). lia. }
    destruct (Z.ltb_spec rt 0); [lia |]. cbn [orb].
    destruct (Z.gtb_spec rt 10); [lia |].
    destruct (Z.ltb_spec tmo 1); [lia |]. cbn [orb].
    destruct (Z.gtb_spec tmo 60); [lia |].
    destruct (Z.ltb_spec lvl 0); [lia |]. cbn [orb].
    destruct (Z.gtb_spec tmo 5); [lia |].
    cbn [bind]. now eexists.
Qed.

Lemma series_max_int (cells : list pyval) :
  forall acc n,
    series_max cells acc = inr (PInt n) ->
    (exists x, acc = PInt x /\ (x <= n)%Z) /\
    (forall c, In c cells -> exists i, c = PInt i /\ (i <= n)%Z).
Proof.
  induction cells as [| c cells IH]; intros acc n H; cbn [series_max] in H.
  - inversion H; subst. split; [exists n; split; [reflexivity | lia] |].
    intros c [].
  - apply bind_inr in H. destruct H as [m [Hm H]].
    destruct (IH m n H) as [[x [-> Hx]] Hall].
    destruct acc as [s | y], c as [u | z]; cbn in Hm; inversion Hm; subst.
    split; [exists y; split; [reflexivity | lia] |].
    intros c [<- | Hc]; [exists z; split; [reflexivity | lia] | now apply Hall].
Qed.

Lemma series_max_in (cells : list pyval) :
  forall (acc v : pyval),
    series_max cells acc = inr v -> In v (acc :: cells).
Proof.
  induction cells as [| c cells IH]; intros acc v H; cbn [series_max] in H.
  - inversion H; subst. now left.
  - apply bind_inr in H. destruct H as [m [Hm H]].
    apply IH in H.
    destruct acc as [s | y], c as [u | z]; cbn in Hm; inversion Hm; subst m;
      clear Hm.
    + destruct (String.leb s u); destruct H as [<- | H]; cbn; auto.
    + destruct (Z.max_spec y z) as [[_ Hmx] | [_ Hmx]]; rewrite Hmx in H;
        destruct H as [<- | H]; cbn; auto.
Qed.

Lemma wrap64_small (z : Z) :
  (INT64_MIN <= z <= INT64_MAX)%Z -> wrap64 z = z.
Proof.
  unfold INT64_MIN, INT64_MAX, wrap64. intros H.
  rewrite Z.mod_small; lia.
Qed.

Lemma wrap64_over : wrap64 (INT64_MAX + 1) = INT64_MIN.
Proof. reflexivity. Qed.

Lemma restore_counter_int64 (df : DataFrame.t) (top : Z) :
  int64_ids df ->
  (exists s, In s df /\ Acct_Session_Id s = PInt top) ->
  (forall s i, In s df -> Acct_Session_Id s = PInt i -> (i <= top)%Z) ->
  forall c, restore_counter df = inr c -> c = NpInt64 top.
Proof.
  intros Hids [s0 [Hs0 Htop]] Hmax c.
  unfold restore_counter. destruct df as [| s1 df]; [destruct Hs0 |].
  cbn [map]. intros H.
  apply bind_inr in H. destruct H as [v [Hv H]].
  pose proof (series_max_in _ _ _ Hv) as Hin.
  change (In v (map Acct_Session_Id (s1 :: df))) in Hin.
  apply in_map_iff in Hin. destruct Hin as [s [Hsv Hs]].
  destruct (Hids s Hs) as [i [Hi _]].
  rewrite Hi in Hsv. subst v. inversion H; subst c. f_equal.
  apply series_max_int in Hv. destruct Hv as [[x [Hx Hle]] Hall].
  assert (Hge : (top <= i)%Z).
  { destruct Hs0 as [<- | Hs0].
    - rewrite Htop in Hx. inversion Hx; subst. exact Hle.
    - destruct (Hall (Acct_Session_Id s0)) as [j [Hj Hji]];
        [now apply in_map |].
      rewrite Htop in Hj. inversion Hj; subst. exact Hji. }
  pose proof (Hmax s i Hs Hi). lia.
Qed.

Lemma RADNAD_init_restores (a : RADNAD_args) (df : DataFrame.t) (r : RADNAD) :
  RADNAD_init a (Some df) = inr r ->
  sessions r = df /\ restore_counter df = inr (counter r).
Proof.
  unfold RADNAD_init. intros H.
  apply bind_inr in H. destruct H as [srv [_ H]].
  destruct (_ || _)%bool; [discriminate |].
  destruct (_ || _)%bool; [discriminate |].
  apply bind_inr in H. destruct H as [sec [_ H]].
  destruct (_ <? _)%Z; [discriminate |].
  destruct (_ || _)%bool; [discriminate |].
  destruct (_ || _)%bool; [discriminate |].
  destruct (_ || _)%bool; [discriminate |].
  apply bind_inr in H. destruct H as [[ss c] [Hc H]].
  apply bind_inr in Hc. destruct Hc as [c' [Hc' Hc]].
  inversion Hc; subst. inversion H; subst. cbn [sessions counter]. now split.
Qed.

Section Restart.

Variable World : Type.

(** X3: on an object built from a sessions file whose ids are integers
    of the int64 range, with [top] the greatest of them, the first call
    of [generate_session_id] returns, leaves the table as read from the
    file, and hands out [top + 1], which differs from every id of the
    file, unless [top] is 2^63-1: the counter is then a [numpy.int64]
    at its maximum, it wraps, and the id handed out is -2^63. *)
Theorem first_id_after_restore
  (a : RADNAD_args) (df : DataFrame.t) (r : RADNAD)
  (m : machine World) (top : Z) :
  RADNAD_init a (Some df) = inr r ->
  self m = r ->
  int64_ids df ->
  (exists s, In s df /\ Acct_Session_Id s = PInt top) ->
  (forall s i, In s df -> Acct_Session_Id s = PInt i -> (i <= top)%Z) ->
  let sid := if (top <? INT64_MAX)%Z then (top + 1)%Z else INT64_MIN in
  generate_session_id m
  = (inr (PInt sid),
     mkMachine (set_counter r (NpInt64 sid)) (world m) (calls m)) /\
  sessions r = df /\
  ((top < INT64_MAX)%Z ->
   forall s, In s df -> Acct_Session_Id s <> PInt sid).
Proof.
  intros Hinit Hself Hids Htop Hmax sid.
  apply RADNAD_init_restores in Hinit. destruct Hinit as [Hdf Hc].
  pose proof (restore_counter_int64 df top Hids Htop Hmax _ Hc) as Hn.
  assert (Hrange : (INT64_MIN <= top <= INT64_MAX)%Z).
  { destruct Htop as [s [Hs Hi]]. destruct (Hids s Hs) as [i [Hi' Hr]].
    rewrite Hi in Hi'. inversion Hi'; subst. exact Hr. }
  assert (Hsid : wrap64 (top + 1) = sid).
  { unfold sid. destruct (Z.ltb_spec top INT64_MAX) as [Hlt | Hge].
    - apply wrap64_small. lia.
    - replace top with INT64_MAX by lia. apply wrap64_over. }
  split; [| split].
  - unfold generate_session_id, bindM, get_self, put_self, retM.
    rewrite Hself, Hn, Hsid. reflexivity.
  - exact Hdf.
  - intros Hlt s Hs Heq.
    destruct (Hids s Hs) as [i [Hi _]].
    pose proof (Hmax s i Hs Hi) as Hle.
    rewrite Hi in Heq. inversion Heq as [Hi'].
    unfold sid in Hi'.
    destruct (Z.ltb_spec top INT64_MAX); lia.
Qed.

End Restart.

(** ** The generators *)

Lemma length_append (a b : string) :
  String.length (a ++ b) = (String.length a + String.length b)%nat.
Proof. induction a as [| c a IH]; simpl; [reflexivity | now rewrite IH]. Qed.

Lemma zfill_length (width : nat) (s : string) :
  String.length (zfill width s) = Nat.max width (String.length s).
Proof. unfold zfill. rewrite length_append, repeat_length. lia. Qed.

Lemma substring_length (s : string) :
  forall n m, (n + m <= String.length s)%nat -> String.length (substring n m s) = m.
Proof.
  induction s as [| c s IH]; intros n m H; simpl in H.
  - assert (n = O) by lia. assert (m = O) by lia. now subst.
  - destruct n as [| n]; simpl.
    + destruct m as [| m]; [reflexivity |]. simpl. rewrite IH; [reflexivity | lia].
    + apply IH. lia.
Qed.

Lemma substring_append_l (a b : string) :
  forall n m, (n + m <= String.length a)%nat ->
              substring n m (a ++ b) = substring n m a.
Proof.
  induction a as [| c a IH]; intros n m H; simpl in H.
  - assert (n = O) by lia. assert (m = O) by lia. subst. now destruct b.
  - destruct n as [| n]; simpl.
    + destruct m as [| m]; [reflexivity |]. rewrite IH; [reflexivity | lia].
    + apply IH. lia.
Qed.

Lemma hex_digits_length_le (fuel : nat) :
  forall (n : Z) (k : nat),
    (1 <= k)%nat -> (0 <= n < 16 ^ Z.of_nat k)%Z ->
    (String.length (hex_digits fuel n) <= k)%nat.
Proof.
  induction fuel as [| fuel IH]; intros n k Hk Hn; cbn [hex_digits].
  - simpl. lia.
  - destruct (Z.ltb_spec n 16) as [Hlt | Hge]; [simpl; lia |].
    rewrite length_append. cbn [PyStr.one String.length].
    destruct k as [| [| k]]; [lia | simpl in Hn; lia |].
    assert (String.length (hex_digits fuel (n / 16)) <= S k)%nat; [| lia].
    apply IH; [lia |]. split; [apply Z.div_pos; lia |].
    apply Z.div_lt_upper_bound; [lia |].
    rewrite (Nat2Z.inj_succ (S k)), Z.pow_succ_r in Hn; lia.
Qed.

(** Six characters for every number below 2^24, seven for 2^24 itself. *)
Lemma format_06X_length (n : Z) :
  (1 <= n <= OUI_RANGE)%Z ->
  String.length (format_06X n) = if (n =? OUI_RANGE)%Z then 7%nat else 6%nat.
Proof.
  intros Hn. destruct (Z.eqb_spec n OUI_RANGE) as [-> | Hne]; [reflexivity |].
  unfold format_06X. destruct (Z.ltb_spec n 0); [lia |].
  rewrite zfill_length.
  assert (String.length (hex n) <= 6)%nat; [| lia].
  apply hex_digits_length_le; [lia |]. unfold OUI_RANGE in *.
  change (16 ^ Z.of_nat 6)%Z with 16777216%Z. lia.
Qed.

Lemma format_06X_length_ge (n : Z) :
  (0 <= n)%Z -> (6 <= String.length (format_06X n))%nat.
Proof.
  intros Hn. unfold format_06X. destruct (Z.ltb_spec n 0); [lia |].
  rewrite zfill_length. lia.
Qed.

Lemma mac_groups_shape (mac : string) :
  (12 <= String.length mac)%nat ->
  List.length (mac_groups mac) = 6%nat /\
  (forall g, In g (mac_groups mac) -> String.length g = 2%nat).
Proof.
  intros H. split; [reflexivity |].
  unfold mac_groups. intros g Hg. apply in_map_iff in Hg.
  destruct Hg as [n [<- Hn]]. apply substring_length.
  simpl in Hn. intuition (subst; lia).
Qed.

Lemma join_six (sep a b c d e f : string) :
  String.length (PyStr.join sep [a; b; c; d; e; f])
  = (String.length a + String.length b + String.length c + String.length d
     + String.length e + String.length f + 5 * String.length sep)%nat.
Proof.
  unfold PyStr.join. cbn [String.concat]. rewrite !length_append. lia.
Qed.

Lemma mac_length (sep mac : string) :
  (12 <= String.length mac)%nat ->
  String.length (PyStr.join sep (mac_groups mac))
  = (12 + 5 * String.length sep)%nat.
Proof.
  intros H. unfold mac_groups. cbn [map]. rewrite join_six.
  rewrite !substring_length; lia.
Qed.

Section Generators.

Variable World : Type.
Variable random : World -> Z * World.

Lemma random_hex6_returns (m : machine World) :
  exists n,
    random_hex6 random m
    = (inr (format_06X n),
       mkMachine (self m) (snd (random (world m))) (calls m)) /\
    n = (1 + fst (random (world m)) mod OUI_RANGE)%Z /\
    (1 <= n <= OUI_RANGE)%Z.
Proof.
  unfold random_hex6, bindM, draw, liftM, retM.
  destruct (random (world m)) as [d w]. cbn [fst snd self world calls].
  unfold randint, randrange.
  destruct (Z.leb_spec (OUI_RANGE + 1) 1) as [H | H]; [unfold OUI_RANGE in H; lia |].
  cbn [ret]. eexists. split; [reflexivity |].
  replace (OUI_RANGE + 1 - 1)%Z with OUI_RANGE by lia.
  split; [reflexivity |].
  pose proof (Z.mod_pos_bound d OUI_RANGE eq_refl). lia.
Qed.

(** X4: [generate_mac] with no OUI, or with an OUI string of at least six
    characters, returns six groups of two characters joined by the
    separator, so 12 characters and five separators, whatever the
    generator delivers; with an OUI the first three groups are its first
    six characters.  No command is run and the object is not changed. *)
Theorem generate_mac_shape (oui : option pyval) (sep : string) (m : machine World) :
  (oui = None \/ exists o, oui = Some (PStr o) /\ (6 <= String.length o)%nat) ->
  exists groups w,
    generate_mac random oui sep m
    = (inr (PyStr.join sep groups), mkMachine (self m) w (calls m)) /\
    List.length groups = 6%nat /\
    (forall g, In g groups -> String.length g = 2%nat) /\
    String.length (PyStr.join sep groups) = (12 + 5 * String.length sep)%nat /\
    (forall o, oui = Some (PStr o) ->
               firstn 3 groups = [substring 0 2 o; substring 2 2 o; substring 4 2 o]).
Proof.
  intros [-> | [o [-> Ho]]]; unfold generate_mac.
  - unfold bindM at 1.
    destruct (random_hex6_returns m) as (n1 & -> & _ & Hn1).
    unfold bindM at 1.
    destruct (random_hex6_returns
                (mkMachine (self m) (snd (random (world m))) (calls m)))
      as (n2 & -> & _ & Hn2).
    cbn [self world calls retM].
    assert (Hlen : (12 <= String.length (format_06X n1 ++ format_06X n2))%nat).
    { rewrite length_append.
      pose proof (format_06X_length_ge n1). pose proof (format_06X_length_ge n2).
      lia. }
    eexists _, _. split; [reflexivity |].
    destruct (mac_groups_shape _ Hlen) as [H6 H2].
    split; [assumption |]. split; [assumption |].
    split; [now apply mac_length |]. intros o Ho. discriminate.
  - unfold bindM at 1.
    destruct (random_hex6_returns m) as (n1 & -> & _ & Hn1).
    cbn [self world calls retM].
    assert (Hlen : (12 <= String.length (o ++ format_06X n1))%nat).
    { rewrite length_append. pose proof (format_06X_length_ge n1). lia. }
    eexists _, _. split; [reflexivity |].
    destruct (mac_groups_shape _ Hlen) as [H6 H2].
    split; [assumption |]. split; [assumption |].
    split; [now apply mac_length |].
    intros o' Ho'. inversion Ho'; subst o'.
    unfold mac_groups. cbn [map firstn].
    rewrite !substring_append_l; [reflexivity | lia | lia | lia].
Qed.

(** X5: [randomized_mac] without an OUI returns 12 hexadecimal characters
    exactly when neither [randint(1, 16777216)] delivers its upper end
    16777216, whose rendering has seven characters; otherwise it returns
    13 or 14 characters. *)
Theorem randomized_mac_length (m : machine World) :
  let d1 := fst (random (world m)) in
  let w1 := snd (random (world m)) in
  let d2 := fst (random w1) in
  exists mac,
    randomized_mac random None m
    = (inr mac, mkMachine (self m) (snd (random w1)) (calls m)) /\
    (12 <= String.length mac <= 14)%nat /\
    (String.length mac = 12%nat
     <-> (d1 mod OUI_RANGE <> OUI_RANGE - 1 /\ d2 mod OUI_RANGE <> OUI_RANGE - 1)%Z).
Proof.
  intros d1 w1 d2. unfold randomized_mac.
  unfold bindM at 1.
  destruct (random_hex6_returns m) as (n1 & -> & Hd1 & Hn1).
  unfold bindM at 1.
  destruct (random_hex6_returns
              (mkMachine (self m) (snd (random (world m))) (calls m)))
    as (n2 & -> & Hd2 & Hn2).
  cbn [self world calls retM] in *. fold d1 in Hd1. fold w1 in Hd2 |- *. fold d2 in Hd2.
  eexists. split; [reflexivity |].
  rewrite length_append, (format_06X_length n1 Hn1), (format_06X_length n2 Hn2).
  destruct (Z.eqb_spec n1 OUI_RANGE), (Z.eqb_spec n2 OUI_RANGE);
    (split; [lia |]); split; try lia; intros [? ?]; lia.
Qed.

Lemma generate_ip_address_returns (m : machine World) :
  exists ip w,
    generate_ip_address random m = (inr ip, mkMachine (self m) w (calls m)).
Proof.
  unfold generate_ip_address, bindM, draw, liftM, retM.
  destruct (random (world m)) as [d1 w1]. cbn [self world calls].
  destruct (randint_returns 1 254 d1) as (a & -> & Ha); [lia |].
  destruct (random w1) as [d2 w2]. cbn [self world calls].
  destruct (randint_returns 1 254 d2) as (b & -> & Hb); [lia |].
  destruct (random w2) as [d3 w3]. cbn [self world calls].
  destruct (randint_returns 1 254 d3) as (c & -> & Hc); [lia |].
  destruct (random w3) as [d4 w4]. cbn [self world calls].
  destruct (randint_returns 2 254 d4) as (d & -> & Hd); [lia |].
  now eexists _, _.
Qed.

(** X6: [generate_ip_address] returns for every state of the generator:
    four numbers joined by dots, the first three from 1 to 254 and the
    last from 2 to 254.  It runs no command and leaves the object alone. *)
Theorem generate_ip_address_octets (m : machine World) :
  exists a b c d w,
    generate_ip_address random m
    = (inr (PyStr.of_Z a ++ "." ++ PyStr.of_Z b ++ "." ++ PyStr.of_Z c ++ "."
              ++ PyStr.of_Z d)%string,
       mkMachine (self m) w (calls m)) /\
    (1 <= a <= 254)%Z /\ (1 <= b <= 254)%Z /\ (1 <= c <= 254)%Z /\
    (2 <= d <= 254)%Z.
Proof.
  unfold generate_ip_address, bindM, draw, liftM, retM.
  destruct (random (world m)) as [d1 w1]. cbn [self world calls].
  destruct (randint_returns 1 254 d1) as (a & -> & Ha); [lia |].
  destruct (random w1) as [d2 w2]. cbn [self world calls].
  destruct (randint_returns 1 254 d2) as (b & -> & Hb); [lia |].
  destruct (random w2) as [d3 w3]. cbn [self world calls].
  destruct (randint_returns 1 254 d3) as (c & -> & Hc); [lia |].
  destruct (random w3) as [d4 w4]. cbn [self world calls].
  destruct (randint_returns 2 254 d4) as (d & -> & Hd); [lia |].
  now exists a, b, c, d, w4.
Qed.

End Generators.

(** ** The exchanges *)

Lemma len_pos_iff (d : MultiDict.t) : (MultiDict.len d <=? 0)%Z = false <-> d <> [].
Proof.
  unfold MultiDict.len. destruct d as [| kv d].
  - simpl. split; [discriminate | congruence].
  - split; [discriminate |]. intros _. apply Z.leb_gt. rewrite length_cons. lia.
Qed.

Section Exchanges.

Variable World : Type.
Variable shell : string -> World -> (string * string) * World.
Variable clock : World -> Z * World.
Variable random : World -> Z * World.

Lemma _radclient_cli_cmd_run (attributes : MultiDict.t) (m : machine World) :
  let cmd := radclient_cmd (to_avp_string attributes) (server (self m))
               (auth_port (self m)) "auth" (secret (self m)) in
  let out := fst (shell cmd (world m)) in
  let w1 := snd (shell cmd (world m)) in
  _radclient_cli_cmd shell clock attributes m
  = (bind (RADIUSResponse_init (Some (fst out)) (fst (clock w1)))
       (after_report (snd out)),
     mkMachine (self m) (snd (clock w1)) (calls m ++ [cmd])).
Proof.
  intros cmd out w1. subst out w1. unfold _radclient_cli_cmd.
  cbv beta iota zeta delta [bindM retM get_self run_shell new_RADIUSResponse now liftM].
  fold cmd. destruct (shell cmd (world m)) as [[std_out std_err] w1].
  cbn [fst snd self world calls].
  destruct (clock w1) as [t w2]. cbn [fst snd self world calls].
  destruct (RADIUSResponse_init (Some std_out) t) as [e | r]; [reflexivity |].
  cbn [bind]. unfold after_report, MultiDict.getitem.
  destruct (PyStr.is_empty std_err); [reflexivity |].
  destruct (MultiDict.get "Calling-Station-Id" (req_attrs r)); [| reflexivity].
  cbn [ret]. destruct (MultiDict.get "User-Name" (req_attrs r)); reflexivity.
Qed.


Lemma generate_session_id_step
  (m : machine World) (c : pycounter) (sid : Z) :
  counter_step (counter (self m)) c sid ->
  generate_session_id m
  = (inr (PInt sid), mkMachine (set_counter (self m) c) (world m) (calls m)).
Proof.
  intros H. unfold generate_session_id, bindM, get_self, put_self, retM.
  inversion H as [n Hn | n Hr Hn | Hn]; subst.
  - reflexivity.
  - rewrite wrap64_small by (unfold INT64_MIN, INT64_MAX in *; lia).
    reflexivity.
  - reflexivity.
Qed.

(** X7: [auth] with a non-empty dictionary on an object whose counter is
    an integer runs [radclient] exactly once, whether the exchange then
    succeeds or raises, and leaves the counter one step further: at n+1
    from the [int] n of a new object; from the [numpy.int64] n of an
    object restored from the sessions file at n+1 below 2^63-1 and at
    -2^63 from 2^63-1.  The request sent carries the new counter value as
    [Acct-Session-Id], replacing whatever the caller gave; it carries the
    caller's [NAS-Identifier] if there is one and the name of the object
    otherwise; every other attribute is the caller's.  The table is not
    touched. *)
Theorem auth_sends_one_request_with_the_next_id
  (a : MultiDict.t) (m : machine World) (c : pycounter) (sid : Z) :
  a <> [] ->
  counter_step (counter (self m)) c sid ->
  exists sent res w,
    auth shell clock (Some a) m
    = (res,
       mkMachine (set_counter (self m) c) w
         (calls m ++ [radclient_cmd (to_avp_string sent) (server (self m))
                        (auth_port (self m)) "auth" (secret (self m))])) /\
    MultiDict.get "Acct-Session-Id" sent = Some (PInt sid) /\
    MultiDict.get "NAS-Identifier" sent
    = Some (match MultiDict.get "NAS-Identifier" a with
            | Some v => v
            | None => PStr (name (self m))
            end) /\
    (forall k, k <> "Acct-Session-Id"%string -> k <> "NAS-Identifier"%string ->
               MultiDict.get k sent = MultiDict.get k a).
Proof.
  intros Ha Hn. unfold auth. apply len_pos_iff in Ha. rewrite Ha.
  unfold bindM at 1. unfold get_self at 1.
  unfold bindM at 1. rewrite (generate_session_id_step m c sid Hn).
  cbn [self world calls].
  rewrite _radclient_cli_cmd_run. cbn [self world calls server auth_port secret set_counter].
  eexists _, _, _. split; [reflexivity |].
  split; [apply MultiDictFacts.get_setitem_same |].
  split.
  - rewrite MultiDictFacts.get_setitem_other by discriminate.
    destruct (MultiDict.get "NAS-Identifier" a) eqn:Hnas; [assumption |].
    apply MultiDictFacts.get_setitem_same.
  - intros k Hk1 Hk2.
    rewrite MultiDictFacts.get_setitem_other by congruence.
    destruct (MultiDict.get "NAS-Identifier" a); [reflexivity |].
    now rewrite MultiDictFacts.get_setitem_other by congruence.
Qed.

(** X8: when [radclient] has written to its standard error, the error
    report of [_radclient_cli_cmd] subscripts the request attributes of
    the parsed response: a transcript that parses but echoes no
    [Calling-Station-Id], or no [User-Name], makes the call raise
    [KeyError] in place of returning the response. *)
Theorem stderr_report_needs_two_request_attributes
  (attributes : MultiDict.t) (m : machine World)
  (out err : string) (w1 w2 : World) (t : Z) (r : RADIUSResponse) :
  shell (radclient_cmd (to_avp_string attributes) (server (self m))
           (auth_port (self m)) "auth" (secret (self m))) (world m)
  = ((out, err), w1) ->
  clock w1 = (t, w2) ->
  RADIUSResponse_init (Some out) t = inr r ->
  err <> EmptyString ->
  fst (_radclient_cli_cmd shell clock attributes m)
  = match MultiDict.get "Calling-Station-Id" (req_attrs r),
          MultiDict.get "User-Name" (req_attrs r) with
    | None, _ => inl (KeyError "Calling-Station-Id")
    | Some _, None => inl (KeyError "User-Name")
    | Some _, Some _ => inr r
    end.
Proof.
  intros Hshell Hclock Hparse Herr.
  rewrite _radclient_cli_cmd_run. cbn [fst]. rewrite Hshell. cbn [fst snd].
  rewrite Hclock. cbn [fst]. rewrite Hparse. cbn [bind].
  unfold after_report. apply is_empty_false in Herr. rewrite Herr.
  destruct (MultiDict.get "Calling-Station-Id" (req_attrs r)); [| reflexivity].
  destruct (MultiDict.get "User-Name" (req_attrs r)); reflexivity.
Qed.


(** X9: [acct] refuses an authentication record that is not a reject
    when the state is neither Start nor Stop, or when the record holds no
    response attribute (a bare Access-Accept): it raises [ValueError]
    before anything is sent, and the machine is as it was. *)
Theorem acct_refuses_before_sending
  (a : RADIUSResponse) (state : string) (m : machine World) :
  req_attrs a <> [] ->
  rsp_type a <> ACCESS_REJECT ->
  (state <> ACCT_START /\ state <> ACCT_STOP) \/ rsp_attrs a = [] ->
  exists msg,
    acct shell clock random (Some a) state m = (inl (ValueError msg), m).
Proof.
  intros Hreq Hty Hbad. unfold acct.
  apply len_pos_iff in Hreq. rewrite Hreq.
  apply String.eqb_neq in Hty. rewrite Hty.
  destruct (negb (String.eqb state ACCT_START) && negb (String.eqb state ACCT_STOP))
    eqn:Hst; [now eexists |].
  destruct Hbad as [[H1 H2] | Hrsp].
  - apply String.eqb_neq in H1, H2. rewrite H1, H2 in Hst. discriminate.
  - rewrite Hrsp. now eexists.
Qed.

(** X10: the Accounting-Request that [acct] sends for a record whose two
    dictionaries hold each name once and whose request carries an
    [Acct-Session-Id].  Exactly one command is run, on the accounting
    port, and the object is left alone.  The request holds none of
    [User-Password], [CHAP-Password], [Reply-Message], [State] and
    [Cleartext-Password]; its [Acct-Status-Type] is the state, its
    [NAS-Identifier] the name of the object, its [Framed-IP-Address] a
    generated string; every other attribute has the value of the
    response of the authentication if that holds the name, and the value
    of its request otherwise. *)
Theorem acct_request_attributes
  (a : RADIUSResponse) (state : string) (m : machine World) :
  req_attrs a <> [] ->
  rsp_attrs a <> [] ->
  rsp_type a <> ACCESS_REJECT ->
  state = ACCT_START \/ state = ACCT_STOP ->
  MultiDict.unique_keys (req_attrs a) ->
  MultiDict.unique_keys (rsp_attrs a) ->
  MultiDict.get "Acct-Session-Id" (req_attrs a) <> None ->
  exists sent res w,
    acct shell clock random (Some a) state m
    = (res,
       mkMachine (self m) w
         (calls m ++ [radclient_cmd (to_avp_string sent) (server (self m))
                        (acct_port (self m)) "acct" (secret (self m))])) /\
    (forall k,
        In k ["User-Password"; "CHAP-Password"; "Reply-Message"; "State";
              "Cleartext-Password"]%string ->
        MultiDict.get k sent = None) /\
    MultiDict.get "Acct-Status-Type" sent = Some (PStr state) /\
    MultiDict.get "NAS-Identifier" sent = Some (PStr (name (self m))) /\
    (exists ip, MultiDict.get "Framed-IP-Address" sent = Some (PStr ip)) /\
    (forall k,
        ~ In k ["User-Password"; "CHAP-Password"; "Reply-Message"; "State";
                "Cleartext-Password"; "Acct-Status-Type"; "NAS-Identifier";
                "Framed-IP-Address"]%string ->
        MultiDict.get k sent
        = match MultiDict.get k (rsp_attrs a) with
          | Some v => Some v
          | None => MultiDict.get k (req_attrs a)
          end).
Proof.
  intros Hreq Hrsp Hty Hstate Hu1 Hu2 Hsid. unfold acct.
  apply len_pos_iff in Hreq. rewrite Hreq.
  apply String.eqb_neq in Hty. rewrite Hty.
  assert (Hst : negb (String.eqb state ACCT_START) && negb (String.eqb state ACCT_STOP)
                = false).
  { destruct Hstate as [-> | ->]; reflexivity. }
  rewrite Hst. apply len_pos_iff in Hrsp. rewrite Hrsp.
  set (merged := MultiDict.update (req_attrs a) (rsp_attrs a)).
  assert (Hum : MultiDict.unique_keys merged)
    by now apply UpdateFacts.update_unique_keys.
  set (p1 := snd (MultiDict.pop "User-Password" merged)).
  assert (Hup1 : MultiDict.unique_keys p1) by now apply UpdateFacts.pop_unique_keys.
  set (p2 := snd (MultiDict.pop "CHAP-Password" p1)).
  assert (Hup2 : MultiDict.unique_keys p2) by now apply UpdateFacts.pop_unique_keys.
  set (p3 := snd (MultiDict.pop "Reply-Message" p2)).
  assert (Hup3 : MultiDict.unique_keys p3) by now apply UpdateFacts.pop_unique_keys.
  set (p4 := snd (MultiDict.pop "State" p3)).
  assert (Hup4 : MultiDict.unique_keys p4) by now apply UpdateFacts.pop_unique_keys.
  set (p5 := snd (MultiDict.pop "Cleartext-Password" p4)).
  assert (Hgone : forall k,
             In k ["User-Password"; "CHAP-Password"; "Reply-Message"; "State";
                   "Cleartext-Password"]%string ->
             MultiDict.get k p5 = None).
  { intros k Hk. subst p5 p4 p3 p2 p1. cbn [In] in Hk.
    destruct Hk as [<- | [<- | [<- | [<- | [<- | []]]]]].
    - rewrite !UpdateFacts.get_pop_other by discriminate.
      now apply UpdateFacts.get_pop_same.
    - rewrite !UpdateFacts.get_pop_other by discriminate.
      now apply UpdateFacts.get_pop_same.
    - rewrite !UpdateFacts.get_pop_other by discriminate.
      now apply UpdateFacts.get_pop_same.
    - rewrite !UpdateFacts.get_pop_other by discriminate.
      now apply UpdateFacts.get_pop_same.
    - now apply UpdateFacts.get_pop_same. }
  assert (Hkept : forall k,
             ~ In k ["User-Password"; "CHAP-Password"; "Reply-Message"; "State";
                     "Cleartext-Password"]%string ->
             MultiDict.get k p5
             = match MultiDict.get k (rsp_attrs a) with
               | Some v => Some v
               | None => MultiDict.get k (req_attrs a)
               end).
  { intros k Hk. subst p5 p4 p3 p2 p1. cbn [In] in Hk.
    rewrite !UpdateFacts.get_pop_other by (intros <-; tauto).
    now apply UpdateFacts.get_update. }
  set (s1 := MultiDict.setitem "Acct-Status-Type" (PStr state) p5).
  assert (Hhas : exists v, MultiDict.get "Acct-Session-Id" s1 = Some v).
  { subst s1. rewrite MultiDictFacts.get_setitem_other by discriminate.
    rewrite Hkept by (cbn [In]; intros H; intuition discriminate).
    destruct (MultiDict.get "Acct-Session-Id" (rsp_attrs a)); [now eexists |].
    destruct (MultiDict.get "Acct-Session-Id" (req_attrs a)); [now eexists | contradiction]. }
  destruct Hhas as [v Hv]. rewrite Hv.
  unfold bindM at 1. unfold retM at 1.
  unfold bindM at 1. unfold get_self at 1.
  unfold bindM at 1.
  destruct (generate_ip_address_returns World random m) as (ip & w & ->).
  cbv beta iota zeta delta [bindM retM run_shell new_RADIUSResponse now liftM].
  cbn [self world calls].
  set (sent := MultiDict.setitem "Framed-IP-Address" (PStr ip)
                 (MultiDict.setitem "NAS-Identifier" (PStr (name (self m))) s1)).
  set (cmd := radclient_cmd (to_avp_string sent) (server (self m))
                (acct_port (self m)) "acct" (secret (self m))).
  destruct (shell cmd w) as [[std_out std_err] w1]. cbn [self world calls].
  destruct (clock w1) as [t w2]. cbn [self world calls].
  exists sent. eexists _, _. split; [reflexivity |]. subst sent s1.
  split; [| split; [| split; [| split]]].
  - intros k Hk.
    rewrite !MultiDictFacts.get_setitem_other
      by (intros <-; cbn [In] in Hk; intuition discriminate).
    now apply Hgone.
  - now rewrite !MultiDictFacts.get_setitem_other, MultiDictFacts.get_setitem_same
      by discriminate.
  - now rewrite MultiDictFacts.get_setitem_other, MultiDictFacts.get_setitem_same
      by discriminate.
  - exists ip. apply MultiDictFacts.get_setitem_same.
  - intros k Hk. cbn [In] in Hk.
    rewrite !MultiDictFacts.get_setitem_other by (intros <-; tauto).
    apply Hkept. cbn [In]. tauto.
Qed.

End Exchanges.

(** ** Sessions *)

Lemma session_expired_condition_str (t : Z) (df : DataFrame.t) :
  (exists s v, In s df /\ Session_Timeout s = PStr v) ->
  exists msg, session_expired_condition t df = inl (TypeError msg).
Proof.
  induction df as [| x df IH]; intros (s & v & Hin & Hv); [contradiction |].
  cbn [session_expired_condition]. unfold session_expired at 1.
  destruct (Session_Timeout x) as [u | n] eqn:Hx.
  - now eexists.
  - unfold ret at 1. cbn [bind].
    destruct Hin as [-> | Hin]; [congruence |].
    destruct IH as [msg ->]; [now exists s, v |]. now eexists.
Qed.

Lemma pop_default_snd (k : string) (v : pyval) (d : MultiDict.t) :
  snd (MultiDict.pop_default k v d) = snd (MultiDict.pop k d).
Proof.
  unfold MultiDict.pop_default. now destruct (MultiDict.pop k d) as [[x |] d'].
Qed.

Lemma pop_default_fst (k : string) (v : pyval) (d : MultiDict.t) :
  fst (MultiDict.pop_default k v d)
  = match MultiDict.get k d with Some x => x | None => v end.
Proof.
  unfold MultiDict.pop_default. rewrite <- UpdateFacts.pop_get.
  now destruct (MultiDict.pop k d) as [[x |] d'].
Qed.

Lemma RADIUSResponse_init_str_valued
  (content : option string) (now : Z) (r : RADIUSResponse) :
  RADIUSResponse_init content now = inr r ->
  str_valued (req_attrs r) /\ str_valued (rsp_attrs r).
Proof.
  intros H. apply RADIUSResponse_init_inr in H.
  destruct H as (raw & req & Hraw & Hreq & ->).
  destruct (parse_sections_str_valued _ _ _ Hraw) as [Hq Hp].
  cbn [req_attrs rsp_attrs set_req_attrs]. split; [| assumption].
  unfold redact_passwords in Hreq.
  apply bind_inr in Hreq. destruct Hreq as [d1 [H1 H2]].
  destruct (redact_key_total "User-Password" _ Hq) as (d1' & H1' & Hs1).
  rewrite H1 in H1'. inversion H1'; subst d1'.
  destruct (redact_key_total "Cleartext-Password" _ Hs1) as (d2' & H2' & Hs2).
  rewrite H2 in H2'. now inversion H2'; subst d2'.
Qed.

Section Sessions.

Variable World : Type.
Variable shell : string -> World -> (string * string) * World.
Variable clock : World -> Z * World.
Variable random : World -> Z * World.

Lemma adds_at_most_one_session_raise (e : exn) :
  adds_at_most_one_session (World := World) (raiseM e).
Proof.
  intros m. exists []. cbn. rewrite app_nil_r. split; [reflexivity |].
  split; [lia | now left].
Qed.

Lemma adds_at_most_one_session_bind {A : Type}
  (c : M World A) (f : A -> M World RADIUSResponse) :
  keeps_table 0 c ->
  (forall a, adds_at_most_one_session (f a)) ->
  adds_at_most_one_session (bindM c f).
Proof.
  intros Hc Hf m. unfold bindM.
  destruct (Hc m) as [Hs (cmds & Hcalls & Hlen)].
  destruct cmds as [| ? ?]; [| simpl in Hlen; lia]. rewrite app_nil_r in Hcalls.
  destruct (c m) as [[e | a] m1]; cbn [fst snd] in *.
  - exists []. rewrite app_nil_r. split; [assumption |]. split; [simpl; lia | now left].
  - destruct (Hf a m1) as (cmds & Hcmds & Hl & Hrow).
    exists cmds. rewrite Hcmds, Hcalls, Hs in *. now repeat split.
Qed.

(** [session] runs [radclient] at most twice and appends at most one
    row, and that only with an Accounting-Response. *)
Lemma session_adds_at_most_one_row (attrs : option MultiDict.t) :
  adds_at_most_one_session (session shell clock random attrs).
Proof.
  intros m.
  remember (session shell clock random attrs m) as out eqn:Hout.
  unfold session in Hout. unfold bindM at 1 in Hout.
  destruct (keeps_table_auth World shell clock attrs m) as [Hs (c1 & Hc1 & Hl1)].
  destruct (auth shell clock attrs m) as [[e | r] m1]; cbn [fst snd] in *.
  { subst out. exists c1. split; [assumption |]. split; [lia | now left]. }
  assert (Hrest : forall res : result RADIUSResponse,
             out = (res, m1) ->
             exists cmds,
               calls (snd out) = calls m ++ cmds /\
               (List.length cmds <= 2)%nat /\
               (sessions (self (snd out)) = sessions (self m) \/
                exists r0 row,
                  fst out = inr r0 /\ rsp_type r0 = ACCOUNTING_RESPONSE /\
                  sessions (self (snd out)) = sessions (self m) ++ [row])).
  { intros res ->. exists c1. cbn [fst snd].
    split; [assumption |]. split; [lia | now left]. }
  destruct (String.eqb (rsp_type r) ACCESS_ACCEPT).
  - clear Hrest. unfold bindM at 1 in Hout.
    destruct (keeps_table_acct World shell clock random (Some r) ACCT_START m1)
      as [Hs2 (c2 & Hc2 & Hl2)].
    destruct (acct shell clock random (Some r) ACCT_START m1) as [[e | r2] m2];
      cbn [fst snd] in *.
    { subst out. exists (c1 ++ c2). cbn [fst snd].
      rewrite Hc2, Hc1, app_assoc, length_app.
      split; [reflexivity |]. split; [lia |]. left. congruence. }
    destruct (String.eqb_spec (rsp_type r2) ACCOUNTING_RESPONSE) as [Hty | Hty].
    + rewrite (create_session_appends World r2 m2 Hty) in Hout. subst out.
      cbn [fst snd self calls].
      exists (c1 ++ c2). rewrite Hc2, Hc1, app_assoc, length_app.
      split; [reflexivity |]. split; [lia |]. right.
      eexists _, _. split; [reflexivity |]. split; [exact Hty |].
      cbn [sessions set_sessions]. rewrite Hs2, Hs. reflexivity.
    + subst out. exists (c1 ++ c2). cbn [retM fst snd].
      rewrite Hc2, Hc1, app_assoc, length_app.
      split; [reflexivity |]. split; [lia |]. left. congruence.
  - destruct (String.eqb (rsp_type r) ACCESS_REJECT); [now apply (Hrest (inr r)) |].
    destruct (String.eqb (rsp_type r) ACCESS_CHALLENGE); [now apply (Hrest (inr r)) |].
    destruct (str_in (rsp_type r) RESPONSE_ICONS);
      [now apply (Hrest (inr r)) | now apply (Hrest (inl (KeyError (rsp_type r))))].
Qed.


(** X12: [acct_stop_by_attrs] asks for three attributes before anything
    else: without an [Acct-Session-Id], a [User-Name] or a
    [Calling-Station-Id] it raises [ValueError]; nothing is sent and the
    machine is as it was. *)
Theorem acct_stop_by_attrs_requires_three_attributes
  (attrs : MultiDict.t) (m : machine World) :
  MultiDict.get "Acct-Session-Id" attrs = None \/
  MultiDict.get "User-Name" attrs = None \/
  MultiDict.get "Calling-Station-Id" attrs = None ->
  exists msg,
    acct_stop_by_attrs shell clock (Some attrs) m = (inl (ValueError msg), m).
Proof.
  intros H. unfold acct_stop_by_attrs.
  destruct (MultiDict.get "Acct-Session-Id" attrs); [| now eexists].
  destruct (MultiDict.get "User-Name" attrs); [| now eexists].
  destruct (MultiDict.get "Calling-Station-Id" attrs); [| now eexists].
  destruct H as [H | [H | H]]; discriminate.
Qed.

(** X13: what [acct_stop_by_attrs] does to the table.  It never adds a
    row.  It changes the table only when the exchange returns an accepted
    accounting response, and then no row is left whose [Acct-Session-Id]
    is the one of the attributes; a raised exception, a rejected or an
    unexpected response leave the table as it was. *)
Theorem acct_stop_by_attrs_table (attrs : MultiDict.t) (m : machine World) :
  let out := acct_stop_by_attrs shell clock (Some attrs) m in
  (forall x, In x (sessions (self (snd out))) -> In x (sessions (self m))) /\
  ((exists rsp,
       fst out = inr rsp /\ is_accepted rsp = true /\
       forall x, In x (sessions (self (snd out))) ->
                 Some (Acct_Session_Id x) <> MultiDict.get "Acct-Session-Id" attrs)
   \/ sessions (self (snd out)) = sessions (self m)).
Proof.
  intros out.
  assert (Hsame : sessions (self (snd out)) = sessions (self m) ->
                  (forall x, In x (sessions (self (snd out))) ->
                             In x (sessions (self m))) /\
                  ((exists rsp,
                       fst out = inr rsp /\ is_accepted rsp = true /\
                       forall x, In x (sessions (self (snd out))) ->
                                 Some (Acct_Session_Id x)
                                 <> MultiDict.get "Acct-Session-Id" attrs)
                   \/ sessions (self (snd out)) = sessions (self m))).
  { intros ->. split; [tauto | now right]. }
  remember out as o eqn:Ho. unfold out in Ho. clear out.
  unfold acct_stop_by_attrs in Ho.
  destruct (MultiDict.get "Acct-Session-Id" attrs) as [sid |] eqn:Hsid;
    [| subst o; now apply Hsame].
  destruct (MultiDict.get "User-Name" attrs); [| subst o; now apply Hsame].
  destruct (MultiDict.get "Calling-Station-Id" attrs); [| subst o; now apply Hsame].
  set (attrs1 := match MultiDict.get "Acct-Status-Type" attrs with
                 | Some _ => attrs
                 | None => MultiDict.setitem "Acct-Status-Type" (PStr ACCT_STOP) attrs
                 end) in Ho.
  assert (Hsid1 : MultiDict.get "Acct-Session-Id" attrs1 = Some sid).
  { subst attrs1. destruct (MultiDict.get "Acct-Status-Type" attrs); [assumption |].
    now rewrite MultiDictFacts.get_setitem_other by discriminate. }
  cbv beta iota zeta delta [bindM retM raiseM get_self run_shell new_RADIUSResponse
                              now liftM put_self] in Ho.
  destruct (MultiDict.get "Timestamp" attrs1).
  { destruct (clock (world m)) as [t w]. subst o. now apply Hsame. }
  cbn [self world calls] in Ho.
  destruct (shell _ (world m)) as [[std_out std_err] w1]. cbn [self world calls] in Ho.
  destruct (clock w1) as [t w2]. cbn [self world calls] in Ho.
  destruct (RADIUSResponse_init (Some std_out) t) as [e | rsp];
    [subst o; now apply Hsame |].
  destruct (is_accepted rsp) eqn:Hacc; [| subst o; now apply Hsame].
  cbn [self world calls] in Ho. subst o. cbn [fst snd self sessions set_sessions].
  clear Hsame. split.
  - intros x Hx. apply DataFrameFacts.in_drop in Hx. tauto.
  - left. exists rsp. split; [reflexivity |]. split; [assumption |].
    intros x Hx Heq. apply DataFrameFacts.in_drop in Hx. destruct Hx as [Hx Hno].
    apply Hno. apply DataFrameFacts.in_index_loc; [assumption |].
    rewrite Hsid1. unfold DataFrame.id_is. inversion Heq. apply pyval_eqb_refl.
Qed.

Lemma pop_remove_all (k : string) (d : MultiDict.t) :
  MultiDict.unique_keys d ->
  snd (MultiDict.pop k d) = MultiDict.remove_all k d.
Proof.
  unfold MultiDict.unique_keys, MultiDict.remove_all.
  induction d as [| [k0 v0] d IH]; simpl; intros Hu; [reflexivity |].
  inversion Hu as [| ? ? Hnin Hu']; subst.
  destruct (String.eqb_spec k0 k) as [-> | Hne]; simpl.
  - symmetry. apply filter_all. intros [k1 v1] Hin. cbn.
    destruct (String.eqb_spec k1 k) as [-> | ]; [| reflexivity].
    exfalso. apply Hnin. change k with (fst (k, v1)). now apply in_map.
  - specialize (IH Hu'). destruct (MultiDict.pop k d) as [r rest].
    simpl in *. now rewrite IH.
Qed.

Lemma remove_all_unique_keys (k : string) (d : MultiDict.t) :
  MultiDict.unique_keys d -> MultiDict.unique_keys (MultiDict.remove_all k d).
Proof.
  intros Hu. rewrite <- pop_remove_all by exact Hu.
  now apply UpdateFacts.pop_unique_keys.
Qed.

Lemma remove_all_filter (k : string) (p : string * pyval -> bool) (d : MultiDict.t) :
  MultiDict.remove_all k (filter p d)
  = filter (fun kv => p kv && negb (String.eqb (fst kv) k)) d.
Proof.
  unfold MultiDict.remove_all.
  induction d as [| kv d IH]; simpl; [reflexivity |].
  destruct (p kv); simpl; [| exact IH].
  destruct (negb _); simpl; now rewrite IH.
Qed.

Lemma get_without_in (names : list string) (k : string) (d : MultiDict.t) :
  In k names ->
  MultiDict.get k (filter (fun kv => negb (str_in (fst kv) names)) d) = None.
Proof.
  intros Hk.
  induction d as [| [k0 v0] d IH]; [reflexivity |].
  cbn [filter fst]. destruct (str_in k0 names) eqn:E; cbn [negb]; [exact IH |].
  cbn [MultiDict.get]. destruct (String.eqb_spec k0 k) as [-> | _]; [| exact IH].
  assert (H : str_in k names = true).
  { apply existsb_exists. exists k. split; [exact Hk | apply String.eqb_refl]. }
  congruence.
Qed.

Lemma get_without_other (names : list string) (k : string) (d : MultiDict.t) :
  ~ In k names ->
  MultiDict.get k (filter (fun kv => negb (str_in (fst kv) names)) d)
  = MultiDict.get k d.
Proof.
  intros Hk.
  induction d as [| [k0 v0] d IH]; [reflexivity |].
  cbn [filter fst]. destruct (str_in k0 names) eqn:E; cbn [negb].
  - cbn [MultiDict.get]. destruct (String.eqb_spec k0 k) as [-> | _]; [| exact IH].
    exfalso. apply Hk. apply existsb_exists in E.
    destruct E as [x [Hx Hkx]]. apply String.eqb_eq in Hkx. now subst.
  - cbn [MultiDict.get]. destruct (String.eqb k0 k); [reflexivity | exact IH].
Qed.

Lemma pop_default_inv (k : string) (v x : pyval) (d d' : MultiDict.t) :
  MultiDict.pop_default k v d = (x, d') ->
  x = match MultiDict.get k d with Some y => y | None => v end /\
  d' = snd (MultiDict.pop k d).
Proof.
  intros H. rewrite <- (pop_default_fst k v d), <- (pop_default_snd k v d), H.
  now split.
Qed.

(** X14: the row that [create_session] appends for an
    Accounting-Response whose request dictionary holds each name once.
    Every cell of the row is given: the index label is the time of the
    response cut to milliseconds, [Method] is the guess made from the
    response as it came, each of the twelve columns popped from the
    request attributes holds the value of its name there, or its default
    (Start, 3600, the empty string) when the name is absent, and [Other]
    renders the attributes that are left, in their order.  Afterwards the
    request dictionary of the response holds none of the twelve column
    names any more, and its other attributes are untouched.  Nothing is
    sent. *)
Theorem create_session_moves_the_columns
  (response : RADIUSResponse) (m : machine World) :
  rsp_type response = ACCOUNTING_RESPONSE ->
  MultiDict.unique_keys (req_attrs response) ->
  let cell k default :=
    match MultiDict.get k (req_attrs response) with
    | Some v => v
    | None => default
    end in
  let rest :=
    filter (fun kv => negb (str_in (fst kv) POPPED_COLUMNS)) (req_attrs response) in
  let row :=
    mkSession
      (isoformat_milliseconds (timestamp response))
      (guess_access_method response)
      (cell "Acct-Status-Type"%string (PStr ACCT_START))
      (cell "User-Name"%string (PStr EmptyString))
      (cell "Calling-Station-Id"%string (PStr EmptyString))
      (cell "Framed-IP-Address"%string (PStr EmptyString))
      (cell "Session-Timeout"%string (PInt SESSION_TIMEOUT))
      (cell "Acct-Session-Id"%string (PStr EmptyString))
      (cell "Called-Station-Id"%string (PStr EmptyString))
      (cell "NAS-Port-Type"%string (PStr EmptyString))
      (cell "NAS-Port-Id"%string (PStr EmptyString))
      (cell "NAS-Port"%string (PStr EmptyString))
      (cell "NAS-Identifier"%string (PStr EmptyString))
      (cell "Class"%string (PStr EmptyString))
      (to_avp_string rest) in
  create_session response m
  = (inr (set_req_attrs response rest),
     mkMachine (set_sessions (self m) (sessions (self m) ++ [row]))
       (world m) (calls m)) /\
  (forall k, In k POPPED_COLUMNS -> MultiDict.get k rest = None) /\
  (forall k, ~ In k POPPED_COLUMNS ->
             MultiDict.get k rest = MultiDict.get k (req_attrs response)).
Proof.
  intros Hty Hu cell rest row.
  rewrite (create_session_appends World response m Hty).
  assert (Hrow : session_row response = (row, rest)).
  { unfold session_row.
    repeat match goal with
           | |- context [let '(_, _) := MultiDict.pop_default ?k ?v ?d in _] =>
               let x := fresh "x" in
               let d' := fresh "d" in
               let E := fresh "E" in
               destruct (MultiDict.pop_default k v d) as [x d'] eqn:E;
               apply pop_default_inv in E; destruct E as [? ?]
           end.
    subst.
    repeat rewrite UpdateFacts.get_pop_other by discriminate.
    assert (Hrest : snd (MultiDict.pop "Class"
              (snd (MultiDict.pop "NAS-Identifier"
              (snd (MultiDict.pop "NAS-Port"
              (snd (MultiDict.pop "NAS-Port-Id"
              (snd (MultiDict.pop "NAS-Port-Type"
              (snd (MultiDict.pop "Called-Station-Id"
              (snd (MultiDict.pop "Acct-Session-Id"
              (snd (MultiDict.pop "Session-Timeout"
              (snd (MultiDict.pop "Framed-IP-Address"
              (snd (MultiDict.pop "Calling-Station-Id"
              (snd (MultiDict.pop "User-Name"
              (snd (MultiDict.pop "Acct-Status-Type" (req_attrs response))))))))))))))))))))))))
              = rest).
    { repeat (rewrite pop_remove_all
                by (repeat apply UpdateFacts.pop_unique_keys; exact Hu)).
      change (MultiDict.remove_all "Acct-Status-Type" (req_attrs response))
        with (filter (fun kv : string * pyval =>
                        negb (String.eqb (fst kv) "Acct-Status-Type"))
                (req_attrs response)).
      repeat rewrite remove_all_filter.
      unfold rest. apply filter_ext. intros [k v]. cbn [fst].
      unfold str_in, POPPED_COLUMNS. cbn [existsb].
      rewrite !(String.eqb_sym k). rewrite !negb_orb. cbn [negb].
      rewrite !andb_true_r, <- !andb_assoc. reflexivity. }
    rewrite Hrest. reflexivity. }
  rewrite Hrow. cbn [fst snd]. split; [reflexivity |].
  split.
  - intros k Hk. now apply get_without_in.
  - intros k Hk. now apply get_without_other.
Qed.

(** X15: a session created from a parsed transcript is never found by an
    integer id: the cell [Acct-Session-Id] of its row is the text read
    from the transcript (or the empty string), so [get_sessions_by_id]
    with an integer, such as a value handed out by [generate_session_id],
    gives the rows it gave before, although the table has one row more. *)
Theorem created_session_is_not_found_by_integer_id
  (content : option string) (t : Z) (response : RADIUSResponse)
  (m : machine World) (n : Z) :
  RADIUSResponse_init content t = inr response ->
  rsp_type response = ACCOUNTING_RESPONSE ->
  let m' := snd (create_session response m) in
  get_session_count (self m') = (get_session_count (self m) + 1)%Z /\
  get_sessions_by_id (Some (PInt n)) (self m')
  = get_sessions_by_id (Some (PInt n)) (self m).
Proof.
  intros Hparse Hty m'. subst m'.
  rewrite (create_session_appends World response m Hty).
  cbn [snd self sessions set_sessions].
  unfold get_session_count, get_sessions_by_id, DataFrame.len, DataFrame.loc.
  cbn [sessions set_sessions].
  split; [rewrite length_app; simpl; lia |].
  f_equal. rewrite filter_app. cbn [filter].
  assert (Hid : exists s, Acct_Session_Id (fst (session_row response)) = PStr s).
  { destruct (RADIUSResponse_init_str_valued _ _ _ Hparse) as [Hs _].
    unfold session_row.
    repeat match goal with
           | |- context [let '(_, _) := MultiDict.pop_default ?k ?v ?d in _] =>
               let x := fresh "x" in
               let d' := fresh "d" in
               let E := fresh "E" in
               destruct (MultiDict.pop_default k v d) as [x d'] eqn:E;
               apply pop_default_inv in E; destruct E as [? ?]
           end.
    subst. cbn [fst Acct_Session_Id].
    repeat rewrite UpdateFacts.get_pop_other by discriminate.
    destruct (MultiDict.get "Acct-Session-Id" (req_attrs response)) as [v |] eqn:Hget;
      [| now eexists].
    apply get_in in Hget. exact (Hs _ _ Hget). }
  destruct Hid as [s Hs]. unfold DataFrame.id_is at 2. rewrite Hs.
  cbn [pyval_eqb]. now rewrite app_nil_r.
Qed.

Lemma stop_timed_out_string_timeout (m : machine World) (s : Session) (v : string) :
  In s (sessions (self m)) ->
  Session_Timeout s = PStr v ->
  exists msg,
    stop_timed_out shell clock m
    = (inl (TypeError msg), mkMachine (self m) (snd (clock (world m))) (calls m)).
Proof.
  intros Hin Hv. unfold stop_timed_out, bindM, get_self, now, liftM.
  assert (Hlen : (DataFrame.len (sessions (self m)) <=? 0)%Z = false).
  { unfold DataFrame.len. destruct (sessions (self m)); [contradiction |].
    apply Z.leb_gt. rewrite length_cons. lia. }
  rewrite Hlen. destruct (clock (world m)) as [t w]. cbn [snd self world calls].
  destruct (session_expired_condition_str t (sessions (self m))) as [msg ->];
    [now exists s, v |].
  now eexists.
Qed.

(** X16: a sweep with a row, left by the four-day drop, whose
    [Session-Timeout] cell holds a string raises [TypeError] at the
    comparison with the ages; no Stop is sent for any row. *)
Theorem sweep_raises_on_a_string_timeout
  (m : machine World) (s : Session) (v : string) :
  In s (after_four_day_drop (fst (clock (world m)) - FOUR_DAYS)
          (sessions (self m))) ->
  Session_Timeout s = PStr v ->
  exists msg m',
    stop_expired_sessions shell clock m = (inl (TypeError msg), m') /\
    calls m' = calls m.
Proof.
  intros Hin Hv. unfold stop_expired_sessions, bindM.
  rewrite (drop_four_day_old_spec World clock m).
  destruct (stop_timed_out_string_timeout
              (mkMachine
                 (set_sessions (self m)
                    (after_four_day_drop (fst (clock (world m)) - FOUR_DAYS)
                       (sessions (self m))))
                 (snd (clock (world m))) (calls m)) s v Hin Hv) as [msg ->].
  now eexists _, _.
Qed.

(** X17: a sweep never adds a row and changes nothing of the object but
    its table: every row left when [stop_expired_sessions] ends, by
    return or by exception, was in the table before. *)
Theorem sweep_only_removes_rows (m : machine World) :
  let m' := snd (stop_expired_sessions shell clock m) in
  exists df,
    self m' = set_sessions (self m) df /\
    forall x, In x df -> In x (sessions (self m)).
Proof.
  intros m'. subst m'. unfold stop_expired_sessions, bindM.
  rewrite (drop_four_day_old_spec World clock m).
  set (m1 := mkMachine _ _ _).
  destruct (stop_timed_out_trace World shell clock m1)
    as (res & w & labels & stopped & -> & _ & _).
  subst m1. cbn [snd self sessions set_sessions].
  eexists. split.
  - unfold set_sessions. cbn. reflexivity.
  - intros x Hx. apply DataFrameFacts.in_drop in Hx. destruct Hx as [Hx _].
    apply after_four_day_drop_survivors in Hx. tauto.
Qed.

End Sessions.

(** ** The scenarios *)




Section ScenarioFacts.

Variable World : Type.
Variable shell : string -> World -> (string * string) * World.
Variable clock : World -> Z * World.
Variable random : World -> Z * World.

Lemma scenario_port_run (i : nat) (m : machine World) :
  str_in (nth i NAS_PORT_TYPES EmptyString) NAS_PORT_TYPES = true ->
  exists port,
    scenario_port random i m
    = (inr port, mkMachine (self m) (snd (random (world m))) (calls m)) /\
    (1 <= port <= port_max (nth i NAS_PORT_TYPES EmptyString) - 1)%Z.
Proof.
  intros Hin. unfold scenario_port, bindM, draw, liftM.
  destruct (random (world m)) as [d w]. cbn [snd self world calls].
  destruct (generate_port (nth i NAS_PORT_TYPES EmptyString) d) as [e | port] eqn:Hp.
  - exfalso. unfold generate_port in Hp. rewrite Hin in Hp. cbn [negb] in Hp.
    unfold randrange in Hp.
    destruct (Z.leb_spec (port_max (nth i NAS_PORT_TYPES EmptyString)) 1) as [H | H];
      [| discriminate].
    unfold port_max in H.
    repeat match type of H with
           | context [if ?c then _ else _] => destruct c
           end; lia.
  - exists port. split; [reflexivity |]. now apply generate_port_range in Hp.
Qed.

Lemma keeps_table_scenario_port (i : nat) :
  keeps_table 0 (scenario_port random i).
Proof.
  unfold scenario_port. apply (keeps_table_bind World 0 0).
  - apply keeps_table_draw.
  - intros d. apply keeps_table_lift.
Qed.





Lemma scenario_after_port {A : Type} (i : nat) (k : Z -> M World A)
  (m : machine World) :
  str_in (nth i NAS_PORT_TYPES EmptyString) NAS_PORT_TYPES = true ->
  exists port,
    bindM (scenario_port random i) k m
    = k port (mkMachine (self m) (snd (random (world m))) (calls m)) /\
    (1 <= port <= port_max (nth i NAS_PORT_TYPES EmptyString) - 1)%Z.
Proof.
  intros Hin. destruct (scenario_port_run i m Hin) as (port & Hrun & Hport).
  exists port. unfold bindM. rewrite Hrun. now split.
Qed.

(** X18: what the scenarios do with a missing argument.  The two 802.1X
    scenarios called without a password raise [TypeError] before anything
    else, whatever the other arguments: the machine is as it was.  With a
    password given but empty, or without a user name, they raise
    [ValueError]; so do the MAB scenarios without a calling address and
    the VPN scenario without a user name, a password or a calling address.
    In each case nothing is sent and the object is unchanged. *)
Theorem scenarios_validate_before_sending (m : machine World) :
  (forall username calling called nas_port_id attributes,
      (exists msg,
          dot1x_wired_pap shell clock random username None calling called
            nas_port_id attributes m = (inl (TypeError msg), m)) /\
      (exists msg,
          dot1x_wireless_pap shell clock random username None calling called
            nas_port_id attributes m = (inl (TypeError msg), m))) /\
  (forall username password calling called nas_port_id attributes,
      password <> None ->
      is_blank username = true \/ is_blank password = true ->
      refuses_unsent
        (dot1x_wired_pap shell clock random username password calling
           called nas_port_id attributes) m /\
      refuses_unsent
        (dot1x_wireless_pap shell clock random username password calling
           called nas_port_id attributes) m) /\
  (forall calling called nas_port_id attributes ssid,
      is_blank calling = true ->
      refuses_unsent
        (mab_wired shell clock random calling called nas_port_id attributes) m /\
      refuses_unsent
        (mab_wireless shell clock random calling called attributes nas_port_id
           ssid) m) /\
  (forall username password calling called nas_port_id attributes,
      is_blank username = true \/ is_blank password = true \/
      is_blank calling = true ->
      refuses_unsent
        (vpn shell clock random username password calling called nas_port_id
           attributes) m).
Proof.
  split; [| split; [| split]].
  - intros. split; now eexists.
  - intros username password calling called nas_port_id attributes Hp Hblank.
    destruct password as [password |]; [clear Hp | contradiction].
    assert (H : forall i,
               str_in (nth i NAS_PORT_TYPES EmptyString) NAS_PORT_TYPES = true ->
               refuses_unsent
                 (dot1x_pap shell clock random i username (Some password) calling
                    called nas_port_id attributes) m).
    { intros i Hi. unfold refuses_unsent, dot1x_pap.
      destruct (scenario_after_port i
                  (fun port =>
                     if is_blank username
                     then raiseM (ValueError "username is empty")
                     else if is_blank (Some password)
                          then raiseM (ValueError "password is empty")
                          else session shell clock random
                                 (Some (dot1x_attrs_of
                                          (nth i NAS_PORT_TYPES EmptyString)
                                          (text_of username) (text_of (Some password))
                                          calling called nas_port_id attributes port)))
                  m Hi) as (port & -> & _).
      destruct (is_blank username) eqn:Hu; [now eexists _, _ |].
      destruct Hblank as [Hb | Hb]; [discriminate |].
      rewrite Hb. now eexists _, _. }
    split; [apply (H 15%nat) | apply (H 19%nat)]; reflexivity.
  - intros calling called nas_port_id attributes ssid Hblank. split.
    + unfold refuses_unsent, mab_wired.
      destruct (scenario_after_port 15
                  (fun port =>
                     if is_blank calling
                     then raiseM (ValueError "calling is empty")
                     else session shell clock random
                            (Some (mab_wired_attrs (text_of calling) called
                                     nas_port_id attributes port)))
                  m eq_refl) as (port & -> & _).
      rewrite Hblank. now eexists _, _.
    + unfold refuses_unsent, mab_wireless.
      destruct (scenario_after_port 19
                  (fun port =>
                     if is_blank calling
                     then raiseM (ValueError "calling is empty")
                     else session shell clock random
                            (Some (mab_wireless_attrs (text_of calling) called
                                     attributes nas_port_id ssid port)))
                  m eq_refl) as (port & -> & _).
      rewrite Hblank. now eexists _, _.
  - intros username password calling called nas_port_id attributes Hblank.
    unfold refuses_unsent, vpn.
    destruct (scenario_after_port 5
                (fun port =>
                   if is_blank username
                   then raiseM (ValueError "username is empty")
                   else if is_blank password
                        then raiseM (ValueError "password is empty")
                        else if is_blank calling
                             then raiseM (ValueError "calling is empty")
                             else session shell clock random
                                    (Some (vpn_attrs (text_of username)
                                             (text_of password) (text_of calling)
                                             called nas_port_id attributes port)))
                m eq_refl) as (port & -> & _).
    destruct (is_blank username); [now eexists _, _ |].
    destruct (is_blank password); [now eexists _, _ |].
    destruct (is_blank calling); [now eexists _, _ |].
    destruct Hblank as [H | [H | H]]; discriminate.
Qed.

(** X11: [session] and every scenario built on it run [radclient] at
    most twice.  Each either leaves the table as it was, or returns an
    Accounting-Response and has appended exactly one row; a refused
    argument, a rejected, challenged, unanswered or failed authentication
    and an unanswered accounting start add nothing. *)
Theorem sessions_are_added_one_at_a_time
  (username password calling called ssid : option string)
  (nas_port_id : option pyval) (attributes : option MultiDict.t) :
  adds_at_most_one_session (session shell clock random attributes) /\
  adds_at_most_one_session
    (dot1x_wired_pap shell clock random username password calling called
       nas_port_id attributes) /\
  adds_at_most_one_session
    (dot1x_wireless_pap shell clock random username password calling called
       nas_port_id attributes) /\
  adds_at_most_one_session
    (mab_wired shell clock random calling called nas_port_id attributes) /\
  adds_at_most_one_session
    (mab_wireless shell clock random calling called attributes nas_port_id ssid) /\
  adds_at_most_one_session
    (vpn shell clock random username password calling called nas_port_id
       attributes).
Proof.
  assert (Hd : forall i,
             adds_at_most_one_session
               (dot1x_pap shell clock random i username password calling called
                  nas_port_id attributes)).
  { intros i. unfold dot1x_pap.
    destruct password as [p |]; [| apply adds_at_most_one_session_raise].
    apply adds_at_most_one_session_bind; [apply keeps_table_scenario_port |].
    intros port.
    destruct (is_blank username); [apply adds_at_most_one_session_raise |].
    destruct (is_blank (Some p)); [apply adds_at_most_one_session_raise |].
    apply session_adds_at_most_one_row. }
  split; [apply session_adds_at_most_one_row |].
  split; [apply Hd |]. split; [apply Hd |].
  split; [| split].
  - unfold mab_wired.
    apply adds_at_most_one_session_bind; [apply keeps_table_scenario_port |].
    intros port.
    destruct (is_blank calling); [apply adds_at_most_one_session_raise |].
    apply session_adds_at_most_one_row.
  - unfold mab_wireless.
    apply adds_at_most_one_session_bind; [apply keeps_table_scenario_port |].
    intros port.
    destruct (is_blank calling); [apply adds_at_most_one_session_raise |].
    apply session_adds_at_most_one_row.
  - unfold vpn.
    apply adds_at_most_one_session_bind; [apply keeps_table_scenario_port |].
    intros port.
    destruct (is_blank username); [apply adds_at_most_one_session_raise |].
    destruct (is_blank password); [apply adds_at_most_one_session_raise |].
    destruct (is_blank calling); [apply adds_at_most_one_session_raise |].
    apply session_adds_at_most_one_row.
Qed.






End ScenarioFacts.

(** ** Rendering a response and reading it back *)

Lemma splitlines_nonempty (c : ascii) (s : string) :
  PyStr.splitlines (String c s) <> [].
Proof.
  cbn [PyStr.splitlines]. destruct (PyStr.is_linebreak c); [discriminate |].
  destruct (PyStr.splitlines s); discriminate.
Qed.

Lemma splitlines_line_feed (t : string) :
  PyStr.splitlines (String PyStr.LF t) = EmptyString :: PyStr.splitlines t.
Proof. destruct t; reflexivity. Qed.

Lemma splitlines_two (c c2 : ascii) (x : string) :
  PyStr.splitlines (String c (String c2 x))
  = if PyStr.is_linebreak c
    then EmptyString ::
           (if (c =? PyStr.CR)%char && (c2 =? PyStr.LF)%char
            then PyStr.splitlines x
            else PyStr.splitlines (String c2 x))
    else match PyStr.splitlines (String c2 x) with
         | [] => [PyStr.one c]
         | l :: ls => String c l :: ls
         end.
Proof. reflexivity. Qed.

(** A line feed ends a line whatever follows it. *)
Lemma splitlines_after_line_feed (n : nat) :
  forall p t,
    (String.length p <= n)%nat ->
    PyStr.splitlines (p ++ PyStr.nl ++ t)
    = PyStr.splitlines (p ++ PyStr.nl) ++ PyStr.splitlines t.
Proof.
  induction n as [| n IH]; intros p t Hlen.
  - destruct p; [apply splitlines_line_feed | simpl in Hlen; lia].
  - destruct p as [| c [| c2 p2]]; [apply splitlines_line_feed | |].
    + change ((String c "" ++ PyStr.nl ++ t)%string)
        with (String c (String PyStr.LF t)).
      change ((String c "" ++ PyStr.nl)%string)
        with (String c (String PyStr.LF EmptyString)).
      rewrite !splitlines_two, !splitlines_line_feed.
      destruct (PyStr.is_linebreak c); [| reflexivity].
      destruct ((c =? PyStr.CR)%char && (PyStr.LF =? PyStr.LF)%char); reflexivity.
    + change ((String c (String c2 p2) ++ PyStr.nl ++ t)%string)
        with (String c (String c2 (p2 ++ PyStr.nl ++ t))).
      change ((String c (String c2 p2) ++ PyStr.nl)%string)
        with (String c (String c2 (p2 ++ PyStr.nl))).
      rewrite !splitlines_two.
      assert (Htail : PyStr.splitlines (String c2 (p2 ++ PyStr.nl ++ t))
                      = PyStr.splitlines (String c2 (p2 ++ PyStr.nl))
                          ++ PyStr.splitlines t).
      { apply (IH (String c2 p2) t). simpl in Hlen |- *. lia. }
      destruct (PyStr.is_linebreak c).
      * destruct ((c =? PyStr.CR)%char && (c2 =? PyStr.LF)%char); cbn [app]; f_equal.
        -- apply IH. simpl in Hlen. lia.
        -- exact Htail.
      * rewrite Htail.
        destruct (PyStr.splitlines (String c2 (p2 ++ PyStr.nl))) as [| l ls] eqn:Hp;
          [| reflexivity].
        exfalso. revert Hp. apply splitlines_nonempty.
Qed.

Lemma unpack_header_ValueError (line : string) (e : exn) :
  unpack_header line = inl e -> is_ValueError e = true.
Proof.
  unfold unpack_header.
  destruct (PyStr.split PyStr.SPACE line) as [| ? [| ? [| ? [| ? [| ? [| ? [| ? [| ? [| ? [| ? [| ? ?]]]]]]]]]]];
    intros H; inversion H; reflexivity.
Qed.

Lemma unpack_endpoint_ValueError (endpoint : string) (e : exn) :
  unpack_endpoint endpoint = inl e -> is_ValueError e = true.
Proof.
  unfold unpack_endpoint.
  destruct (PyStr.split ":" endpoint) as [| ? [| ? [| ? ?]]];
    intros H; inversion H; reflexivity.
Qed.

Lemma parse_avp_ValueError (line : string) (e : exn) :
  parse_avp line = inl e -> is_ValueError e = true.
Proof.
  unfold parse_avp.
  destruct (PyStr.split1 "=" _) as [| ? [| ? [| ? ?]]];
    intros H; inversion H; reflexivity.
Qed.

(** The Sent loop over lines that end with the line of a bare
    indentation: it stops at that line at the latest. *)
Lemma sent_loop_before_blank (lines : list string) :
  forall d,
    match sent_loop (lines ++ [INDENT]) d with
    | inl e => is_ValueError e = true
    | inr (line, rest, _) =>
        (line = INDENT /\ rest = []) \/ exists rest', rest = rest' ++ [INDENT]
    end.
Proof.
  induction lines as [| l lines IH]; intros d.
  - cbn. now left.
  - cbn [app sent_loop].
    destruct (PyStr.is_empty l); [right; now eexists |].
    destruct (PyStr.find "=" l <=? 0)%Z; [right; now eexists |].
    destruct (parse_avp l) as [e | [key val]] eqn:Hp; cbn [bind].
    + now apply parse_avp_ValueError in Hp.
    + apply IH.
Qed.

(** The Received loop cannot unpack the line of a bare indentation. *)
Lemma received_loop_blank (lines : list string) :
  forall d, exists e,
    received_loop (lines ++ [INDENT]) d = inl e /\ is_ValueError e = true.
Proof.
  induction lines as [| l lines IH]; intros d.
  - cbn. eexists. split; reflexivity.
  - cbn [app received_loop].
    destruct (parse_avp l) as [e | [key val]] eqn:Hp; cbn [bind].
    + exists e. split; [reflexivity |]. now apply parse_avp_ValueError in Hp.
    + apply IH.
Qed.

Lemma parse_lines_ending_blank (content : string) (now : Z) (lines : list string) :
  (PyStr.find "Received" content <=? 0)%Z = false ->
  PyStr.splitlines content = lines ++ [INDENT] ->
  lines <> [] ->
  exists e, parse_sections (Some content) now = inl e /\ is_ValueError e = true.
Proof.
  intros Hfind Hlines Hne. unfold parse_sections. rewrite Hfind, Hlines.
  destruct lines as [| l0 lines]; [contradiction |]. cbn [app].
  destruct (unpack_header l0) as [e | sent] eqn:H0; cbn [bind].
  { exists e. split; [reflexivity |]. now apply unpack_header_ValueError in H0. }
  destruct (unpack_endpoint (h_from sent)) as [e | [a b]] eqn:H1; cbn [bind].
  { exists e. split; [reflexivity |]. now apply unpack_endpoint_ValueError in H1. }
  destruct (unpack_endpoint (h_to sent)) as [e | [a' b']] eqn:H2; cbn [bind].
  { exists e. split; [reflexivity |]. now apply unpack_endpoint_ValueError in H2. }
  pose proof (sent_loop_before_blank lines MultiDict.empty) as Hs.
  destruct (sent_loop (lines ++ [INDENT]) MultiDict.empty)
    as [e | [[line rest] req]]; cbn [bind].
  { now exists e. }
  destruct (unpack_header line) as [e | rcvd] eqn:H3; cbn [bind].
  { exists e. split; [reflexivity |]. now apply unpack_header_ValueError in H3. }
  destruct Hs as [[-> _] | [rest' ->]]; [discriminate H3 |].
  destruct (unpack_endpoint (h_to rcvd)) as [e | [a2 b2]] eqn:H4; cbn [bind].
  { exists e. split; [reflexivity |]. now apply unpack_endpoint_ValueError in H4. }
  destruct (unpack_endpoint (h_from rcvd)) as [e | [a3 b3]] eqn:H5; cbn [bind].
  { exists e. split; [reflexivity |]. now apply unpack_endpoint_ValueError in H5. }
  destruct (negb (str_in (h_type rcvd) RSP_TYPES)).
  { eexists. split; reflexivity. }
  destruct (received_loop_blank rest' MultiDict.empty) as (e & -> & He).
  cbn [bind]. now exists e.
Qed.

(** A text that begins with another letter and holds the word further
    on passes the first test of the constructor. *)
Lemma find_past_the_start (word a c : string) (x y : ascii) (w : string) :
  word = String y w ->
  x <> y ->
  (PyStr.find word (String x a ++ word ++ c) <=? 0)%Z = false.
Proof.
  intros Hw Hxy. unfold PyStr.find.
  destruct (index 0 word (String x a ++ word ++ c)) as [i |] eqn:Hi.
  - apply Z.leb_gt. destruct i as [| i]; [| lia].
    exfalso. apply index_correct1 in Hi. subst word. simpl in Hi.
    inversion Hi. contradiction.
  - exfalso.
    apply (index_correct3 0 (String.length (String x a)) _ _ Hi).
    + subst word. discriminate.
    + lia.
    + apply substring_middle.
Qed.

(** X23: the text that [to_radclient_log] (and so [str]) gives for a
    response without response attributes, as every Access-Reject is, is
    not a transcript the constructor reads back: its last line is a bare
    indentation, and [RADIUSResponse] of the text raises [ValueError]. *)
Theorem log_of_a_response_without_reply_attributes_is_not_read_back
  (r : RADIUSResponse) (now : Z) :
  rsp_attrs r = [] ->
  exists msg,
    RADIUSResponse_init (Some (to_radclient_log r)) now = inl (ValueError msg).
Proof.
  intros Hrsp.
  set (p := ((sent_line r ++ PyStr.nl) ++ avp_block (req_attrs r)
               ++ received_line r)%string).
  assert (Hcontent : to_radclient_log r = (p ++ PyStr.nl ++ (INDENT ++ PyStr.nl))%string).
  { unfold to_radclient_log, p. rewrite Hrsp.
    change (avp_block []) with ((INDENT ++ PyStr.nl)%string).
    now rewrite !append_assoc. }
  assert (Hfind : (PyStr.find "Received" (to_radclient_log r) <=? 0)%Z = false).
  { set (rest := (" " ++ rsp_type r ++ " Id " ++ id_ r ++ " from " ++ srv_ip r
                    ++ ":" ++ srv_port r ++ " to " ++ nas_ip r ++ ":"
                    ++ nas_port r ++ " length " ++ rsp_length r)%string).
    set (front := ("ent " ++ req_type r ++ " Id " ++ id_ r ++ " from "
                     ++ nas_ip r ++ ":" ++ nas_port r ++ " to " ++ srv_ip r
                     ++ ":" ++ srv_port r ++ " length " ++ req_length r)%string).
    assert (Heq : to_radclient_log r
                  = (String "S" ((front ++ PyStr.nl) ++ avp_block (req_attrs r))
                       ++ "Received"
                       ++ (rest ++ PyStr.nl) ++ avp_block (rsp_attrs r))%string).
    { unfold to_radclient_log.
      change (sent_line r) with (String "S" front).
      change (received_line r) with (("Received" ++ rest)%string).
      cbn [append]. f_equal. now rewrite !append_assoc. }
    rewrite Heq.
    apply (find_past_the_start "Received" _ _ "S" "R" "eceived");
      [reflexivity | discriminate]. }
  destruct (parse_lines_ending_blank (to_radclient_log r) now
              (PyStr.splitlines (p ++ PyStr.nl)) Hfind)
    as (e & Hparse & He).
  - rewrite Hcontent.
    now rewrite (splitlines_after_line_feed (String.length p) p _ (le_n _)).
  - unfold p. change (sent_line r) with (String "S"
        ("ent " ++ req_type r ++ " Id " ++ id_ r ++ " from "
           ++ nas_ip r ++ ":" ++ nas_port r ++ " to " ++ srv_ip r
           ++ ":" ++ srv_port r ++ " length " ++ req_length r)%string).
    cbn [append]. apply splitlines_nonempty.
  - unfold RADIUSResponse_init. rewrite Hparse. cbn [bind].
    destruct e; try discriminate. now eexists.
Qed.

(** The rendering of the Access-Accept example, and of the reject
    example, whose last line is the bare indentation. *)
Example to_radclient_log_accept :
  to_radclient_log (parsed accept_transcript 0)
  = transcript
      [ "Sent Access-Request Id 192 from 10.16.51.114:64920 to 1.2.3.4:714 length 59";
        "    User-Name='ahoward'";
        "    User-Password='**********'";
        "    Service-Type='Framed'";
        "    NAS-Port-Type='Ethernet'";
        "    Cleartext-Password='**********'";
        "Received Access-Accept Id 192 from 1.2.3.4:714 to 10.16.51.114:64920 length 106";
        "    User-Name='ahoward'";
        "    Class='0x434143533a633631'" ].
Proof. vm_compute. reflexivity. Qed.

Lemma log_of_a_response_without_reply_attributes_is_not_read_back_witness :
  let r := parsed reject_transcript 0 in
  rsp_type r = ACCESS_REJECT /\
  rsp_attrs r = [] /\
  exists msg,
    RADIUSResponse_init (Some (to_radclient_log r)) 5 = inl (ValueError msg).
Proof.
  intros r.
  assert (Hrsp : rsp_attrs r = []) by reflexivity.
  split; [reflexivity |]. split; [exact Hrsp |].
  exact (log_of_a_response_without_reply_attributes_is_not_read_back r 5 Hrsp).
Defined.

(** ** Masks *)

Lemma str_times_length (n : nat) (c : string) :
  String.length (str_times n c) = (n * String.length c)%nat.
Proof.
  induction n as [| n IH]; simpl; [reflexivity |].
  now rewrite length_append, IH.
Qed.

Lemma str_times_star (n : nat) : str_times n "*" = PyStr.repeat "*" n.
Proof. induction n as [| n IH]; simpl; [reflexivity | now rewrite IH]. Qed.

(** X24: [redact] returns as many copies of the character string as the
    rendering of its argument has characters (four for [None]); with the
    default asterisk and a string it is the mask the constructor of
    [RADIUSResponse] writes over a password of that string. *)
Theorem redact_is_the_mask_of_the_constructor (s : option pyval) (c : string) :
  String.length (redact s c) = (String.length (py_str s) * String.length c)%nat /\
  (forall password d,
      MultiDict.get "User-Password" d = Some (PStr password) ->
      exists d',
        redact_key "User-Password" d = inr d' /\
        MultiDict.get "User-Password" d'
        = Some (PStr (redact (Some (PStr password)) "*"))).
Proof.
  split.
  - unfold redact. apply str_times_length.
  - intros password d Hget. unfold redact_key. rewrite Hget.
    eexists. split; [reflexivity |].
    rewrite MultiDictFacts.get_setitem_same. unfold redact. cbn [py_str pyval_str].
    now rewrite str_times_star.
Qed.

(** ** Sweeps and stops at concrete inputs *)

Lemma sweep_stops_in_table_order_witness :
  let a := session_at (SWEEP - 61 * SECOND) (PInt 1) 60 in
  let b := session_at (SWEEP - 59 * SECOND) (PInt 2) 60 in
  let c := session_at (SWEEP - 100 * SECOND) (PInt 3) 60 in
  let m := script_machine (nad_with [a; b; c] (PInt 3))
             (sweep_world ["1"%string; "3"%string]) in
  exists responses m',
    stop_expired_sessions script_shell script_clock m = (inr responses, m') /\
    calls m' = calls m ++ [stop_cmd (self m) a; stop_cmd (self m) c] /\
    List.length responses = 2%nat /\
    sessions (self m') = [b].
Proof.
  intros a b c m.
  destruct (stop_expired_sessions script_shell script_clock m)
    as [[e | responses] m'] eqn:Hrun; [vm_compute in Hrun; discriminate Hrun |].
  destruct (sweep_stops_in_table_order Script script_shell script_clock m)
    as [_ Hall].
  rewrite Hrun in Hall. destruct (Hall responses eq_refl) as [Hcalls Hlen].
  exists responses, m'. split; [reflexivity |].
  split; [exact Hcalls |]. split; [exact Hlen |].
  vm_compute in Hrun. inversion Hrun. reflexivity.
Defined.

Lemma accepted_stop_removes_the_session_witness :
  let before := session_at (SWEEP - 200 * SECOND) (PInt 5) 60 in
  let row := aged_session 61 in
  let after := session_at (SWEEP - 10 * SECOND) (PInt 9) 60 in
  let m := script_machine (nad_with [before; row; after] (PInt 9))
             (sweep_world ["1"%string]) in
  let stop := parsed (stop_transcript "1") SWEEP in
  NoDup (DataFrame.index (sessions (self m))) /\
  (forall y, In y [before; after] -> Acct_Session_Id y <> Acct_Session_Id row) /\
  RADIUSResponse_init (Some (stop_transcript "1")) SWEEP = inr stop /\
  is_accepted stop = true /\
  exists w,
    acct_stop_by_attrs script_shell script_clock (Some (stop_attrs row)) m
    = (inr stop,
       mkMachine (set_sessions (self m) [before; after]) w
         (calls m ++ [stop_cmd (self m) row])).
Proof.
  intros before row after m stop.
  assert (Hnd : NoDup (DataFrame.index (sessions (self m)))).
  { repeat constructor; cbn; intros H;
      repeat (destruct H as [H | H]; [vm_compute in H; discriminate H |]);
      exact H. }
  assert (Hid : forall y, In y ([before] ++ [after]) ->
                          Acct_Session_Id y <> Acct_Session_Id row).
  { intros y [<- | [<- | []]]; discriminate. }
  assert (Hparse : RADIUSResponse_init (Some (stop_transcript "1")) SWEEP = inr stop)
    by reflexivity.
  assert (Hacc : is_accepted stop = true) by reflexivity.
  split; [exact Hnd |]. split; [exact Hid |].
  split; [exact Hparse |]. split; [exact Hacc |].
  eexists.
  exact (accepted_stop_removes_the_session Script script_shell script_clock
           m [before] [after] row (stop_transcript "1") EmptyString
           (mkScript [] [SWEEP; SWEEP; (SWEEP + SECOND)%Z; (SWEEP + 2 * SECOND)%Z] [])
           (mkScript [] [SWEEP; (SWEEP + SECOND)%Z; (SWEEP + 2 * SECOND)%Z] [])
           SWEEP stop eq_refl Hnd Hid
           eq_refl eq_refl Hparse Hacc).
Defined.

(** ** The properties at concrete inputs *)

Lemma first_id_after_restore_witness :
  let df := [session_at T0 (PInt 3) SESSION_TIMEOUT;
             session_at (T0 + SECOND) (PInt 7) SESSION_TIMEOUT;
             session_at (T0 + 2 * SECOND) (PInt 5) SESSION_TIMEOUT] in
  let r := nad_with df (NpInt64 7) in
  let m := script_machine r same_millisecond_world in
  RADNAD_init (default_args (Some (PStr "1.2.3.4")) (Some "C1sco12345")) (Some df)
  = inr r /\
  generate_session_id m
  = (inr (PInt 8), script_machine (nad_with df (NpInt64 8)) same_millisecond_world) /\
  sessions r = df /\
  forall s, In s df -> Acct_Session_Id s <> PInt 8.
Proof.
  intros df r m.
  assert (Hinit : RADNAD_init
                    (default_args (Some (PStr "1.2.3.4")) (Some "C1sco12345"))
                    (Some df) = inr r) by reflexivity.
  assert (Hids : int64_ids df).
  { intros s [<- | [<- | [<- | []]]]; eexists; (split; [reflexivity |]);
      unfold INT64_MIN, INT64_MAX; lia. }
  assert (Htop : exists s, In s df /\ Acct_Session_Id s = PInt 7).
  { eexists. split; [right; left; reflexivity | reflexivity]. }
  assert (Hmax : forall s i, In s df -> Acct_Session_Id s = PInt i -> (i <= 7)%Z).
  { intros s i [<- | [<- | [<- | []]]] Hi; inversion Hi; lia. }
  destruct (first_id_after_restore Script _ df r m 7
              Hinit eq_refl Hids Htop Hmax) as [Hgen [Hdf Hfresh]].
  split; [exact Hinit |]. split; [exact Hgen |]. split; [exact Hdf |].
  apply Hfresh. unfold INT64_MAX. lia.
Defined.

(** At the end of the int64 range the restored counter wraps: a file
    with the ids 2^63-1 and -2^63 makes the first id handed out -2^63,
    the id of a restored row. *)
Example first_id_after_restore_wraps :
  let df := [session_at T0 (PInt INT64_MAX) SESSION_TIMEOUT;
             session_at (T0 + SECOND) (PInt INT64_MIN) SESSION_TIMEOUT] in
  exists r,
    RADNAD_init (default_args (Some (PStr "1.2.3.4")) (Some "C1sco12345")) (Some df)
    = inr r /\
    counter r = NpInt64 INT64_MAX /\
    fst (generate_session_id (script_machine r same_millisecond_world))
    = inr (PInt INT64_MIN) /\
    In (PInt INT64_MIN) (map Acct_Session_Id df).
Proof.
  eexists. split; [reflexivity |]. split; [reflexivity |].
  split; [reflexivity |]. right. left. reflexivity.
Qed.

Lemma generate_mac_shape_witness :
  let m := script_machine nad same_millisecond_world in
  (6 <= String.length "001122")%nat /\
  exists mac w,
    generate_mac script_random (Some (PStr "001122")) "-" m
    = (inr mac, mkMachine (self m) w (calls m)) /\
    String.length mac = 17%nat.
Proof.
  intros m.
  assert (Hlen : (6 <= String.length "001122")%nat) by (simpl; lia).
  split; [exact Hlen |].
  destruct (generate_mac_shape Script script_random (Some (PStr "001122")) "-" m
              (or_intror (ex_intro _ "001122"%string (conj eq_refl Hlen))))
    as (groups & w & Hrun & _ & _ & Hl & _).
  exists (PyStr.join "-" groups), w. split; [exact Hrun | exact Hl].
Defined.

Lemma auth_sends_one_request_with_the_next_id_witness :
  let df := [session_at T0 (PInt INT64_MAX) SESSION_TIMEOUT] in
  let m := script_machine (nad_with df (NpInt64 INT64_MAX)) same_millisecond_world in
  dot1x_attrs <> [] /\
  counter_step (counter (self m)) (NpInt64 INT64_MIN) INT64_MIN /\
  exists sent res w,
    auth script_shell script_clock (Some dot1x_attrs) m
    = (res,
       mkMachine (nad_with df (NpInt64 INT64_MIN)) w
         (calls m ++ [radclient_cmd (to_avp_string sent) (server (self m))
                        (auth_port (self m)) "auth" (secret (self m))])) /\
    MultiDict.get "Acct-Session-Id" sent = Some (PInt (- 9223372036854775808)).
Proof.
  intros df m.
  assert (Ha : dot1x_attrs <> []) by discriminate.
  assert (Hn : counter_step (counter (self m)) (NpInt64 INT64_MIN) INT64_MIN)
    by exact step_int64_max.
  split; [exact Ha |]. split; [exact Hn |].
  destruct (auth_sends_one_request_with_the_next_id Script script_shell script_clock
              dot1x_attrs m _ _ Ha Hn) as (sent & res & w & Hrun & Hsid & _).
  exists sent, res, w. split; [exact Hrun | exact Hsid].
Defined.

Lemma stderr_report_needs_two_request_attributes_witness :
  let m := script_machine nad stderr_world in
  let r := parsed accept_transcript T0 in
  RADIUSResponse_init (Some accept_transcript) T0 = inr r /\
  "radclient: warning"%string <> EmptyString /\
  fst (_radclient_cli_cmd script_shell script_clock dot1x_attrs m)
  = inl (KeyError "Calling-Station-Id").
Proof.
  intros m r.
  assert (Hparse : RADIUSResponse_init (Some accept_transcript) T0 = inr r)
    by reflexivity.
  assert (Herr : "radclient: warning"%string <> EmptyString) by discriminate.
  split; [exact Hparse |]. split; [exact Herr |].
  exact (stderr_report_needs_two_request_attributes Script script_shell script_clock
           dot1x_attrs m accept_transcript "radclient: warning"
           (mkScript [] [T0] []) (mkScript [] [] []) T0 r
           eq_refl eq_refl Hparse Herr).
Defined.

Lemma acct_refuses_before_sending_witness :
  let a := parsed accept_transcript T0 in
  let m := script_machine nad same_millisecond_world in
  req_attrs a <> [] /\
  rsp_type a <> ACCESS_REJECT /\
  ("Interim-Update"%string <> ACCT_START /\ "Interim-Update"%string <> ACCT_STOP) /\
  exists msg,
    acct script_shell script_clock script_random (Some a) "Interim-Update" m
    = (inl (ValueError msg), m).
Proof.
  intros a m.
  assert (Hreq : req_attrs a <> []) by discriminate.
  assert (Hty : rsp_type a <> ACCESS_REJECT) by discriminate.
  assert (Hst : "Interim-Update"%string <> ACCT_START
                /\ "Interim-Update"%string <> ACCT_STOP)
    by (split; discriminate).
  split; [exact Hreq |]. split; [exact Hty |]. split; [exact Hst |].
  exact (acct_refuses_before_sending Script script_shell script_clock script_random
           a "Interim-Update" m Hreq Hty (or_introl Hst)).
Defined.

Lemma acct_request_attributes_witness :
  let a := parsed auth_2_transcript T0 in
  let m := script_machine nad same_millisecond_world in
  MultiDict.unique_keys (req_attrs a) /\
  MultiDict.unique_keys (rsp_attrs a) /\
  MultiDict.get "Acct-Session-Id" (req_attrs a) = Some (PStr "2") /\
  MultiDict.get "User-Password" (req_attrs a) = Some (PStr "**********") /\
  exists sent res w,
    acct script_shell script_clock script_random (Some a) ACCT_START m
    = (res,
       mkMachine (self m) w
         (calls m ++ [radclient_cmd (to_avp_string sent) (server (self m))
                        (acct_port (self m)) "acct" (secret (self m))])) /\
    MultiDict.get "User-Password" sent = None /\
    MultiDict.get "Acct-Session-Id" sent = Some (PStr "2").
Proof.
  intros a m.
  assert (Hparse : RADIUSResponse_init (Some auth_2_transcript) T0 = inr a)
    by reflexivity.
  destruct (parsed_attrs_unique_keys _ _ _ Hparse) as [Hu1 Hu2].
  assert (Hreq : req_attrs a <> []) by discriminate.
  assert (Hrsp : rsp_attrs a <> []) by discriminate.
  assert (Hty : rsp_type a <> ACCESS_REJECT) by discriminate.
  assert (Hsid : MultiDict.get "Acct-Session-Id" (req_attrs a) <> None)
    by discriminate.
  split; [exact Hu1 |]. split; [exact Hu2 |].
  split; [reflexivity |]. split; [reflexivity |].
  destruct (acct_request_attributes Script script_shell script_clock script_random
              a ACCT_START m Hreq Hrsp Hty (or_introl eq_refl) Hu1 Hu2 Hsid)
    as (sent & res & w & Hrun & Hgone & _ & _ & _ & Hkept).
  exists sent, res, w. split; [exact Hrun |]. split.
  - apply Hgone. left. reflexivity.
  - rewrite Hkept; [reflexivity |]. cbn [In]. intuition discriminate.
Defined.

Lemma acct_stop_by_attrs_requires_three_attributes_witness :
  let attrs := [("User-Name", PStr "ahoward")] in
  let m := script_machine nad same_millisecond_world in
  MultiDict.get "Acct-Session-Id" attrs = None /\
  exists msg,
    acct_stop_by_attrs script_shell script_clock (Some attrs) m
    = (inl (ValueError msg), m).
Proof.
  intros attrs m.
  assert (H : MultiDict.get "Acct-Session-Id" attrs = None) by reflexivity.
  split; [exact H |].
  exact (acct_stop_by_attrs_requires_three_attributes Script script_shell
           script_clock attrs m (or_introl H)).
Defined.

Lemma create_session_moves_the_columns_witness :
  let response := parsed start_2_transcript T0 in
  let m := script_machine nad same_millisecond_world in
  rsp_type response = ACCOUNTING_RESPONSE /\
  MultiDict.unique_keys (req_attrs response) /\
  create_session response m
  = (inr (set_req_attrs response [("Service-Type"%string, PStr "Framed")]),
     mkMachine (set_sessions (self m) (sessions (self m) ++ [session_2]))
       (world m) (calls m)) /\
  Other session_2 = "Service-Type='Framed'"%string.
Proof.
  intros response m.
  assert (Hparse : RADIUSResponse_init (Some start_2_transcript) T0 = inr response)
    by reflexivity.
  destruct (parsed_attrs_unique_keys _ _ _ Hparse) as [Hu _].
  assert (Hty : rsp_type response = ACCOUNTING_RESPONSE) by reflexivity.
  split; [exact Hty |]. split; [exact Hu |].
  destruct (create_session_moves_the_columns Script response m Hty Hu)
    as (Hrun & _ & _).
  split; [exact Hrun | reflexivity].
Defined.

Lemma created_session_is_not_found_by_integer_id_witness :
  let response := parsed start_2_transcript T0 in
  let m := script_machine nad same_millisecond_world in
  let m' := snd (create_session response m) in
  RADIUSResponse_init (Some start_2_transcript) T0 = inr response /\
  rsp_type response = ACCOUNTING_RESPONSE /\
  get_session_count (self m') = 1%Z /\
  get_sessions_by_id (Some (PInt 2)) (self m') = Some [] /\
  get_sessions_by_id (Some (PStr "2")) (self m') = Some [session_2].
Proof.
  intros response m m'.
  assert (Hparse : RADIUSResponse_init (Some start_2_transcript) T0 = inr response)
    by reflexivity.
  assert (Hty : rsp_type response = ACCOUNTING_RESPONSE) by reflexivity.
  split; [exact Hparse |]. split; [exact Hty |].
  destruct (created_session_is_not_found_by_integer_id Script
              (Some start_2_transcript) T0 response m 2 Hparse Hty)
    as [Hcount Hfind].
  split; [exact Hcount |]. split; [exact Hfind | reflexivity].
Defined.

Lemma sweep_raises_on_a_string_timeout_witness :
  let m := script_machine (nad_with [string_timeout_session] (PInt 2))
             (sweep_world ["2"%string]) in
  In string_timeout_session
    (after_four_day_drop (fst (script_clock (world m)) - FOUR_DAYS)
       (sessions (self m))) /\
  Session_Timeout string_timeout_session = PStr "60" /\
  exists msg m',
    stop_expired_sessions script_shell script_clock m
    = (inl (TypeError msg), m') /\
    calls m' = calls m.
Proof.
  intros m.
  assert (Hin : In string_timeout_session
                  (after_four_day_drop (fst (script_clock (world m)) - FOUR_DAYS)
                     (sessions (self m))))
    by (left; reflexivity).
  split; [exact Hin |]. split; [reflexivity |].
  exact (sweep_raises_on_a_string_timeout Script script_shell script_clock
           m string_timeout_session "60" Hin eq_refl).
Defined.





(** ** The command line *)





Section CommandLine.

Variable World : Type.
Variable shell : string -> World -> (string * string) * World.
Variable clock : World -> Z * World.


Lemma session_expired_long (t : Z) (s : Session) (tmo : Z) :
  Session_Timeout s = PInt tmo ->
  (DAY_SECONDS - 1 <= tmo)%Z ->
  session_expired t s = inr false.
Proof.
  intros Hs Hlong. unfold session_expired. rewrite Hs. unfold ret. f_equal.
  pose proof (td_seconds_bound (t - Timestamp s)) as Hb.
  rewrite Z.gtb_ltb. apply Z.ltb_ge. lia.
Qed.

Lemma session_expired_condition_long (t : Z) (df : DataFrame.t) :
  (forall s, In s df ->
             exists tmo, Session_Timeout s = PInt tmo /\ (DAY_SECONDS - 1 <= tmo)%Z) ->
  exists cond,
    session_expired_condition t df = inr cond /\ flagged cond = [].
Proof.
  induction df as [| x df IH]; intros H.
  - now exists [].
  - destruct (H x (or_introl eq_refl)) as (tmo & Hx & Hlong).
    destruct IH as (cond & Hcond & Hflag); [intros s Hs; apply H; now right |].
    exists ((x, false) :: cond). cbn [session_expired_condition].
    rewrite (session_expired_long t x tmo Hx Hlong). cbn [bind].
    rewrite Hcond. cbn [bind]. split; [reflexivity |].
    unfold flagged in *. cbn [filter snd]. exact Hflag.
Qed.

Lemma stop_timed_out_long (m : machine World) :
  (forall s, In s (sessions (self m)) ->
             exists tmo, Session_Timeout s = PInt tmo /\ (DAY_SECONDS - 1 <= tmo)%Z) ->
  exists w,
    stop_timed_out shell clock m = (inr [], mkMachine (self m) w (calls m)).
Proof.
  intros H. unfold stop_timed_out, bindM, get_self, now, liftM, retM.
  destruct (DataFrame.len (sessions (self m)) <=? 0)%Z.
  { exists (world m). now rewrite machine_eta. }
  destruct (clock (world m)) as [t w]. cbn [self world calls].
  destruct (session_expired_condition_long t (sessions (self m)) H)
    as (cond & -> & ->).
  now exists w.
Qed.

(** X29: rows whose [Session-Timeout] is 86399 seconds or more are never
    stopped by a sweep: when every row of the table has such a timeout,
    [stop_expired_sessions] returns the empty list and sends nothing,
    however old the rows are; the table is what the four-day drop
    leaves. *)
Theorem long_timeouts_are_never_stopped (m : machine World) :
  (forall s, In s (sessions (self m)) ->
             exists tmo, Session_Timeout s = PInt tmo /\ (DAY_SECONDS - 1 <= tmo)%Z) ->
  exists m',
    stop_expired_sessions shell clock m = (inr [], m') /\
    calls m' = calls m /\
    sessions (self m')
    = after_four_day_drop (fst (clock (world m)) - FOUR_DAYS) (sessions (self m)).
Proof.
  intros H. unfold stop_expired_sessions, bindM.
  rewrite (drop_four_day_old_spec World clock m).
  destruct (stop_timed_out_long
              (mkMachine
                 (set_sessions (self m)
                    (after_four_day_drop (fst (clock (world m)) - FOUR_DAYS)
                       (sessions (self m))))
                 (snd (clock (world m))) (calls m))) as [w ->].
  - cbn [self sessions set_sessions]. intros s Hs.
    apply after_four_day_drop_survivors in Hs. apply H. tauto.
  - eexists. split; [reflexivity |]. now split.
Qed.

End CommandLine.


Lemma long_timeouts_are_never_stopped_witness :
  let m := script_machine (nad_with [day_timeout_session] (PInt 1))
             (sweep_world ["1"%string]) in
  Session_Timeout day_timeout_session = PInt DAY_SECONDS /\
  (fst (script_clock (world m)) - Timestamp day_timeout_session
   > DAY_SECONDS * MICROSECONDS)%Z /\
  exists m',
    stop_expired_sessions script_shell script_clock m = (inr [], m') /\
    calls m' = calls m /\
    sessions (self m') = [day_timeout_session].
Proof.
  intros m.
  assert (H : forall s, In s (sessions (self m)) ->
                        exists tmo, Session_Timeout s = PInt tmo
                                    /\ (DAY_SECONDS - 1 <= tmo)%Z).
  { intros s [<- | []]. exists DAY_SECONDS. split; [reflexivity |].
    unfold DAY_SECONDS. lia. }
  split; [reflexivity |]. split; [reflexivity |].
  destruct (long_timeouts_are_never_stopped Script script_shell script_clock m H)
    as (m' & Hrun & Hcalls & Htable).
  exists m'. split; [exact Hrun |]. split; [exact Hcalls |].
  rewrite Htable. reflexivity.
Defined.

(** ** Stripping *)

Lemma lstrip_head (p : ascii -> bool) (s : string) :
  PyStr.lstrip p s = EmptyString \/
  exists c r, PyStr.lstrip p s = String c r /\ p c = false.
Proof.
  induction s as [| c s IH]; cbn [PyStr.lstrip]; [now left |].
  destruct (p c) eqn:Hc; [exact IH |]. right. now exists c, s.
Qed.

Lemma rstrip_cons (p : ascii -> bool) (c : ascii) (s : string) :
  PyStr.rstrip p (String c s)
  = match PyStr.rstrip p s with
    | EmptyString => if p c then EmptyString else PyStr.one c
    | r => String c r
    end.
Proof. reflexivity. Qed.

Lemma rstrip_idempotent (p : ascii -> bool) (s : string) :
  PyStr.rstrip p (PyStr.rstrip p s) = PyStr.rstrip p s.
Proof.
  induction s as [| c s IH]; [reflexivity |].
  rewrite rstrip_cons.
  destruct (PyStr.rstrip p s) as [| c' r'] eqn:Hr.
  - destruct (p c) eqn:Hc; [reflexivity |].
    unfold PyStr.one. rewrite rstrip_cons. cbn [PyStr.rstrip]. now rewrite Hc.
  - rewrite rstrip_cons, IH. reflexivity.
Qed.

Lemma rstrip_keeps_head (p : ascii -> bool) (c : ascii) (r : string) :
  p c = false -> exists r', PyStr.rstrip p (String c r) = String c r'.
Proof.
  intros Hc. cbn [PyStr.rstrip].
  destruct (PyStr.rstrip p r); [rewrite Hc |]; now eexists.
Qed.

Lemma strip_idempotent (p : ascii -> bool) (s : string) :
  PyStr.strip p (PyStr.strip p s) = PyStr.strip p s.
Proof.
  unfold PyStr.strip.
  destruct (lstrip_head p s) as [-> | (c & r & -> & Hc)]; [reflexivity |].
  destruct (rstrip_keeps_head p c r Hc) as [r' Hr].
  assert (Hl : PyStr.lstrip p (PyStr.rstrip p (String c r))
               = PyStr.rstrip p (String c r)).
  { rewrite Hr. cbn [PyStr.lstrip]. now rewrite Hc. }
  rewrite Hl. apply rstrip_idempotent.
Qed.

Lemma parse_avp_stripped (line key val : string) :
  parse_avp line = inr (key, val) ->
  PyStr.strip PyStr.is_quote_or_space key = key /\
  PyStr.strip PyStr.is_quote_or_space val = val.
Proof.
  unfold parse_avp.
  destruct (PyStr.split1 "=" _) as [| k [| v [| ? ?]]]; intros H; inversion H.
  split; apply strip_idempotent.
Qed.

Lemma avps_loop_stripped (lines : list string) :
  forall d d',
    (forall k v, In (k, v) d ->
                 PyStr.strip PyStr.is_quote_or_space k = k /\
                 exists s, v = PStr s /\ PyStr.strip PyStr.is_quote_or_space s = s) ->
    avps_loop lines d = inr d' ->
    forall k v, In (k, v) d' ->
                PyStr.strip PyStr.is_quote_or_space k = k /\
                exists s, v = PStr s /\ PyStr.strip PyStr.is_quote_or_space s = s.
Proof.
  induction lines as [| line lines IH]; intros d d' Hd Hrun; cbn [avps_loop] in Hrun.
  - inversion Hrun; subst. exact Hd.
  - destruct (PyStr.find "=" line <=? 0)%Z; [now apply (IH d) |].
    apply bind_inr in Hrun. destruct Hrun as [[key val] [Hp Hrun]].
    apply (IH (MultiDict.setitem key (PStr val) d) d'); [| exact Hrun].
    intros k v Hin. apply in_setitem in Hin.
    destruct Hin as [Heq | Hin]; [| now apply Hd].
    inversion Heq; subst. apply parse_avp_stripped in Hp.
    split; [tauto |]. exists val. split; [reflexivity | tauto].
Qed.

(** X30: whatever [avps_to_multidict] stores is trimmed: no name and no
    value of the dictionary it returns begins or ends with a double quote,
    a single quote or a blank, that is, stripping them again changes
    nothing. *)
Theorem avps_to_multidict_stores_trimmed_text
  (text : string) (d : MultiDict.t) (k : string) (v : pyval) :
  avps_to_multidict text = inr d ->
  In (k, v) d ->
  PyStr.strip PyStr.is_quote_or_space k = k /\
  exists s, v = PStr s /\ PyStr.strip PyStr.is_quote_or_space s = s.
Proof.
  unfold avps_to_multidict. intros Hrun.
  apply (avps_loop_stripped (PyStr.splitlines text) MultiDict.empty d);
    [intros ? ? [] | exact Hrun].
Qed.

Lemma avps_to_multidict_stores_trimmed_text_witness :
  let text := transcript [ avp_quoted "Cisco-AVPair" "profile-name=Unknown" ] in
  let d := [("Cisco-AVPair", PStr "profile-name=Unknown")] in
  avps_to_multidict text = inr d /\
  PyStr.strip PyStr.is_quote_or_space "Cisco-AVPair" = "Cisco-AVPair"%string /\
  exists s,
    PStr "profile-name=Unknown" = PStr s /\
    PyStr.strip PyStr.is_quote_or_space s = s.
Proof.
  intros text d.
  assert (Hrun : avps_to_multidict text = inr d) by reflexivity.
  split; [exact Hrun |].
  exact (avps_to_multidict_stores_trimmed_text text d "Cisco-AVPair"
           (PStr "profile-name=Unknown") Hrun (or_introl eq_refl)).
Defined.
